(** * Community-initiatives backend: models, route handlers and their properties

    A shallow embedding of the Mongoose models ([Initiative.js], [Event.js],
    [Message.js], the notification schema), of the authentication
    middleware and of the Express route handlers, followed by the
    properties the specification states about them.

    Conventions of the embedding.
    - An [ObjectId] is its canonical (lower-case) 24-digit hexadecimal
      string, so [x.toString() === y] is string equality.
    - A JavaScript [Number] that the code only counts with is a [Z]. One
      it computes with is a [Number]: a binary64 value, that is a rational,
      an infinity or NaN, and every sum, product and quotient is rounded
      to the nearest binary64 value, ties to even. The two zeros are one
      value.
    - A [Date] is a [Z] (milliseconds); [new Date()] reads a clock value
      the handler receives as [now].
    - An exception is a value of [Exc]; a handler's [try]/[catch] turns it
      into the response the [catch] block sends.
    - A collection is the list of its documents in natural order.
    - Mongoose's reading of a request string as an ObjectId is a parameter
      [castObjectId] of the handlers that look documents up by id.
    - [populate] only enriches the response and is left out, except where
      a handler reads the populated value.
    - Records carry the schema paths the embedded code reads or writes,
      and [save] runs the validators of these paths. The paths of a
      document that its record leaves out ([description], [startDate],
      [progress], ...) are taken to hold values that pass their
      validators.
    - A string is the sequence of its UTF-16 code units, here those below
      256; [String.length] is the [length] of JavaScript. *)

From Stdlib Require Import ZArith QArith Qround Qminmax Qabs Qpower Qreduction.
From Stdlib Require Qcanon.
From Stdlib Require Import List String Ascii Bool Lia Lqa.
Import ListNotations.

Local Open Scope string_scope.
Local Open Scope Z_scope.

(* ------------------------------------------------------------------ *)
(** ** Exceptions *)

Inductive Error : Type :=
| TypeError        (* property access on undefined *)
| CastError (kind : string)
                   (* Mongoose could not cast a value to the schema type *)
| ValidationError  (* Mongoose validation before save failed *)
| MongoError       (* the store rejected the command *)
| JwtError.        (* jwt.verify rejected the token *)

Inductive Exc (A : Type) : Type :=
| Ret (a : A)
| Throw (e : Error).

Arguments Ret {A} a.
Arguments Throw {A} e.

Definition bind {A B : Type} (c : Exc A) (k : A -> Exc B) : Exc B :=
  match c with
  | Ret a => k a
  | Throw e => Throw e
  end.

Notation "x <- c ;; k" := (bind c (fun x => k))
  (at level 61, c at next level, right associativity).

(** [Array.prototype.filter] with a callback that may throw: the callbacks
    run in index order and the first exception escapes. *)
Fixpoint filterM {A : Type} (f : A -> Exc bool) (l : list A) : Exc (list A) :=
  match l with
  | [] => Ret []
  | x :: t =>
      b <- f x ;;
      r <- filterM f t ;;
      Ret (if b then x :: r else r)
  end.

(** [Array.prototype.find] with a callback that may throw. *)
Fixpoint findM {A : Type} (f : A -> Exc bool) (l : list A) : Exc (option A) :=
  match l with
  | [] => Ret None
  | x :: t =>
      b <- f x ;;
      if b then Ret (Some x) else findM f t
  end.

(* ------------------------------------------------------------------ *)
(** ** Identifiers, dates, responses *)

Definition ObjectId : Type := string.
Definition Date : Type := Z.

(** [v.toString()] where [v] is an ObjectId-typed path that may be
    undefined: calling a method on [undefined] throws. *)
Definition toString (v : option ObjectId) : Exc string :=
  match v with
  | Some i => Ret i
  | None => Throw TypeError
  end.

(** What a handler sends: [res.json(x)] (status 200),
    [res.status(c).json({ message })] / [res.status(c).send(text)], or
    [res.status(400).json({ errors })] from the validators. *)
Inductive Reply (A : Type) : Type :=
| Json (payload : A)
| Failed (code : Z) (message : string)
| Invalid (errors : list string).

Arguments Json {A} payload.
Arguments Failed {A} code message.
Arguments Invalid {A} errors.

Definition status {A : Type} (r : Reply A) : Z :=
  match r with
  | Json _ => 200
  | Failed c _ => c
  | Invalid _ => 400
  end.

(* ------------------------------------------------------------------ *)
(** ** JavaScript numbers *)

(** A value of type Number: a finite binary64 value, given by the rational
    it denotes, an infinity, or NaN. *)
Inductive Number : Type :=
| Finite (q : Q)
| PosInfinity
| NegInfinity
| NaN.

Definition pow2 (e : Z) : Q := (2 ^ e)%Q.

(** The binary exponent of a positive rational: the [l] with
    [2^l <= q < 2^(l+1)]. *)
Definition Qlog2 (q : Q) : Z :=
  let c := Z.log2 (Qnum q) - Z.log2 (Zpos (Qden q)) in
  if Qle_bool (pow2 c) q then c else c - 1.

(** The nearest integer, a tie going to the even one. *)
Definition round_half_even (q : Q) : Z :=
  let f := Qfloor q in
  match Qcompare (q - inject_Z f) (1 # 2) with
  | Lt => f
  | Gt => f + 1
  | Eq => if Z.even f then f else f + 1
  end.

(** The exponent of the unit in the last place of the binary64 values
    around [q]: 53 significant bits, and 2^-1074 for the subnormal
    range. *)
Definition ulp_exponent (q : Q) : Z := Z.max (Qlog2 (Qabs q) - 52) (-1074).

(** The multiple of that unit nearest to [q], ties to even. *)
Definition nearest64 (q : Q) : Q :=
  let e := ulp_exponent q in
  (inject_Z (round_half_even (q / pow2 e)) * pow2 e)%Q.

(** The binary64 value of an exact result [q]: IEEE 754 rounding to
    nearest, ties to even, with overflow to an infinity from 2^1024 on. *)
Definition binary64 (q : Q) : Number :=
  if Qeq_bool q 0 then Finite 0
  else
    let r := nearest64 q in
    if Qle_bool (pow2 1024) r then PosInfinity
    else if Qle_bool r (- pow2 1024) then NegInfinity
    else Finite (Qred r).

(** [a <= b]: false as soon as one side is NaN. *)
Definition Number_leb (a b : Number) : bool :=
  match a, b with
  | NaN, _ | _, NaN => false
  | NegInfinity, _ => true
  | _, PosInfinity => true
  | Finite x, Finite y => Qle_bool x y
  | _, _ => false
  end.

Definition Number_le (a b : Number) : Prop := Number_leb a b = true.

(** [a + b]. *)
Definition Number_add (a b : Number) : Number :=
  match a, b with
  | NaN, _ | _, NaN => NaN
  | PosInfinity, NegInfinity | NegInfinity, PosInfinity => NaN
  | PosInfinity, _ | _, PosInfinity => PosInfinity
  | NegInfinity, _ | _, NegInfinity => NegInfinity
  | Finite x, Finite y => binary64 (x + y)
  end.

(** [a * b]. *)
Definition Number_mul (a b : Number) : Number :=
  match a, b with
  | NaN, _ | _, NaN => NaN
  | Finite x, Finite y => binary64 (x * y)
  | Finite x, inf | inf, Finite x =>
      match (x ?= 0)%Q with
      | Eq => NaN
      | Gt => inf
      | Lt => match inf with PosInfinity => NegInfinity | _ => PosInfinity end
      end
  | PosInfinity, PosInfinity | NegInfinity, NegInfinity => PosInfinity
  | _, _ => NegInfinity
  end.

(** [a / b]; a zero divisor is the positive zero. *)
Definition Number_div (a b : Number) : Number :=
  match a, b with
  | NaN, _ | _, NaN => NaN
  | Finite x, Finite y =>
      match (y ?= 0)%Q with
      | Eq => match (x ?= 0)%Q with
              | Eq => NaN
              | Gt => PosInfinity
              | Lt => NegInfinity
              end
      | _ => binary64 (x / y)
      end
  | Finite _, _ => Finite 0
  | inf, Finite y =>
      match (y ?= 0)%Q with
      | Lt => match inf with PosInfinity => NegInfinity | _ => PosInfinity end
      | _ => inf
      end
  | _, _ => NaN
  end.

(** [Math.min(a, b)]: NaN when an argument is NaN. *)
Definition Math_min (a b : Number) : Number :=
  match a, b with
  | NaN, _ | _, NaN => NaN
  | _, _ => if Number_leb a b then a else b
  end.

(** [Math.round]: the nearest integer, halves towards +infinity. *)
Definition Math_round (x : Number) : Number :=
  match x with
  | Finite q => Finite (inject_Z (Qfloor (q + (1 # 2))))
  | other => other
  end.

(** [Array.prototype.reduce((sum, x) => sum + f(x), 0)]. *)
Definition reduce_sum {A : Type} (f : A -> Number) (l : list A) : Number :=
  fold_left (fun sum x => Number_add sum (f x)) l (Finite 0).

(** The validators [min: lo, max: hi] of a Number path. *)
Definition in_range (lo hi : Q) (x : Number) : bool :=
  Number_leb (Finite lo) x && Number_leb x (Finite hi).

(** The validator [enum: allowed] of a String path. *)
Definition enum (allowed : list string) (s : string) : bool :=
  existsb (String.eqb s) allowed.

(* ------------------------------------------------------------------ *)
(** ** Strings of the request: trimming, hexadecimal identifiers *)

(** White space and line terminators among the code units below 256:
    U+0009 to U+000D, the space and the no-break space U+00A0. *)
Definition is_space (c : ascii) : bool :=
  let n := nat_of_ascii c in
  ((n =? 32) || ((9 <=? n) && (n <=? 13)) || (n =? 160))%nat.

Fixpoint trim_start (s : string) : string :=
  match s with
  | EmptyString => EmptyString
  | String c rest => if is_space c then trim_start rest else s
  end.

(** The string without its trailing white space. *)
Fixpoint trim_end (s : string) : string :=
  match s with
  | EmptyString => EmptyString
  | String c rest =>
      match trim_end rest with
      | EmptyString => if is_space c then EmptyString else String c EmptyString
      | kept => String c kept
      end
  end.

(** [String.prototype.trim], which the schema option [trim: true] applies. *)
Definition trim (s : string) : string := trim_end (trim_start s).

Definition is_hex (c : ascii) : bool :=
  let n := nat_of_ascii c in
  (((48 <=? n) && (n <=? 57)) || ((97 <=? n) && (n <=? 102))
   || ((65 <=? n) && (n <=? 70)))%nat.

Fixpoint all_chars (p : ascii -> bool) (s : string) : bool :=
  match s with
  | EmptyString => true
  | String c rest => p c && all_chars p rest
  end.

(** The validator [isHexadecimal], [/^(0x|0h)?[0-9A-F]+$/i]: hexadecimal
    digits, after an optional prefix 0x or 0h in either case. *)
Definition isHexadecimal (s : string) : bool :=
  let digits :=
    match s with
    | String "0" (String c rest) =>
        if existsb (Ascii.eqb c) ["x"; "X"; "h"; "H"]%char then rest else s
    | _ => s
    end in
  negb (String.eqb digits "") && all_chars is_hex digits.

(** The validator [isMongoId]: a hexadecimal string of 24 characters. *)
Definition isMongoId (s : string) : bool :=
  isHexadecimal s && (String.length s =? 24)%nat.

(** [String.prototype.replace(pattern, replacement)] with a string
    pattern: the first occurrence only. *)
Fixpoint replace_first (pattern replacement s : string) : string :=
  if String.prefix pattern s
  then replacement
       ++ String.substring (String.length pattern)
                           (String.length s - String.length pattern) s
  else match s with
       | EmptyString => EmptyString
       | String c rest => String c (replace_first pattern replacement rest)
       end.

(* ------------------------------------------------------------------ *)
(** ** Embedded feedback sub-documents (Initiative.js 70-89, Event.js 103-122) *)

Record Feedback : Type := mkFeedback {
  fb_user : option ObjectId;      (* not required by the schema *)
  fb_rating : Number;             (* Number, required, min 1, max 5 *)
  fb_comment : option string      (* maxlength 500 *)
}.

(** The schema validators of one feedback entry. *)
Definition valid_feedback (f : Feedback) : bool :=
  in_range 1 5 (fb_rating f) &&
  match fb_comment f with
  | Some c => (String.length c <=? 500)%nat
  | None => true
  end.

(** The callback [f => f.user.toString() !== userId.toString()]. *)
Definition other_reviewer (userId : ObjectId) (f : Feedback) : Exc bool :=
  s <- toString (fb_user f) ;;
  Ret (negb (String.eqb s userId)).

(** The validators [required: true] of a String path and of an ObjectId
    path. *)
Definition required_text (s : string) : bool := negb (String.eqb s "").

Definition required_ref (r : option ObjectId) : bool :=
  match r with
  | Some _ => true
  | None => false
  end.

(* ------------------------------------------------------------------ *)
(** ** models/Initiative.js *)

Module Initiative.

Record ImpactMetrics : Type := mkMetrics {
  peopleReached : Number;
  hoursVolunteered : Number;
  fundsRaised : Number;
  environmentalImpact : Number;
  socialConnections : Number
}.

Record t : Type := mk {
  _id : ObjectId;
  title : string;                 (* required, maxlength 100 *)
  category : string;              (* required, enum *)
  location : string;              (* required *)
  creator : option ObjectId;      (* required; null once an update set it so *)
  members : list ObjectId;
  likes : list ObjectId;
  status : string;                (* enum, default 'planning' *)
  impactScore : Number;           (* min 0, max 100 *)
  impactMetrics : ImpactMetrics;
  feedback : list Feedback;
  averageRating : Number;         (* min 0, max 5 *)
  totalRatings : Z;
  isPublic : bool;
  createdAt : Date
}.

Definition set_feedback (fb : list Feedback) (d : t) : t :=
  mk (_id d) (title d) (category d) (location d) (creator d) (members d)
     (likes d) (status d) (impactScore d) (impactMetrics d) fb
     (averageRating d) (totalRatings d) (isPublic d) (createdAt d).

Definition set_ratings (avg : Number) (n : Z) (d : t) : t :=
  mk (_id d) (title d) (category d) (location d) (creator d) (members d)
     (likes d) (status d) (impactScore d) (impactMetrics d) (feedback d)
     avg n (isPublic d) (createdAt d).

Definition set_impactScore (s : Number) (d : t) : t :=
  mk (_id d) (title d) (category d) (location d) (creator d) (members d)
     (likes d) (status d) s (impactMetrics d) (feedback d)
     (averageRating d) (totalRatings d) (isPublic d) (createdAt d).

Definition set_members (ms : list ObjectId) (d : t) : t :=
  mk (_id d) (title d) (category d) (location d) (creator d) ms
     (likes d) (status d) (impactScore d) (impactMetrics d) (feedback d)
     (averageRating d) (totalRatings d) (isPublic d) (createdAt d).

Definition categories : list string :=
  ["Environment"; "Education"; "Health"; "Technology"; "Arts"; "Sports";
   "Social"; "Community Development"; "Other"].

Definition statuses : list string :=
  ["planning"; "active"; "completed"; "paused"].

(** The validators of the schema, lines 4-101, on the paths of the
    record. *)
Definition valid (this : t) : bool :=
  required_text (title this)
  && (String.length (title this) <=? 100)%nat
  && enum categories (category this)
  && required_text (location this)
  && required_ref (creator this)
  && enum statuses (status this)
  && in_range 0 100 (impactScore this)
  && forallb valid_feedback (feedback this)
  && in_range 0 5 (averageRating this).

(** [initiativeSchema.pre('save', ...)], lines 173-180. *)
Definition pre_save (this : t) : t :=
  if (0 <? Z.of_nat (List.length (feedback this))) then
    let totalRating := reduce_sum fb_rating (feedback this) in
    set_ratings
      (Number_div totalRating
                  (Finite (inject_Z (Z.of_nat (List.length (feedback this))))))
      (Z.of_nat (List.length (feedback this)))
      this
  else this.

(** [this.save()]: Mongoose validates the paths of the document, those
    loaded from the store as well as those set since, then runs the
    pre-save hook, then persists; a validation failure rejects. *)
Definition save (this : t) : Exc t :=
  if valid this then Ret (pre_save this) else Throw ValidationError.

(** [calculateImpactScore], lines 183-204: the new document and the
    returned score. *)
Definition calculateImpactScore (this : t) : t * Number :=
  let metrics := impactMetrics this in
  let score := Finite 0 in
  let score :=
    Number_add score
      (Math_min (Number_div (peopleReached metrics) (Finite 100)) (Finite 25)) in
  let score :=
    Number_add score
      (Math_min (Number_div (hoursVolunteered metrics) (Finite 100))
                (Finite 25)) in
  let score :=
    Number_add score
      (Math_min (Number_div (fundsRaised metrics) (Finite 1000)) (Finite 20)) in
  let score :=
    Number_add score (Math_min (environmentalImpact metrics) (Finite 15)) in
  let score :=
    Number_add score
      (Math_min (Number_div (socialConnections metrics) (Finite 10))
                (Finite 15)) in
  let this' := set_impactScore (Math_round score) this in
  (this', impactScore this').

(** [addFeedback], lines 207-219. *)
Definition addFeedback (userId : ObjectId) (rating : Number)
           (comment : option string) (this : t) : Exc t :=
  kept <- filterM (other_reviewer userId) (feedback this) ;;
  let this := set_feedback kept this in
  let this := set_feedback
                (feedback this ++ [mkFeedback (Some userId) rating comment])
                this in
  save this.

End Initiative.

(* ------------------------------------------------------------------ *)
(** ** models/Event.js *)

Module Event.

Record t : Type := mk {
  _id : ObjectId;
  title : string;                 (* required, maxlength 100 *)
  category : string;              (* required, enum *)
  location : string;              (* required *)
  date : Date;
  organizer : option ObjectId;    (* required; null once an update set it so *)
  attendees : list ObjectId;
  likes : list ObjectId;
  status : string;                (* enum, default 'upcoming' *)
  capacity : Z;                   (* default 0, "0 means unlimited" *)
  engagementRate : Number;        (* eventMetrics.engagementRate *)
  feedback : list Feedback;
  averageRating : Number;         (* min 0, max 5 *)
  totalRatings : Z;
  isPublic : bool
}.

Definition set_feedback (fb : list Feedback) (d : t) : t :=
  mk (_id d) (title d) (category d) (location d) (date d) (organizer d)
     (attendees d) (likes d) (status d) (capacity d) (engagementRate d)
     fb (averageRating d) (totalRatings d) (isPublic d).

Definition set_ratings (avg : Number) (n : Z) (d : t) : t :=
  mk (_id d) (title d) (category d) (location d) (date d) (organizer d)
     (attendees d) (likes d) (status d) (capacity d) (engagementRate d)
     (feedback d) avg n (isPublic d).

Definition set_engagementRate (r : Number) (d : t) : t :=
  mk (_id d) (title d) (category d) (location d) (date d) (organizer d)
     (attendees d) (likes d) (status d) (capacity d) r
     (feedback d) (averageRating d) (totalRatings d) (isPublic d).

Definition set_attendees (a : list ObjectId) (d : t) : t :=
  mk (_id d) (title d) (category d) (location d) (date d) (organizer d)
     a (likes d) (status d) (capacity d) (engagementRate d)
     (feedback d) (averageRating d) (totalRatings d) (isPublic d).

(** [event.maxAttendees]. The schema declares no path of that name (the
    limit it declares is [capacity], line 64) and is strict, so the
    constructor and the update operators drop such a key and a document
    has no such property: the read yields [undefined], here [None]. *)
Definition maxAttendees (this : t) : option Z := None.

Definition categories : list string :=
  ["Community"; "Education"; "Health"; "Environment"; "Arts"; "Sports";
   "Technology"; "Social"; "Fundraiser"; "Workshop"; "Other"].

Definition statuses : list string :=
  ["upcoming"; "ongoing"; "completed"; "cancelled"].

(** The validators of the schema, lines 4-219, on the paths of the
    record. *)
Definition valid (this : t) : bool :=
  required_text (title this)
  && (String.length (title this) <=? 100)%nat
  && enum categories (category this)
  && required_text (location this)
  && required_ref (organizer this)
  && enum statuses (status this)
  && forallb valid_feedback (feedback this)
  && in_range 0 5 (averageRating this).

(** [eventSchema.pre('save', ...)], lines 225-238. *)
Definition pre_save (this : t) : t :=
  let this :=
    if (0 <? Z.of_nat (List.length (feedback this))) then
      let totalRating := reduce_sum fb_rating (feedback this) in
      set_ratings
        (Number_div totalRating
                    (Finite (inject_Z (Z.of_nat (List.length (feedback this))))))
        (Z.of_nat (List.length (feedback this)))
        this
    else this in
  if (0 <? Z.of_nat (List.length (attendees this))) then
    set_engagementRate
      (Number_mul
         (Number_div (Finite (inject_Z (Z.of_nat (List.length (likes this)))))
                     (Finite (inject_Z (Z.of_nat (List.length (attendees this))))))
         (Finite 100))
      this
  else this.

(** [this.save()]: validation of the paths of the document, then the
    pre-save hook. *)
Definition save (this : t) : Exc t :=
  if valid this then Ret (pre_save this) else Throw ValidationError.

(** [addFeedback], lines 241-253. *)
Definition addFeedback (userId : ObjectId) (rating : Number)
           (comment : option string) (this : t) : Exc t :=
  kept <- filterM (other_reviewer userId) (feedback this) ;;
  let this := set_feedback kept this in
  let this := set_feedback
                (feedback this ++ [mkFeedback (Some userId) rating comment])
                this in
  save this.

End Event.

(* ------------------------------------------------------------------ *)
(** ** Users and control-flow helpers of the handlers *)

Module User.

Record t : Type := mk {
  _id : ObjectId;
  name : string;
  role : string                 (* 'user' | 'moderator' | 'admin' *)
}.

(** The [id] virtual: [_id] as a string. *)
Definition id (u : t) : string := _id u.

Section Lookup.
Variable castObjectId : string -> option ObjectId.

(** [User.findById(id)]. *)
Definition findById (id : string) (users : list t) : Exc (option t) :=
  match castObjectId id with
  | None => Throw (CastError "ObjectId")
  | Some oid => Ret (find (fun u => String.eqb (_id u) oid) users)
  end.
End Lookup.

End User.

(** [try { body } catch (error) { handler }]. *)
Definition try_catch {X : Type} (body : Exc X) (handler : Error -> X) : X :=
  match body with
  | Ret x => x
  | Throw e => handler e
  end.

(** [Array.prototype.findIndex]. *)
Fixpoint findIndex_from {A : Type} (f : A -> bool) (l : list A) (i : Z) : Z :=
  match l with
  | [] => -1
  | x :: t => if f x then i else findIndex_from f t (i + 1)
  end.

Definition findIndex {A : Type} (f : A -> bool) (l : list A) : Z :=
  findIndex_from f l 0.

(** [if (error.kind === 'ObjectId') 404 else 500], the catch block of the
    initiative and event handlers that take an id. *)
Definition not_found_or_500 {A : Type} (what : string) (e : Error) : Reply A :=
  match e with
  | CastError kind =>
      if String.eqb kind "ObjectId" then Failed 404 what
      else Failed 500 "Server error"
  | _ => Failed 500 "Server error"
  end.

(* ------------------------------------------------------------------ *)
(** ** routes/events.js (update, delete, attend) *)

Module EventRoutes.
Section Handlers.

Variable castObjectId : string -> option ObjectId.
(** [req.body] of an update and what [{ $set: req.body }] does to a
    document (Mongoose casts the values and drops undeclared keys). *)
Variable Body : Type.
Variable applySet : Body -> Event.t -> Exc Event.t.

Definition Store : Type := list Event.t.

Definition findById (id : string) (events : Store) : Exc (option Event.t) :=
  match castObjectId id with
  | None => Throw (CastError "ObjectId")
  | Some oid => Ret (find (fun d => String.eqb (Event._id d) oid) events)
  end.

(** Writing a saved document back to the collection. *)
Definition persist (doc : Event.t) (events : Store) : Store :=
  map (fun d => if String.eqb (Event._id d) (Event._id doc) then doc else d)
      events.

(** [doc.remove()]. *)
Definition remove (doc : Event.t) (events : Store) : Store :=
  filter (fun d => negb (String.eqb (Event._id d) (Event._id doc))) events.

(** [Event.findByIdAndUpdate(id, { $set: body }, { new: true })]. *)
Definition findByIdAndUpdate (id : string) (body : Body) (events : Store)
  : Exc (option Event.t * Store) :=
  found <- findById id events ;;
  match found with
  | None => Ret (None, events)
  | Some doc =>
      doc' <- applySet body doc ;;
      Ret (Some doc', persist doc' events)
  end.

(** [router.put('/:id', auth, ...)], lines 175-205. *)
Definition put (id : string) (user : User.t) (body : Body) (events : Store)
  : Reply (option Event.t) * Store :=
  try_catch
    (event <- findById id events ;;
     match event with
     | None => Ret (Failed 404 "Event not found", events)
     | Some event =>
         organizer <- toString (Event.organizer event) ;;
         if negb (String.eqb organizer (User.id user))
            && negb (String.eqb (User.role user) "admin")
         then Ret (Failed 401 "Not authorized", events)
         else
           r <- findByIdAndUpdate id body events ;;
           Ret (Json (fst r), snd r)
     end)
    (fun error => (not_found_or_500 "Event not found" error, events)).

(** [router.delete('/:id', auth, ...)], lines 210-233. *)
Definition delete (id : string) (user : User.t) (events : Store)
  : Reply string * Store :=
  try_catch
    (event <- findById id events ;;
     match event with
     | None => Ret (Failed 404 "Event not found", events)
     | Some event =>
         organizer <- toString (Event.organizer event) ;;
         if negb (String.eqb organizer (User.id user))
            && negb (String.eqb (User.role user) "admin")
         then Ret (Failed 401 "Not authorized", events)
         else Ret (Json "Event removed", remove event events)
     end)
    (fun error => (not_found_or_500 "Event not found" error, events)).

(** [req.body] of a create request: the required paths and
    [maxAttendees]; the optional paths the model does not carry are left
    out. *)
Record CreateBody : Type := mkCreateBody {
  c_title : string;
  c_description : string;
  c_date : string;
  c_location : string;
  c_category : string;
  c_maxAttendees : option Z
}.

(** Mongoose's cast of a request string to a Date. *)
Variable castDate : string -> option Date.

Definition required (message : string) (value : string) : list string :=
  if String.eqb value "" then [message] else [].

(** The express-validator chain of lines 82-86. *)
Definition validationResult (b : CreateBody) : list string :=
  (required "Title is required" (c_title b)
   ++ required "Description is required" (c_description b)
   ++ required "Date is required" (c_date b)
   ++ required "Location is required" (c_location b)
   ++ required "Category is required" (c_category b))%list.

Definition categories : list string := Event.categories.

(** [new Event({ ... })], lines 128-147, with the validation its first
    save runs on the paths set here. The constructor applies setters and
    defaults and keeps declared paths only: [maxAttendees] is not one, and
    the value passed for it is dropped. *)
Definition new_Event (newId organizer : ObjectId) (b : CreateBody)
  : Exc Event.t :=
  let title := trim (c_title b) in
  match castDate (c_date b) with
  | None => Throw ValidationError
  | Some date =>
      if negb (String.eqb title "")
         && (String.length title <=? 100)%nat
         && negb (String.eqb (c_description b) "")
         && (String.length (c_description b) <=? 2000)%nat
         && negb (String.eqb (c_location b) "")
         && existsb (String.eqb (c_category b)) categories
      then Ret (Event.mk newId title (c_category b) (c_location b) date
                         (Some organizer) [] [] "upcoming" 0 (Finite 0) []
                         (Finite 0) 0 true)
      else Throw ValidationError
  end.

(** [router.post('/', [auth, validators], ...)], lines 79-170. [newId] is
    the identifier the driver gives the new document. *)
Definition create (newId : ObjectId) (user : User.t) (body : CreateBody)
           (events : Store) : Reply Event.t * Store :=
  let errors := validationResult body in
  if negb (Nat.eqb (List.length errors) 0) then (Invalid errors, events)
  else
    try_catch
      (newEvent <- new_Event newId (User.id user) body ;;
       event <- Event.save newEvent ;;
       let events := (events ++ [event])%list in
       Ret (try_catch
              (let event :=
                 Event.set_attendees (Event.attendees event ++ [User.id user])
                                     event in
               event <- Event.save event ;;
               Ret (Json event, persist event events))
              (fun error => (Failed 500 "Server error", events))))
      (fun error => (Failed 500 "Server error", events)).

(** [event.maxAttendees && event.attendees.length >= event.maxAttendees]:
    [undefined] and [0] are falsy. *)
Definition is_full (event : Event.t) : bool :=
  match Event.maxAttendees event with
  | None => false
  | Some m =>
      negb (m =? 0) && (m <=? Z.of_nat (List.length (Event.attendees event)))
  end.

(** [router.post('/:id/attend', auth, ...)], lines 238-274. *)
Definition attend (id : string) (user : User.t) (events : Store)
  : Reply Event.t * Store :=
  try_catch
    (event <- findById id events ;;
     match event with
     | None => Ret (Failed 404 "Event not found", events)
     | Some event =>
         let attendeeIndex :=
           findIndex (fun attendee => String.eqb attendee (User.id user))
                     (Event.attendees event) in
         if attendeeIndex >? -1
         then Ret (Failed 400 "Already attending this event", events)
         else if is_full event
         then Ret (Failed 400 "Event is full", events)
         else
           let event :=
             Event.set_attendees (Event.attendees event ++ [User.id user])
                                 event in
           event <- Event.save event ;;
           Ret (Json event, persist event events)
     end)
    (fun error => (Failed 500 "Server error", events)).

(** [Array.prototype.splice(index, 1)]: the array without the element at
    [index]. *)
Definition splice1 {A : Type} (index : Z) (l : list A) : list A :=
  (firstn (Z.to_nat index) l ++ skipn (S (Z.to_nat index)) l)%list.

(** [router.get('/:id', ...)], lines 55-74. *)
Definition get_by_id (id : string) (events : Store) : Reply Event.t :=
  try_catch
    (event <- findById id events ;;
     match event with
     | None => Ret (Failed 404 "Event not found")
     | Some event => Ret (Json event)
     end)
    (fun error => not_found_or_500 "Event not found" error).

(** [router.delete('/:id/attend', auth, ...)], lines 279-307. *)
Definition unattend (id : string) (user : User.t) (events : Store)
  : Reply Event.t * Store :=
  try_catch
    (event <- findById id events ;;
     match event with
     | None => Ret (Failed 404 "Event not found", events)
     | Some event =>
         let attendeeIndex :=
           findIndex (fun attendee => String.eqb attendee (User.id user))
                     (Event.attendees event) in
         if attendeeIndex =? -1
         then Ret (Failed 400 "Not attending this event", events)
         else
           let event :=
             Event.set_attendees (splice1 attendeeIndex (Event.attendees event))
                                 event in
           event <- Event.save event ;;
           Ret (Json event, persist event events)
     end)
    (fun error => (Failed 500 "Server error", events)).

End Handlers.
End EventRoutes.

(* ------------------------------------------------------------------ *)
(** ** Listing queries: sort, skip, limit, page arithmetic *)

(** The value of [total / limit] for two counts, of which the handlers
    take [Math.ceil]: the quotient, or what JavaScript gives for a zero
    divisor. The quotient is kept exact: for counts below 2^53 its
    rounding to binary64 has the same ceiling (lemma
    [Math_ceil_quotient]). *)
Definition js_div (a b : Z) : Number :=
  if b =? 0 then
    (if a =? 0 then NaN else if 0 <? a then PosInfinity else NegInfinity)
  else Finite (inject_Z a / inject_Z b)%Q.

Definition Math_ceil (x : Number) : Number :=
  match x with
  | Finite q => Finite (inject_Z (Qceiling q))
  | other => other
  end.

(** [.sort({ key: -1 })]: descending, ties in natural order. *)
Fixpoint insert_desc {A : Type} (key : A -> Z) (x : A) (l : list A) : list A :=
  match l with
  | [] => [x]
  | y :: t => if key y <=? key x then x :: l else y :: insert_desc key x t
  end.

Definition sort_desc {A : Type} (key : A -> Z) (l : list A) : list A :=
  fold_right (insert_desc key) [] l.

(** Running a cursor with [.limit(limit)] and [.skip(skip)]: the store
    skips first, whatever the order of the builder calls; it rejects a
    negative skip, reads limit 0 as no limit and a negative limit as its
    absolute value. *)
Definition exec_cursor {A : Type} (sorted : list A) (limit skip : Z)
  : Exc (list A) :=
  if skip <? 0 then Throw MongoError
  else
    let rest := skipn (Z.to_nat skip) sorted in
    Ret (if limit =? 0 then rest else firstn (Z.to_nat (Z.abs limit)) rest).

(** The JSON of a listing response. *)
Record Page (A : Type) : Type := mkPage {
  items : list A;
  totalPages : Number;
  currentPage : Z;
  total : Z
}.

Arguments mkPage {A} items totalPages currentPage total.
Arguments items {A} p.
Arguments totalPages {A} p.
Arguments currentPage {A} p.
Arguments total {A} p.

(** [const { page = dflt } = req.query]: the default applies when the
    parameter is absent. A supplied parameter is the number its text
    denotes. *)
Definition param_or (dflt : Z) (p : option Z) : Z :=
  match p with
  | Some v => v
  | None => dflt
  end.

(** [if (filter) ...]: an absent or empty parameter adds no condition. *)
Definition when_given (p : option string) (cond : string -> bool) : bool :=
  match p with
  | None => true
  | Some s => if String.eqb s "" then true else cond s
  end.

(* ------------------------------------------------------------------ *)
(** ** routes/initiatives.js (list, update, delete, join) *)

Module InitiativeRoutes.
Section Handlers.

Variable castObjectId : string -> option ObjectId.
Variable Body : Type.
Variable applySet : Body -> Initiative.t -> Exc Initiative.t.
(** [{ $regex: pattern, $options: 'i' }] against a string path: the
    matcher of a pattern the store accepts as a regular expression, none
    for a text it rejects; and [{ $text: { $search } }] against the text
    index of a document. *)
Variable regexMatch : string -> option (string -> bool).
Variable textSearch : string -> Initiative.t -> bool.

Definition Store : Type := list Initiative.t.

Record ListQuery : Type := mkListQuery {
  q_category : option string;
  q_location : option string;
  q_status : option string;
  q_search : option string;
  q_page : option Z;
  q_limit : option Z
}.

(** The condition [query.location] of line 19, as the store compiles it:
    none for an absent or empty parameter, and an error for a pattern the
    store rejects, whatever the collection holds. *)
Definition location_filter (q : ListQuery) : Exc (string -> bool) :=
  match q_location q with
  | None => Ret (fun _ => true)
  | Some l =>
      if String.eqb l "" then Ret (fun _ => true)
      else match regexMatch l with
           | Some matcher => Ret matcher
           | None => Throw MongoError
           end
  end.

(** The filter object built in lines 16-23. *)
Definition matches (q : ListQuery) (byLocation : string -> bool)
           (d : Initiative.t) : bool :=
  Initiative.isPublic d
  && when_given (q_category q) (fun c => String.eqb (Initiative.category d) c)
  && byLocation (Initiative.location d)
  && when_given (q_status q) (fun s => String.eqb (Initiative.status d) s)
  && when_given (q_search q) (fun s => textSearch s d).

(** [Initiative.find(query).sort({ createdAt: -1 })] before skip and limit. *)
Definition matching (q : ListQuery) (byLocation : string -> bool)
           (initiatives : Store) : list Initiative.t :=
  sort_desc Initiative.createdAt (filter (matches q byLocation) initiatives).

(** [router.get('/', ...)], lines 12-45. *)
Definition get_all (q : ListQuery) (initiatives : Store)
  : Reply (Page Initiative.t) :=
  let page := param_or 1 (q_page q) in
  let limit := param_or 10 (q_limit q) in
  try_catch
    (byLocation <- location_filter q ;;
     found <- exec_cursor (matching q byLocation initiatives)
                          (limit * 1) ((page - 1) * limit) ;;
     let total :=
       Z.of_nat (List.length (filter (matches q byLocation) initiatives)) in
     Ret (Json (mkPage found (Math_ceil (js_div total limit)) page total)))
    (fun error => Failed 500 "Server error").

Definition findById (id : string) (initiatives : Store)
  : Exc (option Initiative.t) :=
  match castObjectId id with
  | None => Throw (CastError "ObjectId")
  | Some oid =>
      Ret (find (fun d => String.eqb (Initiative._id d) oid) initiatives)
  end.

Definition persist (doc : Initiative.t) (initiatives : Store) : Store :=
  map (fun d =>
         if String.eqb (Initiative._id d) (Initiative._id doc) then doc else d)
      initiatives.

Definition remove (doc : Initiative.t) (initiatives : Store) : Store :=
  filter (fun d => negb (String.eqb (Initiative._id d) (Initiative._id doc)))
         initiatives.

Definition findByIdAndUpdate (id : string) (body : Body) (initiatives : Store)
  : Exc (option Initiative.t * Store) :=
  found <- findById id initiatives ;;
  match found with
  | None => Ret (None, initiatives)
  | Some doc =>
      doc' <- applySet body doc ;;
      Ret (Some doc', persist doc' initiatives)
  end.

(** [router.put('/:id', auth, ...)], lines 144-173. *)
Definition put (id : string) (user : User.t) (body : Body)
           (initiatives : Store) : Reply (option Initiative.t) * Store :=
  try_catch
    (initiative <- findById id initiatives ;;
     match initiative with
     | None => Ret (Failed 404 "Initiative not found", initiatives)
     | Some initiative =>
         creator <- toString (Initiative.creator initiative) ;;
         if negb (String.eqb creator (User.id user))
            && negb (String.eqb (User.role user) "admin")
         then Ret (Failed 401 "Not authorized", initiatives)
         else
           r <- findByIdAndUpdate id body initiatives ;;
           Ret (Json (fst r), snd r)
     end)
    (fun error => (not_found_or_500 "Initiative not found" error, initiatives)).

(** [router.delete('/:id', auth, ...)], lines 178-201. *)
Definition delete (id : string) (user : User.t) (initiatives : Store)
  : Reply string * Store :=
  try_catch
    (initiative <- findById id initiatives ;;
     match initiative with
     | None => Ret (Failed 404 "Initiative not found", initiatives)
     | Some initiative =>
         creator <- toString (Initiative.creator initiative) ;;
         if negb (String.eqb creator (User.id user))
            && negb (String.eqb (User.role user) "admin")
         then Ret (Failed 401 "Not authorized", initiatives)
         else Ret (Json "Initiative removed", remove initiative initiatives)
     end)
    (fun error => (not_found_or_500 "Initiative not found" error, initiatives)).

(** [member.user] for an element [member] of [initiative.members]. The
    schema (lines 29-32) makes every element an ObjectId, and an ObjectId
    has no property [user]: the read yields [undefined]. *)
Definition member_user (member : ObjectId) : option ObjectId := None.

(** The value [{ user, role }] pushed onto [members] is cast to the
    element type of the array. It is a plain object without [_id], not an
    ObjectId and not the text of one: the cast throws. *)
Definition cast_member (user : ObjectId) (role : string) : Exc ObjectId :=
  Throw (CastError "ObjectId").

(** [router.post('/:id/join', auth, ...)], lines 206-243; [role] is
    [req.body.role]. The update of the user's [joinedInitiatives] that
    follows the save is not part of the model. *)
Definition join (id : string) (user : User.t) (role : option string)
           (initiatives : Store) : Reply Initiative.t * Store :=
  try_catch
    (initiative <- findById id initiatives ;;
     match initiative with
     | None => Ret (Failed 404 "Initiative not found", initiatives)
     | Some initiative =>
         isMember <- findM (fun member =>
                              s <- toString (member_user member) ;;
                              Ret (String.eqb s (User.id user)))
                           (Initiative.members initiative) ;;
         match isMember with
         | Some _ =>
             Ret (Failed 400 "Already a member of this initiative", initiatives)
         | None =>
             entry <- cast_member (User.id user)
                        (match role with
                         | Some r => if String.eqb r "" then "member" else r
                         | None => "member"
                         end) ;;
             let initiative :=
               Initiative.set_members
                 (Initiative.members initiative ++ [entry]) initiative in
             initiative <- Initiative.save initiative ;;
             Ret (Json initiative, persist initiative initiatives)
         end
     end)
    (fun error => (Failed 500 "Server error", initiatives)).

(** [router.get('/:id', ...)], lines 50-70. *)
Definition get_by_id (id : string) (initiatives : Store)
  : Reply Initiative.t :=
  try_catch
    (initiative <- findById id initiatives ;;
     match initiative with
     | None => Ret (Failed 404 "Initiative not found")
     | Some initiative => Ret (Json initiative)
     end)
    (fun error => not_found_or_500 "Initiative not found" error).

Definition set_likes (likes : list ObjectId) (d : Initiative.t)
  : Initiative.t :=
  Initiative.mk (Initiative._id d) (Initiative.title d) (Initiative.category d)
                (Initiative.location d) (Initiative.creator d)
                (Initiative.members d) likes (Initiative.status d)
                (Initiative.impactScore d) (Initiative.impactMetrics d)
                (Initiative.feedback d) (Initiative.averageRating d)
                (Initiative.totalRatings d) (Initiative.isPublic d)
                (Initiative.createdAt d).

(** [router.post('/:id/like', auth, ...)], lines 248-272. *)
Definition like (id : string) (user : User.t) (initiatives : Store)
  : Reply Initiative.t * Store :=
  try_catch
    (initiative <- findById id initiatives ;;
     match initiative with
     | None => Ret (Failed 404 "Initiative not found", initiatives)
     | Some initiative =>
         let likeIndex :=
           findIndex (fun like => String.eqb like (User.id user))
                     (Initiative.likes initiative) in
         let initiative :=
           if likeIndex >? -1
           then set_likes (EventRoutes.splice1 likeIndex
                             (Initiative.likes initiative)) initiative
           else set_likes (Initiative.likes initiative ++ [User.id user])
                          initiative in
         initiative <- Initiative.save initiative ;;
         Ret (Json initiative, persist initiative initiatives)
     end)
    (fun error => (Failed 500 "Server error", initiatives)).

(** [req.body] of a create request: the paths the schema declares and the
    model carries or validates. The keys [goals], [budget], [contactInfo]
    and [socialMedia], which the handler also passes on, name no path of
    the schema and are dropped by the constructor. *)
Record CreateBody : Type := mkCreateBody {
  c_title : string;
  c_description : string;
  c_category : string;
  c_location : string;
  c_startDate : option string;
  c_endDate : option string
}.

Variable castDate : string -> option Date.

(** The express-validator chain of lines 78-81. *)
Definition validationResult (b : CreateBody) : list string :=
  (EventRoutes.required "Title is required" (c_title b)
   ++ EventRoutes.required "Description is required" (c_description b)
   ++ EventRoutes.required "Category is required" (c_category b)
   ++ EventRoutes.required "Location is required" (c_location b))%list.

Definition categories : list string := Initiative.categories.

(** An optional date path: absent, or a text the cast accepts. *)
Definition optional_date_ok (d : option string) : bool :=
  match d with
  | None => true
  | Some text => match castDate text with Some _ => true | None => false end
  end.

(** [new Initiative({ ... })], lines 104-117, with the validation its
    first save runs on the paths set here; [now] is the time of that
    save, which the [timestamps] option records as [createdAt]. *)
Definition new_Initiative (newId creator : ObjectId) (now : Date)
           (b : CreateBody) : Exc Initiative.t :=
  let title := trim (c_title b) in
  match c_startDate b with
  | None => Throw ValidationError
  | Some start =>
      match castDate start with
      | None => Throw ValidationError
      | Some _ =>
          if negb (String.eqb title "")
             && (String.length title <=? 100)%nat
             && negb (String.eqb (c_description b) "")
             && (String.length (c_description b) <=? 2000)%nat
             && negb (String.eqb (c_location b) "")
             && existsb (String.eqb (c_category b)) categories
             && optional_date_ok (c_endDate b)
          then Ret (Initiative.mk newId title (c_category b) (c_location b)
                      (Some creator) [] [] "planning" (Finite 0)
                      (Initiative.mkMetrics (Finite 0) (Finite 0) (Finite 0)
                                            (Finite 0) (Finite 0))
                      [] (Finite 0) 0 true now)
          else Throw ValidationError
      end
  end.

(** [router.post('/', [auth, validators], ...)], lines 75-139. The update
    of the user's [createdInitiatives] that follows the second save is not
    part of the model. *)
Definition create (newId : ObjectId) (now : Date) (user : User.t)
           (body : CreateBody) (initiatives : Store)
  : Reply Initiative.t * Store :=
  let errors := validationResult body in
  if negb (Nat.eqb (List.length errors) 0) then (Invalid errors, initiatives)
  else
    try_catch
      (newInitiative <- new_Initiative newId (User.id user) now body ;;
       initiative <- Initiative.save newInitiative ;;
       let initiatives := (initiatives ++ [initiative])%list in
       Ret (try_catch
              (let initiative :=
                 Initiative.set_members
                   (Initiative.members initiative ++ [User.id user])
                   initiative in
               initiative <- Initiative.save initiative ;;
               Ret (Json initiative, persist initiative initiatives))
              (fun error => (Failed 500 "Server error", initiatives))))
      (fun error => (Failed 500 "Server error", initiatives)).

End Handlers.
End InitiativeRoutes.

(* ------------------------------------------------------------------ *)
(** ** models/Message.js *)

Module Message.

Record t : Type := mk {
  _id : ObjectId;
  sender : ObjectId;
  recipient : ObjectId;
  initiative : option ObjectId;
  event : option ObjectId;
  subject : string;               (* required, trim *)
  content : string;               (* required *)
  isRead : bool;                  (* default false *)
  readAt : option Date;
  messageType : string;
  priority : string;
  createdAt : Date
}.

Definition set_isRead (b : bool) (m : t) : t :=
  mk (_id m) (sender m) (recipient m) (initiative m) (event m) (subject m)
     (content m) b (readAt m) (messageType m) (priority m) (createdAt m).

Definition set_readAt (d : Date) (m : t) : t :=
  mk (_id m) (sender m) (recipient m) (initiative m) (event m) (subject m)
     (content m) (isRead m) (Some d) (messageType m) (priority m) (createdAt m).

Definition one_of (allowed : list string) (s : string) : bool :=
  existsb (String.eqb s) allowed.

(** The schema validators: required strings and enumerations. *)
Definition valid (m : t) : bool :=
  negb (String.eqb (subject m) "")
  && negb (String.eqb (content m) "")
  && one_of ["personal"; "initiative"; "event"; "system"] (messageType m)
  && one_of ["low"; "normal"; "high"; "urgent"] (priority m).

(** [message.save()]; the schema has no hook of its own. *)
Definition save (m : t) : Exc t :=
  if valid m then Ret m else Throw ValidationError.

End Message.

(* ------------------------------------------------------------------ *)
(** ** routes/messages.js (inbox, get by id, send, mark read) *)

Module MessageRoutes.
Section Handlers.

Variable castObjectId : string -> option ObjectId.

Definition Store : Type := list Message.t.

Definition findById (id : string) (messages : Store) : Exc (option Message.t) :=
  match castObjectId id with
  | None => Throw (CastError "ObjectId")
  | Some oid => Ret (find (fun m => String.eqb (Message._id m) oid) messages)
  end.

Definition persist (doc : Message.t) (messages : Store) : Store :=
  map (fun m => if String.eqb (Message._id m) (Message._id doc) then doc else m)
      messages.

(** The filter of the inbox, lines 15-18. *)
Definition in_inbox (user : User.t) (unreadOnly : option string)
           (m : Message.t) : bool :=
  String.eqb (Message.recipient m) (User.id user)
  && match unreadOnly with
     | Some flag =>
         if String.eqb flag "true" then negb (Message.isRead m) else true
     | None => true
     end.

(** [router.get('/', auth, ...)], lines 11-41. *)
Definition inbox (user : User.t) (page limit : option Z)
           (unreadOnly : option string) (messages : Store)
  : Reply (Page Message.t) :=
  let page := param_or 1 page in
  let limit := param_or 20 limit in
  try_catch
    (found <- exec_cursor
                (sort_desc Message.createdAt
                           (filter (in_inbox user unreadOnly) messages))
                (limit * 1) ((page - 1) * limit) ;;
     let total :=
       Z.of_nat (List.length (filter (in_inbox user unreadOnly) messages)) in
     Ret (Json (mkPage found (Math_ceil (js_div total limit)) page total)))
    (fun error => Failed 500 "Server error").

(** [.populate(path, ...)] of a user reference: the user document, or
    [null] when the reference dangles. *)
Definition populate (users : list User.t) (ref : ObjectId) : option User.t :=
  find (fun u => String.eqb (User._id u) ref) users.

(** [message.sender._id.toString()] on a populated reference. *)
Definition populated_id (users : list User.t) (ref : ObjectId) : Exc string :=
  toString (option_map User._id (populate users ref)).

(** [router.get('/:id', auth, ...)], lines 76-106. *)
Definition get_by_id (now : Date) (id : string) (user : User.t)
           (users : list User.t) (messages : Store)
  : Reply Message.t * Store :=
  try_catch
    (message <- findById id messages ;;
     match message with
     | None => Ret (Failed 404 "Message not found", messages)
     | Some message =>
         senderId <- populated_id users (Message.sender message) ;;
         denied <-
           (if negb (String.eqb senderId (User.id user))
            then recipientId <- populated_id users (Message.recipient message) ;;
                 Ret (negb (String.eqb recipientId (User.id user)))
            else Ret false) ;;
         if (denied : bool) then Ret (Failed 403 "Access denied", messages)
         else
           recipientId <- populated_id users (Message.recipient message) ;;
           if String.eqb recipientId (User.id user)
              && negb (Message.isRead message)
           then
             let message := Message.set_isRead true message in
             let message := Message.set_readAt now message in
             message <- Message.save message ;;
             Ret (Json message, persist message messages)
           else Ret (Json message, messages)
     end)
    (fun error => (Failed 500 "Server error", messages)).

(** [router.put('/:id/read', auth, ...)], lines 170-192. *)
Definition mark_read (now : Date) (id : string) (user : User.t)
           (messages : Store) : Reply Message.t * Store :=
  try_catch
    (message <- findById id messages ;;
     match message with
     | None => Ret (Failed 404 "Message not found", messages)
     | Some message =>
         if negb (String.eqb (Message.recipient message) (User.id user))
         then Ret (Failed 403 "Access denied", messages)
         else
           let message := Message.set_isRead true message in
           let message := Message.set_readAt now message in
           message <- Message.save message ;;
           Ret (Json message, persist message messages)
     end)
    (fun error => (Failed 500 "Server error", messages)).

(** [req.body] of a send request. *)
Record SendBody : Type := mkSendBody {
  b_recipient : string;
  b_subject : string;
  b_content : string;
  b_messageType : option string;
  b_priority : option string;
  b_initiative : option string;
  b_event : option string
}.

Definition length_between (lo hi : nat) (s : string) : bool :=
  ((lo <=? String.length s) && (String.length s <=? hi))%nat.

Definition optional_one_of (allowed : list string) (v : option string) : bool :=
  match v with
  | None => true
  | Some s => Message.one_of allowed s
  end.

(** The express-validator chain of lines 113-121: the messages of the
    checks that fail. *)
Definition validationResult (b : SendBody) : list string :=
  (if isMongoId (b_recipient b) then []
   else ["Valid recipient ID is required"])
  ++ (if length_between 1 100 (b_subject b) then []
      else ["Subject is required (max 100 chars)"])
  ++ (if length_between 1 2000 (b_content b) then []
      else ["Content is required (max 2000 chars)"])
  ++ (if optional_one_of ["personal"; "initiative"; "event"; "system"]
                         (b_messageType b)
      then [] else ["Valid message type is required"])
  ++ (if optional_one_of ["low"; "normal"; "high"; "urgent"] (b_priority b)
      then [] else ["Valid priority is required"]).

(** [value || dflt] for an optional string. *)
Definition or_default (v : option string) (dflt : string) : string :=
  match v with
  | Some s => if String.eqb s "" then dflt else s
  | None => dflt
  end.

(** Casting a required reference; a failed cast is reported when the
    document is validated on save. *)
Definition cast_ref (s : string) : Exc ObjectId :=
  match castObjectId s with
  | Some oid => Ret oid
  | None => Throw ValidationError
  end.

Definition cast_optional_ref (s : option string) : Exc (option ObjectId) :=
  match s with
  | None => Ret None
  | Some s => oid <- cast_ref s ;; Ret (Some oid)
  end.

(** [router.post('/', [auth, validators], ...)], lines 111-165. [newId] is
    the identifier the driver gives the new document. *)
Definition send (newId : ObjectId) (now : Date) (user : User.t)
           (body : SendBody) (users : list User.t) (messages : Store)
  : Reply Message.t * Store :=
  let errors := validationResult body in
  if negb (Nat.eqb (List.length errors) 0) then (Invalid errors, messages)
  else
    try_catch
      (recipientExists <- User.findById castObjectId (b_recipient body) users ;;
       match recipientExists with
       | None => Ret (Failed 404 "Recipient not found", messages)
       | Some _ =>
           if String.eqb (b_recipient body) (User.id user)
           then Ret (Failed 400 "Cannot send message to yourself", messages)
           else
             sender <- cast_ref (User.id user) ;;
             recipient <- cast_ref (b_recipient body) ;;
             initiative <- cast_optional_ref (b_initiative body) ;;
             event <- cast_optional_ref (b_event body) ;;
             let message :=
               Message.mk newId sender recipient initiative event
                          (trim (b_subject body)) (b_content body)
                          false None
                          (or_default (b_messageType body) "personal")
                          (or_default (b_priority body) "normal")
                          now in
             message <- Message.save message ;;
             Ret (Json message, (messages ++ [message])%list)
       end)
      (fun error => (Failed 500 "Server error", messages)).

(** [router.get('/sent', auth, ...)], lines 46-71. *)
Definition sent (user : User.t) (page limit : option Z) (messages : Store)
  : Reply (Page Message.t) :=
  let page := param_or 1 page in
  let limit := param_or 20 limit in
  try_catch
    (found <- exec_cursor
                (sort_desc Message.createdAt
                   (filter (fun m => String.eqb (Message.sender m)
                                                (User.id user))
                           messages))
                (limit * 1) ((page - 1) * limit) ;;
     let total :=
       Z.of_nat (List.length
                   (filter (fun m => String.eqb (Message.sender m)
                                                (User.id user))
                           messages)) in
     Ret (Json (mkPage found (Math_ceil (js_div total limit)) page total)))
    (fun error => Failed 500 "Server error").

(** [message.remove()]. *)
Definition remove (doc : Message.t) (messages : Store) : Store :=
  filter (fun m => negb (String.eqb (Message._id m) (Message._id doc)))
         messages.

(** [router.delete('/:id', auth, ...)], lines 197-217. *)
Definition delete (id : string) (user : User.t) (messages : Store)
  : Reply string * Store :=
  try_catch
    (message <- findById id messages ;;
     match message with
     | None => Ret (Failed 404 "Message not found", messages)
     | Some message =>
         if negb (String.eqb (Message.sender message) (User.id user))
            && negb (String.eqb (Message.recipient message) (User.id user))
         then Ret (Failed 403 "Access denied", messages)
         else Ret (Json "Message deleted", remove message messages)
     end)
    (fun error => (Failed 500 "Server error", messages)).

(** The filter [{ recipient: req.user.id, isRead: false }]. *)
Definition unread_by (user : User.t) (m : Message.t) : bool :=
  String.eqb (Message.recipient m) (User.id user)
  && negb (Message.isRead m).

(** [router.get('/unread/count', auth, ...)], lines 222-234. *)
Definition unread_count (user : User.t) (messages : Store) : Reply Z :=
  Json (Z.of_nat (List.length (filter (unread_by user) messages))).

End Handlers.
End MessageRoutes.

(* ------------------------------------------------------------------ *)
(** ** models/Notification.js *)

Module Notification.

Record t : Type := mk {
  _id : ObjectId;
  recipient : ObjectId;           (* required *)
  sender : option ObjectId;
  type : string;                  (* required, enumeration *)
  title : string;                 (* required *)
  message : string;               (* required *)
  isRead : bool;                  (* default false *)
  readAt : option Date;
  createdAt : Date
}.

Definition set_isRead (b : bool) (n : t) : t :=
  mk (_id n) (recipient n) (sender n) (type n) (title n) (message n) b
     (readAt n) (createdAt n).

(** [notification.user]. The schema declares [recipient] and [sender]
    and no path [user], and it is strict: a document has no such
    property and the read yields [undefined]. *)
Definition user (this : t) : option ObjectId := None.

Definition types : list string :=
  ["initiative_created"; "initiative_updated"; "initiative_joined";
   "event_created"; "event_updated"; "event_reminder"; "event_attending";
   "donation_received"; "message_received"; "comment_added";
   "like_received"; "system_announcement"].

Definition valid (n : t) : bool :=
  existsb (String.eqb (type n)) types
  && negb (String.eqb (title n) "")
  && negb (String.eqb (message n) "").

Definition save (n : t) : Exc t :=
  if valid n then Ret n else Throw ValidationError.

End Notification.

(* ------------------------------------------------------------------ *)
(** ** routes/notifications.js *)

Module NotificationRoutes.
Section Handlers.

Variable castObjectId : string -> option ObjectId.
(** Mongoose's [strictQuery] setting, whose default differs between
    major versions. *)
Variable strictQuery : bool.

Definition Store : Type := list Notification.t.

Definition findById (id : string) (notifications : Store)
  : Exc (option Notification.t) :=
  match castObjectId id with
  | None => Throw (CastError "ObjectId")
  | Some oid =>
      Ret (find (fun n => String.eqb (Notification._id n) oid) notifications)
  end.

Definition persist (doc : Notification.t) (notifications : Store) : Store :=
  map (fun n =>
         if String.eqb (Notification._id n) (Notification._id doc)
         then doc else n)
      notifications.

Definition remove (doc : Notification.t) (notifications : Store) : Store :=
  filter (fun n => negb (String.eqb (Notification._id n) (Notification._id doc)))
         notifications.

(** The filter condition [{ user: req.user.id }]. The key names no path
    of the schema. Under [strictQuery] Mongoose drops it, and the
    condition holds of every document; otherwise it reaches the store,
    where no notification has a field [user], and holds of none. *)
Definition user_is (id : string) (n : Notification.t) : bool := strictQuery.

(** [router.get('/', auth, ...)], lines 11-20. *)
Definition get_all (user : User.t) (notifications : Store)
  : Reply (list Notification.t) :=
  Json (sort_desc Notification.createdAt
                  (filter (user_is (User.id user)) notifications)).

(** The guard [!notification || notification.user.toString() !== req.user.id]. *)
Definition not_mine (user : User.t) (notification : option Notification.t)
  : Exc bool :=
  match notification with
  | None => Ret true
  | Some n =>
      s <- toString (Notification.user n) ;;
      Ret (negb (String.eqb s (User.id user)))
  end.

(** [router.get('/:id', auth, ...)], lines 25-36. *)
Definition get_by_id (id : string) (user : User.t) (notifications : Store)
  : Reply (option Notification.t) :=
  try_catch
    (notification <- findById id notifications ;;
     hidden <- not_mine user notification ;;
     if (hidden : bool) then Ret (Failed 404 "Notification not found")
     else Ret (Json notification))
    (fun error => Failed 500 "Server error").

(** [router.put('/:id/read', auth, ...)], lines 41-54. *)
Definition mark_read (id : string) (user : User.t) (notifications : Store)
  : Reply Notification.t * Store :=
  try_catch
    (notification <- findById id notifications ;;
     hidden <- not_mine user notification ;;
     match (hidden : bool), notification with
     | false, Some notification =>
         let notification := Notification.set_isRead true notification in
         notification <- Notification.save notification ;;
         Ret (Json notification, persist notification notifications)
     | _, _ => Ret (Failed 404 "Notification not found", notifications)
     end)
    (fun error => (Failed 500 "Server error", notifications)).

(** [router.put('/read-all', auth, ...)], lines 59-67. *)
Definition read_all (user : User.t) (notifications : Store)
  : Reply string * Store :=
  (Json "All notifications marked as read",
   map (fun n =>
          if user_is (User.id user) n && negb (Notification.isRead n)
          then Notification.set_isRead true n else n)
       notifications).

(** [router.delete('/:id', auth, ...)], lines 72-84. *)
Definition delete (id : string) (user : User.t) (notifications : Store)
  : Reply string * Store :=
  try_catch
    (notification <- findById id notifications ;;
     hidden <- not_mine user notification ;;
     match (hidden : bool), notification with
     | false, Some notification =>
         Ret (Json "Notification deleted", remove notification notifications)
     | _, _ => Ret (Failed 404 "Notification not found", notifications)
     end)
    (fun error => (Failed 500 "Server error", notifications)).

(** [router.get('/unread/count', auth, ...)], lines 89-97. *)
Definition unread_count (user : User.t) (notifications : Store) : Reply Z :=
  Json (Z.of_nat
          (List.length
             (filter (fun n => user_is (User.id user) n
                               && negb (Notification.isRead n))
                     notifications))).

End Handlers.
End NotificationRoutes.

(* ------------------------------------------------------------------ *)
(** ** middleware/auth.js *)

Module Auth.
Section Middleware.

Variable castObjectId : string -> option ObjectId.
(** [jwt.verify(token, process.env.JWT_SECRET)]: the [userId] of the
    decoded payload, or the exception of a malformed, forged or expired
    token. *)
Variable jwt_verify : string -> Exc string.

(** The response type of the protected handler. *)
Variable A : Type.

(** [req.header('Authorization')?.replace('Bearer ', '')]. *)
Definition token_of (authorization : option string) : option string :=
  option_map (replace_first "Bearer " "") authorization.

(** [!token]: [undefined] and the empty string are falsy. *)
Definition no_token (token : option string) : bool :=
  match token with
  | None => true
  | Some s => String.eqb s ""
  end.

(** [auth], lines 4-33. [next] receives the user attached to the
    request. *)
Definition auth (users : list User.t) (authorization : option string)
           (next : User.t -> Reply A) : Reply A :=
  try_catch
    (let token := token_of authorization in
     if no_token token
     then Ret (Failed 401 "No token, authorization denied")
     else
       decoded <- jwt_verify (match token with Some s => s | None => "" end) ;;
       user <- User.findById castObjectId decoded users ;;
       match user with
       | None => Ret (Failed 401 "Token is not valid")
       | Some user => Ret (next user)
       end)
    (fun error => Failed 401 "Token is not valid").

(** [adminAuth], lines 35-46. *)
Definition adminAuth (users : list User.t) (authorization : option string)
           (next : User.t -> Reply A) : Reply A :=
  try_catch
    (Ret (auth users authorization
               (fun user =>
                  if negb (String.eqb (User.role user) "admin")
                  then Failed 403 "Access denied. Admin only."
                  else next user)))
    (fun error => Failed 500 "Server error").

(** [moderatorAuth], lines 48-59. *)
Definition moderatorAuth (users : list User.t) (authorization : option string)
           (next : User.t -> Reply A) : Reply A :=
  try_catch
    (Ret (auth users authorization
               (fun user =>
                  if negb (String.eqb (User.role user) "admin")
                     && negb (String.eqb (User.role user) "moderator")
                  then Failed 403 "Access denied. Moderator or admin only."
                  else next user)))
    (fun error => Failed 500 "Server error").

End Middleware.
End Auth.

(* ------------------------------------------------------------------ *)
(** ** Comments of an initiative (Initiative.js 115-133, 222-229;
       routes/initiatives.js 277-307) *)

Module InitiativeComments.

(** A comment sub-document; [createdAt] is not read by the code. *)
Record Comment : Type := mkComment {
  user : option ObjectId;
  content : option string;        (* required, maxlength 1000 *)
  likes : list ObjectId
}.

(** The value of a key of an object literal. *)
Fixpoint key (k : string) (fields : list (string * string)) : option string :=
  match fields with
  | [] => None
  | (k', v) :: rest => if String.eqb k' k then Some v else key k rest
  end.

(** Mongoose casts an object put into [comments] to the sub-document
    schema: the declared keys are kept, any other key is dropped. *)
Definition cast_comment (fields : list (string * string)) : Comment :=
  mkComment (key "user" fields) (key "content" fields) [].

Definition valid_comment (c : Comment) : bool :=
  match content c with
  | Some text =>
      negb (String.eqb text "") && (String.length text <=? 1000)%nat
  | None => false
  end.

(** An initiative document with its [comments] path. *)
Record Doc : Type := mkDoc {
  base : Initiative.t;
  comments : list Comment
}.

(** [this.save()]: validation of the comments and of the other paths,
    then the pre-save hook. *)
Definition save (this : Doc) : Exc Doc :=
  if forallb valid_comment (comments this)
  then base' <- Initiative.save (base this) ;;
       Ret (mkDoc base' (comments this))
  else Throw ValidationError.

(** [addComment], Initiative.js lines 222-229. *)
Definition addComment (userId : ObjectId) (text : string) (this : Doc)
  : Exc Doc :=
  save (mkDoc (base this)
              (comments this
               ++ [cast_comment [("user", userId); ("content", text)]])).

Section Route.

Variable castObjectId : string -> option ObjectId.

Definition Store : Type := list Doc.

Definition findById (id : string) (initiatives : Store) : Exc (option Doc) :=
  match castObjectId id with
  | None => Throw (CastError "ObjectId")
  | Some oid =>
      Ret (find (fun d => String.eqb (Initiative._id (base d)) oid)
                initiatives)
  end.

Definition persist (doc : Doc) (initiatives : Store) : Store :=
  map (fun d =>
         if String.eqb (Initiative._id (base d)) (Initiative._id (base doc))
         then doc else d)
      initiatives.

(** [router.post('/:id/comment', [auth, validators], ...)], lines 277-307;
    [text] is [req.body.text]. *)
Definition comment (id : string) (commenter : User.t) (text : string)
           (initiatives : Store) : Reply (list Comment) * Store :=
  let errors := EventRoutes.required "Text is required" text in
  if negb (Nat.eqb (List.length errors) 0) then (Invalid errors, initiatives)
  else
    try_catch
      (initiative <- findById id initiatives ;;
       match initiative with
       | None => Ret (Failed 404 "Initiative not found", initiatives)
       | Some initiative =>
           let newComment := [("user", User.id commenter); ("text", text)] in
           let initiative :=
             mkDoc (base initiative)
                   (cast_comment newComment :: comments initiative) in
           initiative <- save initiative ;;
           Ret (Json (comments initiative), persist initiative initiatives)
       end)
      (fun error => (Failed 500 "Server error", initiatives)).

End Route.
End InitiativeComments.

(* ------------------------------------------------------------------ *)
(** ** The social impact score of an event (Event.js 186-191, 282-299) *)

Module EventImpact.

Record SocialImpact : Type := mkSocialImpact {
  peopleConnected : Number;
  knowledgeShared : Number;
  communityBuilding : Number;
  environmentalImpact : Number
}.

(** [calculateSocialImpact], as a function of [this.socialImpact], the one
    path it reads. *)
Definition calculateSocialImpact (impact : SocialImpact) : Number :=
  let score := Finite 0 in
  let score :=
    Number_add score
      (Math_min (Number_div (peopleConnected impact) (Finite 10)) (Finite 30)) in
  let score :=
    Number_add score
      (Math_min (Number_div (knowledgeShared impact) (Finite 5)) (Finite 25)) in
  let score :=
    Number_add score
      (Math_min (Number_div (communityBuilding impact) (Finite 5))
                (Finite 25)) in
  let score :=
    Number_add score (Math_min (environmentalImpact impact) (Finite 20)) in
  Math_round score.

End EventImpact.

(* ------------------------------------------------------------------ *)
(** ** models/Donation.js *)

Module Donation.

Record t : Type := mk {
  _id : ObjectId;
  initiative : ObjectId;          (* required *)
  donor : ObjectId;               (* required *)
  amount : Q;                     (* required, min 0.01; a finite Number,
                                     given by the rational it denotes *)
  currency : string;              (* default 'USD' *)
  paymentMethod : string;         (* required, enumeration *)
  status : string;                (* enumeration, default 'pending' *)
  transactionId : option string;
  message : option string;        (* maxlength 500 *)
  isAnonymous : bool;             (* default false *)
  createdAt : Date
}.

Definition set_status (s : string) (d : t) : t :=
  mk (_id d) (initiative d) (donor d) (amount d) (currency d)
     (paymentMethod d) s (transactionId d) (message d) (isAnonymous d)
     (createdAt d).

Definition set_transactionId (tx : string) (d : t) : t :=
  mk (_id d) (initiative d) (donor d) (amount d) (currency d)
     (paymentMethod d) (status d) (Some tx) (message d) (isAnonymous d)
     (createdAt d).

Definition paymentMethods : list string :=
  ["credit_card"; "paypal"; "bank_transfer"; "cash"; "other"].

Definition statuses : list string :=
  ["pending"; "completed"; "failed"; "refunded"].

Definition valid (d : t) : bool :=
  Qle_bool (1 # 100) (amount d)
  && existsb (String.eqb (paymentMethod d)) paymentMethods
  && existsb (String.eqb (status d)) statuses
  && match message d with
     | Some text => (String.length text <=? 500)%nat
     | None => true
     end.

(** [donation.save()]; the schema has no hook of its own. *)
Definition save (d : t) : Exc t :=
  if valid d then Ret d else Throw ValidationError.

End Donation.

(* ------------------------------------------------------------------ *)
(** ** routes/donations.js *)

Module DonationRoutes.
Section Handlers.

Variable castObjectId : string -> option ObjectId.
(** [new Date(new Date().getFullYear(), 0, 1)] as a function of the
    current time. *)
Variable startOfYear : Date -> Date.

Definition Store : Type := list Donation.t.

Definition findById (id : string) (donations : Store)
  : Exc (option Donation.t) :=
  match castObjectId id with
  | None => Throw (CastError "ObjectId")
  | Some oid => Ret (find (fun d => String.eqb (Donation._id d) oid) donations)
  end.

Definition persist (doc : Donation.t) (donations : Store) : Store :=
  map (fun d =>
         if String.eqb (Donation._id d) (Donation._id doc) then doc else d)
      donations.

(** [router.get('/', auth, ...)], lines 11-27. *)
Definition get_all (user : User.t) (donations : Store)
  : Reply (list Donation.t) :=
  if negb (String.eqb (User.role user) "admin")
  then Failed 403 "Access denied"
  else Json (sort_desc Donation.createdAt donations).

(** The JSON of the donations of an initiative. *)
Record Raised : Type := mkRaised {
  donations_of : list Donation.t;
  totalAmount : Number;
  totalDonations : Z
}.

(** [router.get('/initiative/:id', ...)], lines 32-53. The filter value is
    cast to the type of the [initiative] path. *)
Definition for_initiative (id : string) (donations : Store) : Reply Raised :=
  match castObjectId id with
  | None => Failed 500 "Server error"
  | Some oid =>
      let found :=
        sort_desc Donation.createdAt
          (filter (fun d => String.eqb (Donation.initiative d) oid
                            && String.eqb (Donation.status d) "completed")
                  donations) in
      let totalAmount :=
        reduce_sum (fun donation => Finite (Donation.amount donation)) found in
      Json (mkRaised found totalAmount (Z.of_nat (List.length found)))
  end.

(** [router.get('/my-donations', auth, ...)], lines 58-69. *)
Definition my_donations (user : User.t) (donations : Store)
  : Reply (list Donation.t) :=
  Json (sort_desc Donation.createdAt
          (filter (fun d => String.eqb (Donation.donor d) (User.id user))
                  donations)).

(** [req.body] of a create request; [amount] is the number its text
    denotes. *)
Record CreateBody : Type := mkCreateBody {
  b_initiative : string;
  b_amount : Q;
  b_currency : option string;
  b_paymentMethod : string;
  b_message : option string;
  b_isAnonymous : option bool
}.

(** The express-validator chain of lines 77-82. *)
Definition validationResult (b : CreateBody) : list string :=
  ((if isMongoId (b_initiative b) then []
    else ["Valid initiative ID is required"])
   ++ (if Qle_bool (1 # 100) (b_amount b) then []
       else ["Amount must be greater than 0"])
   ++ (if existsb (String.eqb (b_paymentMethod b)) Donation.paymentMethods
       then [] else ["Valid payment method is required"])
   ++ (match b_message b with
       | Some text =>
           if (String.length text <=? 500)%nat then [] else ["Message too long"]
       | None => []
       end))%list.

Definition cast_ref (text : string) : Exc ObjectId :=
  match castObjectId text with
  | Some oid => Ret oid
  | None => Throw ValidationError
  end.

(** [router.post('/', [auth, validators], ...)], lines 74-122. *)
Definition create (newId : ObjectId) (now : Date) (user : User.t)
           (body : CreateBody) (initiatives : list Initiative.t)
           (donations : Store) : Reply Donation.t * Store :=
  let errors := validationResult body in
  if negb (Nat.eqb (List.length errors) 0) then (Invalid errors, donations)
  else
    try_catch
      (initiativeExists <-
         InitiativeRoutes.findById castObjectId (b_initiative body)
                                   initiatives ;;
       match initiativeExists with
       | None => Ret (Failed 404 "Initiative not found", donations)
       | Some _ =>
           initiative <- cast_ref (b_initiative body) ;;
           donor <- cast_ref (User.id user) ;;
           let donation :=
             Donation.mk newId initiative donor (b_amount body)
                         (MessageRoutes.or_default (b_currency body) "USD")
                         (b_paymentMethod body) "pending" None
                         (b_message body)
                         (match b_isAnonymous body with
                          | Some flag => flag
                          | None => false
                          end)
                         now in
           donation <- Donation.save donation ;;
           Ret (Json donation, (donations ++ [donation])%list)
       end)
      (fun error => (Failed 500 "Server error", donations)).

(** The express-validator chain of lines 130-132. *)
Definition statusValidation (newStatus : string) : list string :=
  if existsb (String.eqb newStatus) Donation.statuses then []
  else ["Valid status is required"].

(** [router.put('/:id/status', [auth, validators], ...)], lines 127-167. *)
Definition update_status (id : string) (user : User.t) (newStatus : string)
           (transactionId : option string) (donations : Store)
  : Reply Donation.t * Store :=
  let errors := statusValidation newStatus in
  if negb (Nat.eqb (List.length errors) 0) then (Invalid errors, donations)
  else
    try_catch
      (if negb (String.eqb (User.role user) "admin")
       then Ret (Failed 403 "Access denied", donations)
       else
         donation <- findById id donations ;;
         match donation with
         | None => Ret (Failed 404 "Donation not found", donations)
         | Some donation =>
             let donation := Donation.set_status newStatus donation in
             let donation :=
               match transactionId with
               | Some tx =>
                   if String.eqb tx "" then donation
                   else Donation.set_transactionId tx donation
               | None => donation
               end in
             donation <- Donation.save donation ;;
             Ret (Json donation, persist donation donations)
         end)
      (fun error => (Failed 500 "Server error", donations)).

(** The [overall] object: the one group of the first pipeline, or the
    zeros the handler puts in its place. *)
Record Overall : Type := mkOverall {
  o_totalDonations : Z;
  o_totalAmount : Number;
  o_avgAmount : Number
}.

(** A group of the second pipeline: its key, [$sum: 1] and
    [$sum: '$amount']. *)
Record Group : Type := mkGroup {
  g_id : Z;
  g_count : Z;
  g_amount : Number
}.

(** The two [Donation.aggregate] pipelines run in the store: the groups of
    [$group: { _id: null, ... }], and those of the [$match], [$group] by
    month and [$sort] stages as a function of the date of the [$match]. *)
Variable overallGroups : Store -> list Overall.
Variable monthlyGroups : Date -> Store -> list Group.

Record Stats : Type := mkStats {
  overall : Overall;
  monthly : list Group
}.

(** [router.get('/stats', auth, ...)], lines 172-213. *)
Definition stats (now : Date) (user : User.t) (donations : Store)
  : Reply Stats :=
  if negb (String.eqb (User.role user) "admin")
  then Failed 403 "Access denied"
  else
    let stats := overallGroups donations in
    let monthlyStats := monthlyGroups (startOfYear now) donations in
    Json (mkStats (match stats with
                   | first :: _ => first
                   | [] => mkOverall 0 (Finite 0) (Finite 0)
                   end)
                  monthlyStats).

End Handlers.
End DonationRoutes.

(* ------------------------------------------------------------------ *)
(** ** routes/users.js: the route table and the lookup by id *)

Module UserRoutes.

(** A segment of a route path: literal text or a named parameter. *)
Inductive Segment : Type :=
| Lit (text : string)
| Param (name : string).

Inductive Handler : Type :=
| Profile
| GetById
| UserInitiatives
| UserEvents
| Search.

(** The GET routes in the order the router registers them. *)
Definition routes : list (list Segment * Handler) :=
  [ ([Lit "profile"], Profile);
    ([Param "id"], GetById);
    ([Param "id"; Lit "initiatives"], UserInitiatives);
    ([Param "id"; Lit "events"], UserEvents);
    ([Lit "search"], Search) ].

Definition lower (c : ascii) : ascii :=
  let n := nat_of_ascii c in
  if ((65 <=? n) && (n <=? 90))%nat then ascii_of_nat (n + 32) else c.

Fixpoint lower_text (s : string) : string :=
  match s with
  | EmptyString => EmptyString
  | String c rest => String (lower c) (lower_text rest)
  end.

(** A literal segment matches without regard to case, the router's
    default; a parameter matches any segment that is not empty. *)
Definition segment_matches (pattern : Segment) (segment : string) : bool :=
  match pattern with
  | Lit text => String.eqb (lower_text text) (lower_text segment)
  | Param _ => negb (String.eqb segment "")
  end.

Fixpoint path_matches (pattern : list Segment) (path : list string) : bool :=
  match pattern, path with
  | [], [] => true
  | p :: ps, x :: xs => segment_matches p x && path_matches ps xs
  | _, _ => false
  end.

(** The handler of a GET request: that of the first route whose path
    matches. *)
Definition dispatch (path : list string) : option Handler :=
  option_map snd (find (fun route => path_matches (fst route) path) routes).

Section Lookup.

Variable castObjectId : string -> option ObjectId.

(** [router.get('/:id', ...)], lines 29-49. *)
Definition get_by_id (id : string) (users : list User.t) : Reply User.t :=
  try_catch
    (user <- User.findById castObjectId id users ;;
     match user with
     | None => Ret (Failed 404 "User not found")
     | Some user => Ret (Json user)
     end)
    (fun error => not_found_or_500 "User not found" error).

End Lookup.

End UserRoutes.

(* ------------------------------------------------------------------ *)
(** ** The properties in the words of the specification *)

(** The arithmetic mean of a list of rationals. *)
Definition mean (ratings : list Q) : Q :=
  (fold_right Qplus 0 ratings / inject_Z (Z.of_nat (List.length ratings)))%Q.

(** The rational a finite Number denotes. *)
Definition value (x : Number) : Q :=
  match x with
  | Finite q => q
  | _ => 0%Q
  end.

(** A Number that is a whole number. *)
Definition whole (x : Number) : Prop := exists z : Z, x = Finite (inject_Z z).

(** A rational that is a binary64 value: rounding leaves it as it is. *)
Definition is_double (c : Q) : Prop := binary64 c = Finite (Qred c).

(** The mean of a list of Numbers in the arithmetic of Numbers: their sum
    from left to right, divided by their count. *)
Definition Number_mean (ratings : list Number) : Number :=
  Number_div (fold_left Number_add ratings (Finite 0))
             (Finite (inject_Z (Z.of_nat (List.length ratings)))).

(** A feedback entry of the given reviewer. *)
Definition reviewed_by (userId : ObjectId) (f : Feedback) : bool :=
  match fb_user f with
  | Some u => String.eqb u userId
  | None => false
  end.

(** A stored entry as [addFeedback] itself writes it: it names its
    reviewer and passes the validators. *)
Definition well_formed (f : Feedback) : bool :=
  match fb_user f with
  | Some _ => valid_feedback f
  | None => false
  end.

(** What the specification says of [addFeedback] followed by [save], for a
    document type with the three feedback paths. Every submission that is
    saved replaces the reviewer's entries by the new one and leaves the
    aggregates recomputed: [averageRating] is the mean of the stored
    ratings in the arithmetic of Numbers, which for whole-number ratings
    is the binary64 value nearest to their exact mean, and [totalRatings]
    is their count. The count does not grow when the reviewer had an entry
    already, and a second submission of the same reviewer leaves
    [totalRatings] as the first left it. On a valid document whose entries
    name their reviewers the submission is saved. *)
Definition feedback_contract {D : Type}
           (feedback : D -> list Feedback) (averageRating : D -> Number)
           (totalRatings : D -> Z) (valid : D -> bool)
           (addFeedback : ObjectId -> Number -> option string -> D -> Exc D)
  : Prop :=
  (forall (userId : ObjectId) (rating : Number) (comment : option string)
          (this this' : D),
      addFeedback userId rating comment this = Ret this' ->
      feedback this'
      = (filter (fun f => negb (reviewed_by userId f)) (feedback this)
         ++ [mkFeedback (Some userId) rating comment])%list
      /\ averageRating this' = Number_mean (map fb_rating (feedback this'))
      /\ ((forall f, In f (feedback this') -> whole (fb_rating f)) ->
          Z.of_nat (List.length (feedback this')) < 2 ^ 50 ->
          averageRating this'
          = binary64 (mean (map (fun f => value (fb_rating f))
                                (feedback this'))))
      /\ totalRatings this' = Z.of_nat (List.length (feedback this'))
      /\ (existsb (reviewed_by userId) (feedback this) = true ->
          totalRatings this' <= Z.of_nat (List.length (feedback this)))
      /\ (forall (rating' : Number) (comment' : option string) (this'' : D),
             addFeedback userId rating' comment' this' = Ret this'' ->
             totalRatings this'' = totalRatings this'))
  /\ (forall (userId : ObjectId) (rating : Number) (comment : option string)
             (this : D),
         valid this = true ->
         forallb well_formed (feedback this) = true ->
         valid_feedback (mkFeedback (Some userId) rating comment) = true ->
         exists this' : D, addFeedback userId rating comment this = Ret this').

(** A term of a score with its ceiling: the term, or the ceiling when the
    term is above it. *)
Definition capped (term : Number) (ceiling : Q) : Number :=
  match term with
  | Finite q => Finite (Qmin q ceiling)
  | PosInfinity => Finite ceiling
  | other => other
  end.

(** The sum of the five capped terms of the impact score, added to 0 one
    after the other. *)
Definition capped_sum (m : Initiative.ImpactMetrics) : Number :=
  fold_left Number_add
    [capped (Number_div (Initiative.peopleReached m) (Finite 100)) 25;
     capped (Number_div (Initiative.hoursVolunteered m) (Finite 100)) 25;
     capped (Number_div (Initiative.fundsRaised m) (Finite 1000)) 20;
     capped (Initiative.environmentalImpact m) 15;
     capped (Number_div (Initiative.socialConnections m) (Finite 10)) 15]
    (Finite 0).

(** [score] is [sum] rounded: the integer within one half of it, the
    upper one of two; an infinity or NaN stays what it is. *)
Definition rounded (sum score : Number) : Prop :=
  match sum with
  | Finite q =>
      exists z : Z,
        score = Finite (inject_Z z)
        /\ (inject_Z z - (1 # 2) <= q /\ q < inject_Z z + (1 # 2))%Q
  | other => score = other
  end.

Definition non_negative (m : Initiative.ImpactMetrics) : Prop :=
  Number_le (Finite 0) (Initiative.peopleReached m)
  /\ Number_le (Finite 0) (Initiative.hoursVolunteered m)
  /\ Number_le (Finite 0) (Initiative.fundsRaised m)
  /\ Number_le (Finite 0) (Initiative.environmentalImpact m)
  /\ Number_le (Finite 0) (Initiative.socialConnections m).

(** Metrics as a Number path can hold them: the cast to Number refuses
    NaN. *)
Definition no_NaN (m : Initiative.ImpactMetrics) : Prop :=
  Initiative.peopleReached m <> NaN
  /\ Initiative.hoursVolunteered m <> NaN
  /\ Initiative.fundsRaised m <> NaN
  /\ Initiative.environmentalImpact m <> NaN
  /\ Initiative.socialConnections m <> NaN.

(** [ceil(total / limit)] for a positive page size, on integers. *)
Definition ceil_div (total limit : Z) : Z := (total + limit - 1) / limit.

(** The reading of request strings as ObjectIds used on the sample data,
    that of the driver's ObjectId constructor on 24-character strings:
    hexadecimal digits in either case, which [toString] gives back in
    lower case. *)
Definition lower_hex (c : ascii) : ascii :=
  let n := nat_of_ascii c in
  if ((65 <=? n) && (n <=? 70))%nat then ascii_of_nat (n + 32) else c.

Fixpoint map_chars (f : ascii -> ascii) (s : string) : string :=
  match s with
  | EmptyString => EmptyString
  | String c rest => String (f c) (map_chars f rest)
  end.

Definition castHex (s : string) : option ObjectId :=
  if all_chars is_hex s && (String.length s =? 24)%nat
  then Some (map_chars lower_hex s) else None.

(** The three ways the specification names in which a request fails
    authentication: no token, a token [jwt.verify] rejects, a token whose
    subject is no user record. *)
Inductive Unauthenticated (castObjectId : string -> option ObjectId)
          (jwt_verify : string -> Exc string) (users : list User.t)
          (authorization : option string) : Prop :=
| Missing_token :
    Auth.no_token (Auth.token_of authorization) = true ->
    Unauthenticated castObjectId jwt_verify users authorization
| Rejected_token (token : string) (e : Error) :
    Auth.token_of authorization = Some token ->
    token <> "" ->
    jwt_verify token = Throw e ->
    Unauthenticated castObjectId jwt_verify users authorization
| Unknown_subject (token subject : string) :
    Auth.token_of authorization = Some token ->
    token <> "" ->
    jwt_verify token = Ret subject ->
    (forall u, User.findById castObjectId subject users <> Ret (Some u)) ->
    Unauthenticated castObjectId jwt_verify users authorization.

(** A page of [all], the matching records in result order, for a 1-based
    page number and a page size. *)
Definition paginated {A : Type} (all : list A) (page limit : Z) (p : Page A)
  : Prop :=
  items p = firstn (Z.to_nat limit) (skipn (Z.to_nat ((page - 1) * limit)) all)
  /\ Z.of_nat (List.length (items p)) <= limit
  /\ totalPages p = Finite (inject_Z (ceil_div (total p) limit))
  /\ currentPage p = page
  /\ total p = Z.of_nat (List.length all).

(* ------------------------------------------------------------------ *)
(** ** Sample data *)

Definition alice_id : ObjectId := "64b7f0c2a1d3e45f67890a01".
Definition bob_id : ObjectId := "64b7f0c2a1d3e45f67890a02".
Definition carol_id : ObjectId := "64b7f0c2a1d3e45f67890a03".
Definition dave_id : ObjectId := "64b7f0c2a1d3e45f67890a04".

Definition alice : User.t := User.mk alice_id "Alice" "user".
Definition bob : User.t := User.mk bob_id "Bob" "user".
Definition carol : User.t := User.mk carol_id "Carol" "moderator".
Definition dave : User.t := User.mk dave_id "Dave" "admin".

Definition some_users : list User.t := [alice; bob; carol; dave].

Definition two_reviews : list Feedback :=
  [mkFeedback (Some bob_id) (Finite 4) None;
   mkFeedback (Some carol_id) (Finite 5) (Some "Well run")].

Definition garden_id : ObjectId := "64b7f0c2a1d3e45f67890b01".

(** An initiative as the create handler leaves it, its creator the first
    member, with two reviews since. *)
Definition garden : Initiative.t :=
  Initiative.mk garden_id "Community garden" "Environment" "Riverside"
                (Some alice_id) [alice_id] [] "active" (Finite 0)
                (Initiative.mkMetrics (Finite 1000) (Finite 250) (Finite 5000)
                                      (Finite 7) (Finite 40))
                two_reviews (Finite (9 # 2)) 2 true 1000.

Definition cleanup_id : ObjectId := "64b7f0c2a1d3e45f67890c01".

(** An event whose declared capacity is one and whose organizer already
    attends. *)
Definition cleanup : Event.t :=
  Event.mk cleanup_id "River cleanup" "Environment" "Riverside" 5000
           (Some alice_id) [alice_id] [] "upcoming" 1 (Finite 0)
           two_reviews (Finite (9 # 2)) 2 true.

Definition hello_id : ObjectId := "64b7f0c2a1d3e45f67890d01".

(** A message from Alice that Bob read at time 1000. *)
Definition hello : Message.t :=
  Message.mk hello_id alice_id bob_id None None "Hello" "See you there"
             true (Some 1000) "personal" "normal" 900.

Definition reminder_id : ObjectId := "64b7f0c2a1d3e45f67890e01".

(** Notifications of Alice and of Bob. *)
Definition reminder : Notification.t :=
  Notification.mk reminder_id alice_id None "event_reminder" "Reminder"
                  "River cleanup starts soon" false None 800.

Definition welcome : Notification.t :=
  Notification.mk "64b7f0c2a1d3e45f67890e02" bob_id None "system_announcement"
                  "Welcome" "Thanks for joining" false None 700.

(** Twenty-five messages to Bob, numbered by creation time. *)
Definition numbered (n : nat) : Message.t :=
  Message.mk (String (ascii_of_nat n) EmptyString) alice_id bob_id None None
             "Update" "News" false None "personal" "normal" (Z.of_nat n).

Definition twenty_five : list Message.t := map numbered (seq 1 25).

(** A date cast that knows one date. *)
Definition sample_castDate (s : string) : option Date :=
  if String.eqb s "2025-06-01" then Some 1748736000000 else None.

(** A create request that asks for at most one attendee. *)
Definition picnic_body : EventRoutes.CreateBody :=
  EventRoutes.mkCreateBody "Picnic" "Bring your own food" "2025-06-01"
                           "Riverside" "Social" (Some 1).

Definition picnic_id : ObjectId := "64b7f0c2a1d3e45f67890c02".

(** A store for the sample queries: a text without special characters
    matches the locations equal to it up to letter case, and an opening
    parenthesis alone is no regular expression. *)
Definition sample_regex (pattern : string) : option (string -> bool) :=
  if String.eqb pattern "(" then None
  else Some (fun text =>
               String.eqb (UserRoutes.lower_text pattern)
                          (UserRoutes.lower_text text)).

(** A token check that accepts one token per sample user. *)
Definition sample_verify (token : string) : Exc string :=
  if String.eqb token "alice-token" then Ret alice_id
  else if String.eqb token "dave-token" then Ret dave_id
  else if String.eqb token "ghost-token" then Ret "64b7f0c2a1d3e45f67890aff"
  else Throw JwtError.

(** An update body that renames a document. *)
Definition rename_initiative (title : string) (d : Initiative.t)
  : Exc Initiative.t :=
  Ret (Initiative.mk (Initiative._id d) title (Initiative.category d)
         (Initiative.location d) (Initiative.creator d) (Initiative.members d)
         (Initiative.likes d) (Initiative.status d) (Initiative.impactScore d)
         (Initiative.impactMetrics d) (Initiative.feedback d)
         (Initiative.averageRating d) (Initiative.totalRatings d)
         (Initiative.isPublic d) (Initiative.createdAt d)).

(** The update body [{ creator: null }], and the garden once its owner
    has sent it. *)
Definition without_creator (d : Initiative.t) : Initiative.t :=
  Initiative.mk (Initiative._id d) (Initiative.title d)
                (Initiative.category d) (Initiative.location d) None
                (Initiative.members d) (Initiative.likes d)
                (Initiative.status d) (Initiative.impactScore d)
                (Initiative.impactMetrics d) (Initiative.feedback d)
                (Initiative.averageRating d) (Initiative.totalRatings d)
                (Initiative.isPublic d) (Initiative.createdAt d).


Definition abandoned_garden : Initiative.t := without_creator garden.

(** A listing query for the location "(". *)
Definition bad_pattern_query : InitiativeRoutes.ListQuery :=
  InitiativeRoutes.mkListQuery None (Some "(") None None None None.


(* ------------------------------------------------------------------ *)
(** ** Further notions and sample data *)

(** A list in descending order of [key]. *)
Fixpoint descending {A : Type} (key : A -> Z) (l : list A) : Prop :=
  match l with
  | [] => True
  | x :: rest => (forall y, In y rest -> key y <= key x) /\ descending key rest
  end.

(** The records of a listing response, none for an error response. *)
Definition items_of {A : Type} (r : Reply (Page A)) : list A :=
  match r with
  | Json p => items p
  | _ => []
  end.

(** Whether a user is in a list of references. *)
Definition among (refs : list ObjectId) (u : User.t) : bool :=
  existsb (fun ref => String.eqb ref (User.id u)) refs.

(** Metrics that are at least as large, one by one. *)
Definition metrics_le (m m' : Initiative.ImpactMetrics) : Prop :=
  Number_le (Initiative.peopleReached m) (Initiative.peopleReached m')
  /\ Number_le (Initiative.hoursVolunteered m) (Initiative.hoursVolunteered m')
  /\ Number_le (Initiative.fundsRaised m) (Initiative.fundsRaised m')
  /\ Number_le (Initiative.environmentalImpact m)
               (Initiative.environmentalImpact m')
  /\ Number_le (Initiative.socialConnections m)
               (Initiative.socialConnections m').

Definition impact_le (i i' : EventImpact.SocialImpact) : Prop :=
  Number_le (EventImpact.peopleConnected i) (EventImpact.peopleConnected i')
  /\ Number_le (EventImpact.knowledgeShared i) (EventImpact.knowledgeShared i')
  /\ Number_le (EventImpact.communityBuilding i)
               (EventImpact.communityBuilding i')
  /\ Number_le (EventImpact.environmentalImpact i)
               (EventImpact.environmentalImpact i').

(** A create request for an initiative. *)
Definition orchard_body : InitiativeRoutes.CreateBody :=
  InitiativeRoutes.mkCreateBody " Orchard " "Plant fruit trees" "Environment"
                                "Hillside" (Some "2025-06-01") None.

Definition orchard_id : ObjectId := "64b7f0c2a1d3e45f67890b02".

(** The garden with one comment, and a second initiative out of view. *)
Definition garden_doc : InitiativeComments.Doc :=
  InitiativeComments.mkDoc garden
    [InitiativeComments.mkComment (Some bob_id) (Some "Count me in") []].

Definition hidden_garden : Initiative.t :=
  Initiative.mk "64b7f0c2a1d3e45f67890b03" "Secret garden" "Environment"
                "Backyard" (Some bob_id) [bob_id] [] "planning" (Finite 0)
                (Initiative.mkMetrics (Finite 0) (Finite 0) (Finite 0)
                                      (Finite 0) (Finite 0))
                [] (Finite 0) 0 false 2000.

(** Donations to the garden: one completed, one pending. *)
Definition gift_id : ObjectId := "64b7f0c2a1d3e45f67890f01".
Definition pledge_id : ObjectId := "64b7f0c2a1d3e45f67890f02".

Definition gift : Donation.t :=
  Donation.mk gift_id garden_id bob_id 25 "USD" "paypal" "completed"
              (Some "tx-1") None false 1200.

Definition pledge : Donation.t :=
  Donation.mk pledge_id garden_id carol_id (15 # 2) "USD" "cash" "pending"
              None (Some "For seeds") true 1300.

(** A pending donation of a whole amount. *)
Definition grant_id : ObjectId := "64b7f0c2a1d3e45f67890f04".
Definition grant : Donation.t :=
  Donation.mk grant_id garden_id carol_id 40 "USD" "bank_transfer" "pending"
              None None false 1350.

(** Donations of 0.3 and 0.2, completed, and a newer one of 0.1, pending:
    the amounts are the binary64 values of these decimals. *)
Definition three_tenths : Donation.t :=
  Donation.mk "64b7f0c2a1d3e45f67890f05" garden_id bob_id
              (value (binary64 (3 # 10))) "USD" "paypal" "completed"
              None None false 1200.

Definition two_tenths : Donation.t :=
  Donation.mk "64b7f0c2a1d3e45f67890f06" garden_id bob_id
              (value (binary64 (2 # 10))) "USD" "paypal" "completed"
              None None false 1100.

Definition one_tenth_id : ObjectId := "64b7f0c2a1d3e45f67890f07".
Definition one_tenth : Donation.t :=
  Donation.mk one_tenth_id garden_id carol_id
              (value (binary64 (1 # 10))) "USD" "cash" "pending"
              None None false 1300.

Definition pledge_body : DonationRoutes.CreateBody :=
  DonationRoutes.mkCreateBody garden_id 40 None "credit_card" None None.

(** A calendar for the sample dates: the year starts at 1000, months last
    100. *)
Definition sample_startOfYear (now : Date) : Date := 1000.
Definition sample_monthOf (d : Date) : Z := (d - 1000) / 100 + 1.

(** A sample store for the two pipelines: one group over all donations,
    and one group for each month, the amounts added from left to right. *)
Definition sample_overallGroups (donations : DonationRoutes.Store)
  : list DonationRoutes.Overall :=
  match donations with
  | [] => []
  | _ =>
      let sum := reduce_sum (fun d => Finite (Donation.amount d)) donations in
      let n := Z.of_nat (List.length donations) in
      [DonationRoutes.mkOverall n sum (Number_div sum (Finite (inject_Z n)))]
  end.

Fixpoint sample_add_to_month (k : Z) (a : Q)
         (groups : list DonationRoutes.Group) : list DonationRoutes.Group :=
  match groups with
  | [] => [DonationRoutes.mkGroup k 1 (Finite a)]
  | g :: rest =>
      if k =? DonationRoutes.g_id g
      then DonationRoutes.mkGroup k (DonationRoutes.g_count g + 1)
             (Number_add (DonationRoutes.g_amount g) (Finite a))
           :: rest
      else if k <? DonationRoutes.g_id g
           then DonationRoutes.mkGroup k 1 (Finite a) :: groups
           else g :: sample_add_to_month k a rest
  end.

Definition sample_monthlyGroups (since : Date)
           (donations : DonationRoutes.Store) : list DonationRoutes.Group :=
  fold_left
    (fun groups d =>
       sample_add_to_month (sample_monthOf (Donation.createdAt d))
                           (Donation.amount d) groups)
    (filter (fun d => since <=? Donation.createdAt d) donations) [].

(** A stored amount that is a whole number, zero or more. *)
Definition whole_amount (d : Donation.t) : Prop :=
  exists z : Z, 0 <= z /\ Donation.amount d = inject_Z z.

(** A second, unread message to Bob. *)
Definition news_id : ObjectId := "64b7f0c2a1d3e45f67890d03".

Definition news : Message.t :=
  Message.mk news_id carol_id bob_id None None "News" "We won the grant"
             false None "personal" "normal" 950.

Definition impact_full : EventImpact.SocialImpact :=
  EventImpact.mkSocialImpact (Finite 300) (Finite 125) (Finite 125)
                             (Finite 20).

(** The sum of the amounts of a list of donations. *)
Definition sum_amounts (donations : list Donation.t) : Q :=
  fold_right Qplus 0%Q (map Donation.amount donations).

(* ------------------------------------------------------------------ *)
(** ** Numbers: powers of two, rounding to binary64 *)

Lemma pow2_pos (e : Z) : (0 < pow2 e)%Q.
Proof. apply Qpower_0_lt. reflexivity. Qed.

Lemma pow2_nonzero (e : Z) : ~ (pow2 e == 0)%Q.
Proof. intros H. pose proof (pow2_pos e) as P. rewrite H in P. discriminate. Qed.

Lemma pow2_add (a b : Z) : (pow2 (a + b) == pow2 a * pow2 b)%Q.
Proof. apply Qpower_plus. discriminate. Qed.

Lemma pow2_Z (n : Z) : 0 <= n -> (pow2 n == inject_Z (2 ^ n))%Q.
Proof. intros H. unfold pow2. now rewrite Zpower_Qpower. Qed.

Lemma pow2_lt (a b : Z) : a < b -> (pow2 a < pow2 b)%Q.
Proof. intros H. apply Qpower_lt_compat_l; [assumption|reflexivity]. Qed.

Lemma pow2_le (a b : Z) : a <= b -> (pow2 a <= pow2 b)%Q.
Proof. intros H. apply Qpower_le_compat_l; [assumption|discriminate]. Qed.

Lemma pow2_lt_inv (a b : Z) : (pow2 a < pow2 b)%Q -> a < b.
Proof. intros H. apply (Qpower_lt_compat_l_inv 2); [assumption|reflexivity]. Qed.

Ltac field_pow2 :=
  field; repeat match goal with |- _ /\ _ => split end; apply pow2_nonzero.

Lemma pow2_sub (a b : Z) : (pow2 (a - b) == pow2 a / pow2 b)%Q.
Proof. apply Qpower_minus. discriminate. Qed.

(** [x / pow2 e] is [x * pow2 (- e)]. *)
Lemma div_pow2 (x : Q) (e : Z) : (x / pow2 e == x * pow2 (- e))%Q.
Proof. unfold Qdiv, pow2. now rewrite Qpower_opp. Qed.

Lemma Zfrac_lt (x y u v : Z) :
  0 < y -> 0 < v -> x * v < u * y ->
  (inject_Z x / inject_Z y < inject_Z u / inject_Z v)%Q.
Proof.
  intros Hy Hv H.
  assert (Hy' : (0 < inject_Z y)%Q) by (now rewrite <- (Zlt_Qlt 0)).
  assert (Hv' : (0 < inject_Z v)%Q) by (now rewrite <- (Zlt_Qlt 0)).
  apply Qlt_shift_div_l; [assumption|].
  setoid_replace (inject_Z x / inject_Z y * inject_Z v)%Q
    with ((inject_Z x * inject_Z v) / inject_Z y)%Q
    by (field; intros E; rewrite E in Hy'; discriminate).
  apply Qlt_shift_div_r; [assumption|].
  now rewrite <- !inject_Z_mult, <- Zlt_Qlt.
Qed.

Lemma Qlog2_spec (q : Q) :
  (0 < q)%Q -> (pow2 (Qlog2 q) <= q /\ q < pow2 (Qlog2 q + 1))%Q.
Proof.
  intros Hq. destruct q as [n d].
  assert (Hn : 0 < n).
  { unfold Qlt in Hq. simpl in Hq. lia. }
  unfold Qlog2. cbn [Qnum Qden].
  set (a := Z.log2 n). set (b := Z.log2 (Zpos d)).
  destruct (Z.log2_spec n Hn) as [Ha1 Ha2]. fold a in Ha1, Ha2.
  destruct (Z.log2_spec (Zpos d) eq_refl) as [Hb1 Hb2]. fold b in Hb1, Hb2.
  assert (Ha0 : 0 <= a) by apply Z.log2_nonneg.
  assert (Hb0 : 0 <= b) by apply Z.log2_nonneg.
  assert (Hd : (n # d == inject_Z n / inject_Z (Zpos d))%Q) by apply Qmake_Qdiv.
  assert (Hdpos : (0 < inject_Z (Zpos d))%Q) by reflexivity.
  assert (Hup : (n # d < pow2 (a - b + 1))%Q).
  { replace (a - b + 1) with ((a + 1) - b) by lia.
    rewrite pow2_sub, (pow2_Z (a + 1)), (pow2_Z b), Hd by lia.
    apply Zfrac_lt; [reflexivity|lia|].
    replace (Z.succ a) with (a + 1) in Ha2 by lia. nia. }
  assert (Hlow : (pow2 (a - b - 1) < n # d)%Q).
  { replace (a - b - 1) with (a - (b + 1)) by lia.
    rewrite pow2_sub, (pow2_Z a), (pow2_Z (b + 1)), Hd by lia.
    apply Zfrac_lt; [lia|reflexivity|].
    replace (Z.succ b) with (b + 1) in Hb2 by lia. nia. }
  destruct (Qle_bool (pow2 (a - b)) (n # d)) eqn:E.
  - apply Qle_bool_iff in E. split; assumption.
  - assert (Hlt : (n # d < pow2 (a - b))%Q).
    { apply Qnot_le_lt. intros H. apply Qle_bool_iff in H. congruence. }
    replace (a - b - 1 + 1) with (a - b) by lia.
    split; [apply Qlt_le_weak|]; assumption.
Qed.

Lemma Qlog2_unique (q : Q) (l : Z) :
  (pow2 l <= q)%Q -> (q < pow2 (l + 1))%Q -> Qlog2 q = l.
Proof.
  intros H1 H2.
  assert (Hq : (0 < q)%Q) by (eapply Qlt_le_trans; [apply (pow2_pos l)|exact H1]).
  destruct (Qlog2_spec q Hq) as [S1 S2].
  assert (Qlog2 q < l + 1).
  { apply pow2_lt_inv. eapply Qle_lt_trans; eassumption. }
  assert (l < Qlog2 q + 1).
  { apply pow2_lt_inv. eapply Qle_lt_trans; eassumption. }
  lia.
Qed.

Lemma Qlog2_le (x y : Q) : (0 < x)%Q -> (x <= y)%Q -> Qlog2 x <= Qlog2 y.
Proof.
  intros Hx Hxy.
  assert (Hy : (0 < y)%Q) by (eapply Qlt_le_trans; eassumption).
  destruct (Qlog2_spec x Hx) as [X1 _].
  destruct (Qlog2_spec y Hy) as [_ Y2].
  assert (Qlog2 x < Qlog2 y + 1).
  { apply pow2_lt_inv. eapply Qle_lt_trans; [exact X1|].
    eapply Qle_lt_trans; eassumption. }
  lia.
Qed.

Lemma Qlog2_comp (x y : Q) : (0 < x)%Q -> (x == y)%Q -> Qlog2 x = Qlog2 y.
Proof.
  intros Hx E. destruct (Qlog2_spec x Hx) as [X1 X2].
  symmetry. apply Qlog2_unique; now rewrite <- E.
Qed.

(** *** Rounding to an integer *)

Lemma round_half_even_comp (x y : Q) :
  (x == y)%Q -> round_half_even x = round_half_even y.
Proof.
  intros E. unfold round_half_even.
  rewrite (Qfloor_comp _ _ E).
  assert (C : ((x - inject_Z (Qfloor y)) ?= (1 # 2))%Q
              = ((y - inject_Z (Qfloor y)) ?= (1 # 2))%Q)
    by (now rewrite E).
  now rewrite C.
Qed.

Lemma round_half_even_floor (q : Q) :
  round_half_even q = Qfloor q
  \/ (round_half_even q = Qfloor q + 1
      /\ (inject_Z (Qfloor q) + (1 # 2) <= q)%Q).
Proof.
  unfold round_half_even.
  destruct (Qcompare_spec (q - inject_Z (Qfloor q)) (1 # 2)) as [E|L|G].
  - destruct (Z.even (Qfloor q)); [now left|right].
    split; [reflexivity|]. rewrite <- E. ring_simplify. apply Qle_refl.
  - now left.
  - right. split; [reflexivity|]. apply Qlt_le_weak in G.
    apply (Qplus_le_l _ _ (inject_Z (Qfloor q))) in G.
    ring_simplify in G. exact G.
Qed.

Lemma round_half_even_Z (z : Z) : round_half_even (inject_Z z) = z.
Proof.
  unfold round_half_even. rewrite Qfloor_Z.
  replace ((inject_Z z - inject_Z z ?= 1 # 2)%Q) with Lt; [reflexivity|].
  symmetry. apply (proj1 (Qlt_alt _ _)).
  setoid_replace (inject_Z z - inject_Z z)%Q with 0%Q by ring. reflexivity.
Qed.

Lemma round_half_even_le_Z (q : Q) (n : Z) :
  (q <= inject_Z n)%Q -> round_half_even q <= n.
Proof.
  intros H.
  assert (Hf : Qfloor q <= n).
  { rewrite <- (Qfloor_Z n). now apply Qfloor_resp_le. }
  destruct (round_half_even_floor q) as [-> | [-> Hhalf]]; [assumption|].
  assert (Qfloor q < n); [|lia].
  rewrite Zlt_Qlt. eapply Qlt_le_trans; [|exact H].
  eapply Qlt_le_trans; [|exact Hhalf].
  rewrite <- (Qplus_0_r (inject_Z (Qfloor q))) at 1.
  apply Qplus_lt_r. reflexivity.
Qed.

Lemma round_half_even_ge_Z (q : Q) (n : Z) :
  (inject_Z n <= q)%Q -> n <= round_half_even q.
Proof.
  intros H.
  assert (Hf : n <= Qfloor q).
  { rewrite <- (Qfloor_Z n). now apply Qfloor_resp_le. }
  destruct (round_half_even_floor q) as [-> | [-> _]]; lia.
Qed.

(** *** The nearest binary64 value *)

Lemma ulp_exponent_low (q : Q) : -1074 <= ulp_exponent q.
Proof. unfold ulp_exponent. lia. Qed.

Lemma ulp_exponent_le (x y : Q) :
  (0 < x)%Q -> (x <= y)%Q -> ulp_exponent x <= ulp_exponent y.
Proof.
  intros Hx Hxy. unfold ulp_exponent.
  assert (Hy : (0 < y)%Q) by (eapply Qlt_le_trans; eassumption).
  assert (Qlog2 (Qabs x) <= Qlog2 (Qabs y)); [|lia].
  apply Qlog2_le.
  - rewrite Qabs_pos by now apply Qlt_le_weak. exact Hx.
  - rewrite !Qabs_pos by now apply Qlt_le_weak. exact Hxy.
Qed.

Lemma ulp_exponent_comp (x y : Q) :
  ~ (x == 0)%Q -> (x == y)%Q -> ulp_exponent x = ulp_exponent y.
Proof.
  intros Hx E. unfold ulp_exponent. f_equal. f_equal.
  apply Qlog2_comp; [|now rewrite E].
  destruct (Qlt_le_dec 0 (Qabs x)) as [H|H]; [exact H|].
  exfalso. apply Hx.
  assert (A : (Qabs x == 0)%Q) by (apply Qle_antisym; [exact H|apply Qabs_nonneg]).
  destruct (proj1 (Qabs_Qle_condition x 0) H) as [L U].
  apply Qle_antisym; assumption.
Qed.

Lemma Qdiv_zero (q d : Q) : (q == 0)%Q -> (q / d == inject_Z 0)%Q.
Proof. intros E. unfold Qdiv. rewrite E. ring. Qed.

Lemma nearest64_comp (x y : Q) : (x == y)%Q -> (nearest64 x == nearest64 y)%Q.
Proof.
  intros E. unfold nearest64.
  destruct (Qeq_dec x 0) as [Z|NZ].
  - assert (Zy : (y == 0)%Q) by (now rewrite <- E).
    rewrite (round_half_even_comp (x / pow2 (ulp_exponent x)) (inject_Z 0)),
            (round_half_even_comp (y / pow2 (ulp_exponent y)) (inject_Z 0)).
    + rewrite round_half_even_Z. ring.
    + now apply Qdiv_zero.
    + now apply Qdiv_zero.
  - rewrite (ulp_exponent_comp x y NZ E).
    rewrite (round_half_even_comp _ (y / pow2 (ulp_exponent y))); [reflexivity|].
    now rewrite E.
Qed.

Lemma binary64_comp (x y : Q) : (x == y)%Q -> binary64 x = binary64 y.
Proof.
  intros E. unfold binary64.
  assert (Z : Qeq_bool x 0 = Qeq_bool y 0).
  { destruct (Qeq_bool y 0) eqn:Y.
    - apply Qeq_bool_iff. apply Qeq_bool_iff in Y. now rewrite E.
    - destruct (Qeq_bool x 0) eqn:X; [|reflexivity].
      apply Qeq_bool_iff in X. rewrite E in X. apply Qeq_bool_iff in X. congruence. }
  rewrite Z. destruct (Qeq_bool y 0); [reflexivity|].
  pose proof (nearest64_comp x y E) as N.
  assert (B1 : Qle_bool (pow2 1024) (nearest64 x) = Qle_bool (pow2 1024) (nearest64 y)).
  { destruct (Qle_bool _ (nearest64 y)) eqn:Y.
    - apply Qle_bool_iff. apply Qle_bool_iff in Y. now rewrite N.
    - destruct (Qle_bool _ (nearest64 x)) eqn:X; [|reflexivity].
      apply Qle_bool_iff in X. rewrite N in X. apply Qle_bool_iff in X. congruence. }
  assert (B2 : Qle_bool (nearest64 x) (- pow2 1024) = Qle_bool (nearest64 y) (- pow2 1024)).
  { destruct (Qle_bool (nearest64 y) _) eqn:Y.
    - apply Qle_bool_iff. apply Qle_bool_iff in Y. now rewrite N.
    - destruct (Qle_bool (nearest64 x) _) eqn:X; [|reflexivity].
      apply Qle_bool_iff in X. rewrite N in X. apply Qle_bool_iff in X. congruence. }
  rewrite B1, B2. now rewrite (Qred_complete _ _ N).
Qed.

(** Every double is its own nearest double: a multiple [m * 2^k] of a
    power of two with [|m| < 2^53] and [k >= -1074]. *)
Lemma nearest64_exact (q : Q) (m k : Z) :
  (q == inject_Z m * pow2 k)%Q -> Z.abs m < 2 ^ 53 -> -1074 <= k ->
  (nearest64 q == q)%Q.
Proof.
  intros E Hm Hk.
  destruct (Z.eq_dec m 0) as [->|Hm0].
  { assert (Z : (q == 0)%Q) by (rewrite E; ring).
    rewrite (nearest64_comp q 0 Z), Z. reflexivity. }
  assert (Hq : (0 < Qabs q)%Q).
  { rewrite E, Qabs_Qmult, (Qabs_pos (pow2 k)) by apply Qlt_le_weak, pow2_pos.
    apply Qmult_lt_0_compat; [|apply pow2_pos].
    change (Qabs (inject_Z m)) with (inject_Z (Z.abs m)).
    rewrite <- (Zlt_Qlt 0). lia. }
  assert (He : ulp_exponent q <= k).
  { unfold ulp_exponent.
    assert (Qlog2 (Qabs q) < 53 + k); [|lia].
    destruct (Qlog2_spec _ Hq) as [L _].
    apply pow2_lt_inv. eapply Qle_lt_trans; [exact L|].
    rewrite E, Qabs_Qmult, (Qabs_pos (pow2 k)) by apply Qlt_le_weak, pow2_pos.
    rewrite pow2_add. apply Qmult_lt_compat_r; [apply pow2_pos|].
    change (Qabs (inject_Z m)) with (inject_Z (Z.abs m)).
    rewrite (pow2_Z 53) by lia. now rewrite <- Zlt_Qlt. }
  unfold nearest64. set (e := ulp_exponent q) in *.
  assert (S : (q / pow2 e == inject_Z (m * 2 ^ (k - e)))%Q).
  { rewrite E, inject_Z_mult, <- (pow2_Z (k - e)) by lia.
    rewrite pow2_sub. field_pow2. }
  rewrite (round_half_even_comp _ _ S), round_half_even_Z.
  rewrite E, inject_Z_mult, <- (pow2_Z (k - e)) by lia.
  rewrite pow2_sub. field_pow2.
Qed.

(** *** Bounds that rounding keeps *)

Lemma is_double_nearest (c : Q) :
  is_double c -> (nearest64 c == c)%Q /\ (nearest64 c < pow2 1024)%Q.
Proof.
  unfold is_double, binary64. destruct (Qeq_bool c 0) eqn:Z.
  - intros _. apply Qeq_bool_iff in Z.
    rewrite (nearest64_comp c 0 Z), Z. split; reflexivity.
  - destruct (Qle_bool (pow2 1024) (nearest64 c)) eqn:O; [discriminate|].
    destruct (Qle_bool (nearest64 c) (- pow2 1024)); [discriminate|].
    intros H. assert (R : Qred (nearest64 c) = Qred c) by congruence.
    apply Qred_eq_iff in R. split; [exact R|].
    apply Qnot_le_lt. intros L. apply Qle_bool_iff in L. congruence.
Qed.

Lemma nearest64_nonneg (q : Q) : (0 <= q)%Q -> (0 <= nearest64 q)%Q.
Proof.
  intros H. unfold nearest64.
  apply Qmult_le_0_compat; [|apply Qlt_le_weak, pow2_pos].
  change 0%Q with (inject_Z 0). rewrite <- Zle_Qle.
  apply round_half_even_ge_Z. simpl inject_Z.
  apply Qle_shift_div_l; [apply pow2_pos|]. now rewrite Qmult_0_l.
Qed.

Lemma nearest64_nonpos (q : Q) : (q <= 0)%Q -> (nearest64 q <= 0)%Q.
Proof.
  intros H. unfold nearest64.
  setoid_replace 0%Q with (inject_Z 0 * pow2 (ulp_exponent q))%Q by ring.
  apply Qmult_le_compat_r; [|apply Qlt_le_weak, pow2_pos].
  rewrite <- Zle_Qle. apply round_half_even_le_Z. simpl inject_Z.
  apply Qle_shift_div_r; [apply pow2_pos|]. now rewrite Qmult_0_l.
Qed.

Lemma nearest64_le (q c : Q) :
  (0 < q)%Q -> (q <= c)%Q -> (nearest64 c == c)%Q -> (nearest64 q <= c)%Q.
Proof.
  intros Hq Hqc Hc.
  pose proof (ulp_exponent_le q c Hq Hqc) as He.
  unfold nearest64 in *.
  set (eq := ulp_exponent q) in *. set (ec := ulp_exponent c) in *.
  set (M := round_half_even (c / pow2 ec)) in *.
  assert (S : (c / pow2 eq == inject_Z (M * 2 ^ (ec - eq)))%Q).
  { rewrite <- Hc at 1. rewrite inject_Z_mult, <- (pow2_Z (ec - eq)) by lia.
    rewrite pow2_sub. field_pow2. }
  assert (R : round_half_even (q / pow2 eq) <= M * 2 ^ (ec - eq)).
  { apply round_half_even_le_Z. rewrite <- S.
    apply Qmult_le_compat_r; [exact Hqc|].
    apply Qlt_le_weak, Qinv_lt_0_compat, pow2_pos. }
  rewrite Zle_Qle in R.
  apply (Qmult_le_compat_r _ _ (pow2 eq)) in R; [|apply Qlt_le_weak, pow2_pos].
  eapply Qle_trans; [exact R|]. rewrite <- S.
  apply Qle_lteq. right. field_pow2.
Qed.

Lemma binary64_upper (q c : Q) :
  is_double c -> (0 <= c)%Q -> (q <= c)%Q -> Number_le (binary64 q) (Finite c).
Proof.
  intros Hd Hc Hqc. destruct (is_double_nearest c Hd) as [Hn Hlt].
  unfold Number_le, binary64.
  destruct (Qeq_bool q 0) eqn:Z.
  { simpl. now apply Qle_bool_iff. }
  assert (Hr : (nearest64 q <= c)%Q).
  { destruct (Qlt_le_dec 0 q) as [P|N].
    - now apply nearest64_le.
    - eapply Qle_trans; [apply nearest64_nonpos, N|exact Hc]. }
  destruct (Qle_bool (pow2 1024) (nearest64 q)) eqn:O.
  { exfalso. apply Qle_bool_iff in O. rewrite Hn in Hlt.
    apply (Qlt_irrefl c). eapply Qlt_le_trans; [exact Hlt|].
    eapply Qle_trans; eassumption. }
  destruct (Qle_bool (nearest64 q) (- pow2 1024)); [reflexivity|].
  unfold Number_leb. apply Qle_bool_iff. now rewrite Qred_correct.
Qed.

Lemma binary64_nonneg (q : Q) :
  (0 <= q)%Q -> Number_le (Finite 0) (binary64 q).
Proof.
  intros H. unfold Number_le, binary64.
  destruct (Qeq_bool q 0); [reflexivity|].
  destruct (Qle_bool (pow2 1024) (nearest64 q)); [reflexivity|].
  pose proof (nearest64_nonneg q H) as N.
  destruct (Qle_bool (nearest64 q) (- pow2 1024)) eqn:U.
  { exfalso. apply Qle_bool_iff in U.
    assert (P : (0 < pow2 1024)%Q) by apply pow2_pos.
    apply (Qlt_irrefl 0). eapply Qle_lt_trans; [exact N|].
    eapply Qle_lt_trans; [exact U|].
    apply (Qplus_lt_l _ _ (pow2 1024)). ring_simplify. exact P. }
  unfold Number_leb. apply Qle_bool_iff. now rewrite Qred_correct.
Qed.

(** A whole number below 2^53 is a double. *)
Lemma binary64_Z (z : Z) :
  Z.abs z < 2 ^ 53 -> binary64 (inject_Z z) = Finite (inject_Z z).
Proof.
  intros H.
  assert (N : (nearest64 (inject_Z z) == inject_Z z)%Q).
  { apply (nearest64_exact _ z 0); [|exact H|lia].
    change (pow2 0) with 1%Q. ring. }
  assert (Hred : Qred (inject_Z z) = inject_Z z).
  { apply Qcanon.Qred_identity. cbn [inject_Z Qnum Qden]. apply Z.gcd_1_r. }
  unfold binary64. destruct (Qeq_bool (inject_Z z) 0) eqn:Z0.
  { apply Qeq_bool_iff in Z0. f_equal.
    transitivity (Qred (inject_Z z)); [|exact Hred].
    change 0%Q with (Qred 0). apply Qred_complete. now symmetry. }
  assert (B : (Qabs (inject_Z z) < pow2 1024)%Q).
  { change (Qabs (inject_Z z)) with (inject_Z (Z.abs z)).
    rewrite (pow2_Z 1024) by lia. rewrite <- Zlt_Qlt.
    eapply Z.lt_trans; [exact H|]. reflexivity. }
  apply Qabs_Qlt_condition in B. destruct B as [B1 B2].
  destruct (Qle_bool (pow2 1024) (nearest64 (inject_Z z))) eqn:O.
  { exfalso. apply Qle_bool_iff in O. rewrite N in O.
    apply (Qlt_irrefl (inject_Z z)). eapply Qlt_le_trans; eassumption. }
  destruct (Qle_bool (nearest64 (inject_Z z)) (- pow2 1024)) eqn:U.
  { exfalso. apply Qle_bool_iff in U. rewrite N in U.
    apply (Qlt_irrefl (inject_Z z)). eapply Qle_lt_trans; eassumption. }
  f_equal. transitivity (Qred (inject_Z z)); [apply Qred_complete, N|exact Hred].
Qed.

(** *** Sums, quotients, minima *)

(** *** Some values *)

(** [0.1 + 0.2] is [0.30000000000000004], not the Number [0.3]. *)
Example one_tenth_plus_two_tenths :
  Number_add (binary64 (1 # 10)) (binary64 (2 # 10))
  = Finite (1351079888211149 # 4503599627370496)
  /\ binary64 (3 # 10) = Finite (5404319552844595 # 18014398509481984).
Proof. vm_compute. split; reflexivity. Qed.

(** The order of additions matters: [0.1 + 0.3 + 0.2] is
    [0.6000000000000001] and [0.3 + 0.2 + 0.1] is [0.6]. *)
Example sum_depends_on_order :
  Number_add (Number_add (binary64 (1 # 10)) (binary64 (3 # 10)))
             (binary64 (2 # 10))
  = Finite (1351079888211149 # 2251799813685248)
  /\ Number_add (Number_add (binary64 (3 # 10)) (binary64 (2 # 10)))
                (binary64 (1 # 10))
     = binary64 (6 # 10).
Proof. vm_compute. split; reflexivity. Qed.

(** [1 / 49 * 49] is [0.9999999999999999]. *)
Example one_over_49_times_49 :
  Number_mul (Number_div (Finite 1) (Finite 49)) (Finite 49)
  = Finite (9007199254740991 # 9007199254740992).
Proof. vm_compute. reflexivity. Qed.

(** [2^53 + 1] is [2^53]; the largest Number is [2^1024 - 2^971], and
    half a unit above it the sum is [Infinity]; half the smallest positive
    Number [2^-1074] is [0]. *)
Example rounding_at_the_ends :
  Number_add (Finite (inject_Z (2 ^ 53))) (Finite 1) = Finite (inject_Z (2 ^ 53))
  /\ binary64 (pow2 1024 - pow2 971) = Finite (Qred (pow2 1024 - pow2 971))
  /\ binary64 (pow2 1024 - pow2 970) = PosInfinity
  /\ binary64 (pow2 (-1075)) = Finite 0.
Proof. vm_compute. repeat split; reflexivity. Qed.

Lemma Number_between (x : Number) (lo hi : Q) :
  Number_le (Finite lo) x -> Number_le x (Finite hi) ->
  exists q : Q, x = Finite q /\ (lo <= q <= hi)%Q.
Proof.
  unfold Number_le. destruct x as [q| | |]; simpl; try discriminate.
  intros L H. exists q. split; [reflexivity|].
  split; now apply Qle_bool_iff.
Qed.

Lemma Number_le_Finite (q c : Q) : Number_le (Finite q) (Finite c) <-> (q <= c)%Q.
Proof. unfold Number_le. simpl. apply Qle_bool_iff. Qed.

Lemma Number_le_weaken (x : Number) (c c' : Q) :
  Number_le x (Finite c) -> (c <= c')%Q -> Number_le x (Finite c').
Proof.
  unfold Number_le. destruct x as [q| | |]; simpl; try discriminate; auto.
  intros H L. apply Qle_bool_iff. apply Qle_bool_iff in H.
  eapply Qle_trans; eassumption.
Qed.

Lemma Number_add_upper (a b : Number) (ca cb : Q) :
  Number_le a (Finite ca) -> Number_le b (Finite cb) ->
  is_double (ca + cb) -> (0 <= ca + cb)%Q ->
  Number_le (Number_add a b) (Finite (ca + cb)).
Proof.
  intros Ha Hb Hd H0.
  destruct a as [x| | |], b as [y| | |]; try discriminate; try reflexivity.
  simpl. apply binary64_upper; [assumption|assumption|].
  apply Number_le_Finite in Ha, Hb. now apply Qplus_le_compat.
Qed.

Lemma Number_add_lower (a b : Number) :
  Number_le (Finite 0) a -> Number_le (Finite 0) b ->
  Number_le (Finite 0) (Number_add a b).
Proof.
  intros Ha Hb.
  destruct a as [x| | |], b as [y| | |]; try discriminate; try reflexivity.
  simpl. apply binary64_nonneg.
  apply Number_le_Finite in Ha, Hb.
  change 0%Q with (0 + 0)%Q. now apply Qplus_le_compat.
Qed.

Lemma binary64_not_NaN (q : Q) : binary64 q <> NaN.
Proof.
  unfold binary64.
  destruct (Qeq_bool q 0); [discriminate|].
  destruct (Qle_bool _ _); [discriminate|].
  destruct (Qle_bool _ _); discriminate.
Qed.

Lemma Number_div_not_NaN (x : Number) (d : Q) :
  x <> NaN -> (0 < d)%Q -> Number_div x (Finite d) <> NaN.
Proof.
  intros Hx Hd. apply Qgt_alt in Hd.
  destruct x as [q| | |]; simpl; rewrite ?Hd;
    try discriminate; try apply binary64_not_NaN.
  now destruct Hx.
Qed.

Lemma Number_div_lower (x : Number) (d : Q) :
  Number_le (Finite 0) x -> (0 < d)%Q ->
  Number_le (Finite 0) (Number_div x (Finite d)).
Proof.
  intros Hx Hd. pose proof Hd as Hgt. apply Qgt_alt in Hgt.
  destruct x as [q| | |]; try discriminate; simpl; rewrite Hgt;
    [|reflexivity].
  apply binary64_nonneg. apply Number_le_Finite in Hx.
  apply Qle_shift_div_l; [assumption|]. now rewrite Qmult_0_l.
Qed.

Lemma Math_min_capped (x : Number) (c : Q) :
  Math_min x (Finite c) = capped x c.
Proof.
  destruct x as [q| | |]; try reflexivity.
  unfold Math_min, capped, Number_leb, Qmin, GenericMinMax.gmin.
  destruct (Qcompare_spec q c) as [E|L|G].
  - replace (Qle_bool q c) with true; [reflexivity|].
    symmetry. apply Qle_bool_iff. rewrite E. apply Qle_refl.
  - replace (Qle_bool q c) with true; [reflexivity|].
    symmetry. apply Qle_bool_iff. now apply Qlt_le_weak.
  - replace (Qle_bool q c) with false; [reflexivity|].
    symmetry. apply not_true_is_false. intros H. apply Qle_bool_iff in H.
    apply (Qlt_irrefl c). eapply Qlt_le_trans; eassumption.
Qed.

Lemma capped_upper (x : Number) (c : Q) :
  x <> NaN -> Number_le (capped x c) (Finite c).
Proof.
  intros Hx. destruct x as [q| | |]; simpl.
  - apply Number_le_Finite, Q.le_min_r.
  - apply Number_le_Finite, Qle_refl.
  - reflexivity.
  - now destruct Hx.
Qed.

Lemma capped_lower (x : Number) (c : Q) :
  Number_le (Finite 0) x -> (0 <= c)%Q -> Number_le (Finite 0) (capped x c).
Proof.
  intros Hx Hc. destruct x as [q| | |]; try discriminate; simpl.
  - apply Number_le_Finite. apply Number_le_Finite in Hx.
    now apply Q.min_glb.
  - now apply Number_le_Finite.
Qed.

Lemma Math_round_rounded (sum : Number) : rounded sum (Math_round sum).
Proof.
  destruct sum as [q| | |]; simpl; try reflexivity.
  exists (Qfloor (q + (1 # 2))). split; [reflexivity|].
  split.
  - apply (Qplus_le_l _ _ (1 # 2)). ring_simplify. apply Qfloor_le.
  - apply (Qplus_lt_l _ _ (1 # 2)).
    setoid_replace (inject_Z (Qfloor (q + (1 # 2))) + (1 # 2) + (1 # 2))%Q
      with (inject_Z (Qfloor (q + (1 # 2)) + 1))
      by (rewrite inject_Z_plus; ring).
    apply Qlt_floor.
Qed.

(** Rounding keeps whole bounds. *)
Lemma rounded_bounds (sum score : Number) (lo hi : Z) :
  rounded sum score ->
  Number_le (Finite (inject_Z lo)) sum -> Number_le sum (Finite (inject_Z hi)) ->
  exists z : Z, score = Finite (inject_Z z) /\ lo <= z <= hi.
Proof.
  intros R L H.
  destruct (Number_between sum _ _ L H) as (q & -> & Hlo & Hhi).
  destruct R as (z & -> & Z1 & Z2). exists z. split; [reflexivity|].
  assert (A : (inject_Z lo < inject_Z (z + 1))%Q).
  { eapply Qle_lt_trans; [exact Hlo|]. eapply Qlt_le_trans; [exact Z2|].
    rewrite inject_Z_plus. apply Qplus_le_r. discriminate. }
  assert (B : (inject_Z (z - 1) < inject_Z hi)%Q).
  { eapply Qlt_le_trans; [|exact Hhi]. eapply Qlt_le_trans; [|exact Z1].
    unfold Z.sub. rewrite inject_Z_plus. apply Qplus_lt_r. reflexivity. }
  rewrite <- Zlt_Qlt in A, B. lia.
Qed.

Lemma rounded_upper (sum score : Number) (hi : Z) :
  rounded sum score -> Number_le sum (Finite (inject_Z hi)) ->
  Number_le score (Finite (inject_Z hi)).
Proof.
  intros R H. destruct sum as [q| | |]; try discriminate.
  - destruct R as (z & -> & Z1 & _). apply Number_le_Finite in H.
    apply Number_le_Finite. rewrite <- Zle_Qle.
    assert (B : (inject_Z (z - 1) < inject_Z hi)%Q).
    { eapply Qlt_le_trans; [|exact H]. eapply Qlt_le_trans; [|exact Z1].
      unfold Z.sub. rewrite inject_Z_plus. apply Qplus_lt_r. reflexivity. }
    rewrite <- Zlt_Qlt in B. lia.
  - simpl in R. now subst score.
Qed.

(* ------------------------------------------------------------------ *)
(** ** The impact score *)

Lemma calculateImpactScore_sum (this : Initiative.t) :
  snd (Initiative.calculateImpactScore this)
  = Math_round (capped_sum (Initiative.impactMetrics this)).
Proof.
  unfold Initiative.calculateImpactScore, capped_sum. simpl.
  now rewrite !Math_min_capped.
Qed.

Lemma capped_sum_le_100 (m : Initiative.ImpactMetrics) :
  no_NaN m -> Number_le (capped_sum m) (Finite 100).
Proof.
  intros (Hp & Hh & Hf & He & Hs). unfold capped_sum. cbn [fold_left].
  apply (Number_le_weaken _ (0 + 25 + 25 + 20 + 15 + 15)); [|discriminate].
  repeat (apply Number_add_upper;
          [| |vm_compute; reflexivity|discriminate]);
    try (apply capped_upper;
         first [assumption
               | apply Number_div_not_NaN; [assumption|reflexivity]]).
  apply Number_le_Finite, Qle_refl.
Qed.

Lemma capped_sum_nonneg (m : Initiative.ImpactMetrics) :
  non_negative m -> Number_le (Finite 0) (capped_sum m).
Proof.
  intros (Hp & Hh & Hf & He & Hs). unfold capped_sum. cbn [fold_left].
  repeat apply Number_add_lower;
    try (apply capped_lower; [|discriminate];
         first [assumption
               | apply Number_div_lower; [assumption|reflexivity]]).
  apply Number_le_Finite, Qle_refl.
Qed.

Lemma non_negative_no_NaN (m : Initiative.ImpactMetrics) :
  non_negative m -> no_NaN m.
Proof.
  intros (Hp & Hh & Hf & He & Hs).
  repeat split; intros E;
    match goal with
    | H : Number_le _ ?x, E : ?x = NaN |- _ => rewrite E in H; discriminate H
    end.
Qed.

(** C9. [calculateImpactScore] stores and returns the rounded sum of the
    five capped terms min(peopleReached/100, 25), min(hoursVolunteered/100,
    25), min(fundsRaised/1000, 20), min(environmentalImpact, 15) and
    min(socialConnections/10, 15), added up as Numbers: the score is the
    integer within one half of that sum. The ceilings sum to 100; no score
    exceeds 100, and for non-negative metrics the score is a whole number
    between 0 and 100. *)
Theorem calculateImpactScore_bounded (this : Initiative.t) :
  let result := Initiative.calculateImpactScore this in
  let sum := capped_sum (Initiative.impactMetrics this) in
  fst result = Initiative.set_impactScore (snd result) this
  /\ Initiative.impactScore (fst result) = snd result
  /\ rounded sum (snd result)
  /\ (25 + 25 + 20 + 15 + 15 == 100)%Q
  /\ (no_NaN (Initiative.impactMetrics this) ->
      Number_le sum (Finite 100) /\ Number_le (snd result) (Finite 100))
  /\ (non_negative (Initiative.impactMetrics this) ->
      exists z : Z, snd result = Finite (inject_Z z) /\ 0 <= z <= 100).
Proof.
  intros result sum.
  assert (Hr : rounded sum (snd result)).
  { unfold result. rewrite calculateImpactScore_sum. apply Math_round_rounded. }
  split; [reflexivity|]. split; [reflexivity|]. split; [exact Hr|].
  split; [reflexivity|]. split.
  - intros Hn. pose proof (capped_sum_le_100 _ Hn) as Hle.
    split; [exact Hle|]. exact (rounded_upper _ _ 100 Hr Hle).
  - intros Hnn. apply (rounded_bounds sum _ 0 100 Hr).
    + now apply capped_sum_nonneg.
    + now apply capped_sum_le_100, non_negative_no_NaN.
Qed.

Lemma calculateImpactScore_bounded_witness :
  non_negative (Initiative.impactMetrics garden)
  /\ exists z : Z,
      snd (Initiative.calculateImpactScore garden) = Finite (inject_Z z)
      /\ 0 <= z <= 100.
Proof.
  assert (H : non_negative (Initiative.impactMetrics garden)).
  { repeat split. }
  split; [exact H|].
  exact (proj2 (proj2 (proj2 (proj2 (proj2
           (calculateImpactScore_bounded garden))))) H).
Defined.

(** 1000/100 + 250/100 + 5000/1000 + 7 + 40/10 = 28.5, rounded to 29. *)
Example garden_impactScore :
  snd (Initiative.calculateImpactScore garden) = Finite 29.
Proof. vm_compute. reflexivity. Qed.

(** The sum of 35/100, 950/1000 and 2/10 is 1.4999999999999998 as a
    Number, not 1.5: the score is 1. *)
Example impactScore_of_rounded_sum :
  let m := Initiative.mkMetrics (Finite 0) (Finite 35) (Finite 950) (Finite 0)
                                (Finite 2) in
  capped_sum m = Finite (6755399441055743 # 4503599627370496)
  /\ snd (Initiative.calculateImpactScore
            (Initiative.mk garden_id "Community garden" "Environment"
                           "Riverside" (Some alice_id) [] [] "active"
                           (Finite 0) m [] (Finite 0) 0 true 1000))
     = Finite 1.
Proof. vm_compute. split; reflexivity. Qed.

(* ------------------------------------------------------------------ *)
(** ** Sums and means of ratings *)

Lemma is_double_Z (z : Z) : Z.abs z < 2 ^ 53 -> is_double (inject_Z z).
Proof.
  intros H. unfold is_double. rewrite (binary64_Z z H). f_equal. symmetry.
  apply Qcanon.Qred_identity. cbn [inject_Z Qnum Qden]. apply Z.gcd_1_r.
Qed.

Lemma in_range_between (lo hi : Q) (x : Number) :
  in_range lo hi x = true -> exists q : Q, x = Finite q /\ (lo <= q <= hi)%Q.
Proof.
  unfold in_range. intros H. apply andb_prop in H as [L U].
  now apply Number_between.
Qed.

Lemma reduce_sum_map {A : Type} (f : A -> Number) (l : list A) :
  reduce_sum f l = fold_left Number_add (map f l) (Finite 0).
Proof.
  unfold reduce_sum. generalize (Finite 0).
  induction l as [|x l IH]; intros a; simpl; [reflexivity|apply IH].
Qed.


Lemma inject_Z_of_nat_pos (n : nat) :
  (0 < n)%nat -> (inject_Z (Z.of_nat n) ?= 0)%Q = Gt.
Proof.
  intros H. apply Qgt_alt. change 0%Q with (inject_Z 0).
  rewrite <- Zlt_Qlt. lia.
Qed.


(** Whole numbers add up exactly below 2^53. *)
Lemma fold_add_whole (zs : list Z) (a : Z) :
  0 <= a -> (forall z, In z zs -> 0 <= z) ->
  a + fold_right Z.add 0 zs < 2 ^ 53 ->
  fold_left Number_add (map (fun z => Finite (inject_Z z)) zs)
            (Finite (inject_Z a))
  = Finite (inject_Z (a + fold_right Z.add 0 zs)).
Proof.
  revert a. induction zs as [|z zs IH]; intros a Ha Hall Hsum; simpl.
  - now rewrite Z.add_0_r.
  - simpl in Hsum.
    assert (Hz : 0 <= z) by (apply Hall; now left).
    assert (Hrest : 0 <= fold_right Z.add 0 zs).
    { clear -Hall. induction zs as [|y ys IHy]; simpl; [lia|].
      assert (0 <= y) by (apply Hall; right; now left).
      assert (0 <= fold_right Z.add 0 ys); [|lia].
      apply IHy. intros w [->|Hw]; apply Hall; [now left|right; now right]. }
    rewrite (binary64_comp _ (inject_Z (a + z)))
      by (rewrite inject_Z_plus; reflexivity).
    rewrite binary64_Z by lia.
    rewrite IH; [f_equal; f_equal; lia|lia| |lia].
    intros w Hw. apply Hall. now right.
Qed.

Lemma whole_values (l : list Number) :
  (forall x, In x l -> whole x) ->
  l = map (fun z => Finite (inject_Z z)) (map (fun x => Qnum (value x)) l).
Proof.
  induction l as [|x l IH]; intros H; simpl; [reflexivity|].
  destruct (H x (or_introl eq_refl)) as [z ->]. simpl. f_equal.
  apply IH. intros y Hy. apply H. now right.
Qed.

Lemma sum_values_whole (zs : list Z) :
  (fold_right Qplus 0 (map value (map (fun z => Finite (inject_Z z)) zs))
   == inject_Z (fold_right Z.add 0%Z zs))%Q.
Proof.
  induction zs as [|z zs IH]; simpl; [reflexivity|].
  rewrite IH, inject_Z_plus. reflexivity.
Qed.

(** For whole-number ratings between 1 and 5 the mean in the arithmetic of
    Numbers is the binary64 value nearest to their exact mean. *)
Lemma Number_mean_whole (l : list Number) :
  (forall x, In x l -> whole x) ->
  (forall x, In x l -> in_range 1 5 x = true) ->
  (0 < List.length l)%nat -> Z.of_nat (List.length l) < 2 ^ 50 ->
  Number_mean l = binary64 (mean (map value l)).
Proof.
  intros Hw Hr Hpos Hlen. unfold Number_mean, mean.
  rewrite length_map.
  set (n := Z.of_nat (List.length l)) in *.
  rewrite (whole_values l Hw) at 1 2.
  set (zs := map (fun x => Qnum (value x)) l).
  assert (Hzs : forall z, In z zs -> 1 <= z <= 5).
  { intros z Hz. unfold zs in Hz. apply in_map_iff in Hz as (x & <- & Hx).
    destruct (in_range_between _ _ _ (Hr x Hx)) as (q & E & H1 & H5).
    destruct (Hw x Hx) as [w Ew]. rewrite Ew in E |- *.
    inversion E; subst q. simpl.
    change 1%Q with (inject_Z 1) in H1. change 5%Q with (inject_Z 5) in H5.
    rewrite <- Zle_Qle in H1, H5. lia. }
  assert (Hsum : fold_right Z.add 0 zs <= 5 * Z.of_nat (List.length zs)).
  { clear -Hzs. induction zs as [|z zs IH]; simpl List.length; simpl fold_right;
      [lia|].
    assert (z <= 5) by (apply Hzs; now left).
    assert (fold_right Z.add 0 zs <= 5 * Z.of_nat (List.length zs)).
    { apply IH. intros w Hw. apply Hzs. now right. }
    lia. }
  assert (Hlz : List.length zs = List.length l) by apply length_map.
  rewrite Hlz in Hsum. fold n in Hsum.
  change (Finite 0) with (Finite (inject_Z 0)).
  rewrite fold_add_whole; [|lia| |lia].
  2: { intros z Hz. specialize (Hzs z Hz). lia. }
  cbn [Number_div]. unfold n. rewrite (inject_Z_of_nat_pos _ Hpos).
  apply binary64_comp. rewrite sum_values_whole, Z.add_0_l. reflexivity.
Qed.

(* ------------------------------------------------------------------ *)
(** ** Validation before save *)

Ltac andb_hyps :=
  repeat match goal with
         | H : (_ && _)%bool = true |- _ => apply andb_prop in H; destruct H
         end.

Ltac andb_goal :=
  repeat match goal with
         | |- (_ && _)%bool = true => apply andb_true_intro; split
         end;
  try assumption.

Lemma Initiative_valid_feedback (this : Initiative.t) :
  Initiative.valid this = true ->
  forallb valid_feedback (Initiative.feedback this) = true.
Proof. unfold Initiative.valid. intros H. andb_hyps. assumption. Qed.

Lemma Event_valid_feedback (this : Event.t) :
  Event.valid this = true ->
  forallb valid_feedback (Event.feedback this) = true.
Proof. unfold Event.valid. intros H. andb_hyps. assumption. Qed.

Lemma Initiative_valid_set_feedback (fb : list Feedback) (this : Initiative.t) :
  Initiative.valid this = true -> forallb valid_feedback fb = true ->
  Initiative.valid (Initiative.set_feedback fb this) = true.
Proof.
  unfold Initiative.valid. cbn. intros H Hfb. andb_hyps. andb_goal.
Qed.

Lemma Event_valid_set_feedback (fb : list Feedback) (this : Event.t) :
  Event.valid this = true -> forallb valid_feedback fb = true ->
  Event.valid (Event.set_feedback fb this) = true.
Proof.
  unfold Event.valid. cbn. intros H Hfb. andb_hyps. andb_goal.
Qed.

Lemma valid_feedback_ratings (fb : list Feedback) :
  forallb valid_feedback fb = true ->
  forall x, In x (map fb_rating fb) -> in_range 1 5 x = true.
Proof.
  intros H x Hx. apply in_map_iff in Hx as (f & <- & Hf).
  rewrite forallb_forall in H. specialize (H f Hf).
  unfold valid_feedback in H. now apply andb_prop in H as [H _].
Qed.



(* ------------------------------------------------------------------ *)
(** ** Feedback: replacing a reviewer's entry, recomputing the aggregates *)

Lemma filterM_other_reviewer (userId : ObjectId) (l : list Feedback) :
  forallb well_formed l = true ->
  filterM (other_reviewer userId) l
  = Ret (filter (fun f => negb (reviewed_by userId f)) l).
Proof.
  induction l as [|f l IH]; simpl; intros H; [reflexivity|].
  apply andb_prop in H as [Hf Hl].
  rewrite (IH Hl). unfold other_reviewer, reviewed_by, well_formed in *.
  destruct (fb_user f) as [u|]; [|discriminate]. simpl.
  destruct (String.eqb u userId); reflexivity.
Qed.

Lemma well_formed_valid (l : list Feedback) :
  forallb well_formed l = true -> forallb valid_feedback l = true.
Proof.
  induction l as [|f l IH]; simpl; intros H; [reflexivity|].
  apply andb_prop in H as [Hf Hl]. rewrite (IH Hl), andb_true_r.
  unfold well_formed in Hf. destruct (fb_user f); [assumption|discriminate].
Qed.

Lemma valid_after_replace (p : Feedback -> bool) (new : Feedback)
      (l : list Feedback) :
  forallb well_formed l = true ->
  valid_feedback new = true ->
  forallb valid_feedback (filter p l ++ [new]) = true.
Proof.
  intros Hl Hn. rewrite forallb_app. simpl. rewrite Hn, andb_true_r.
  apply forallb_forall. intros f Hin. apply filter_In in Hin as [Hin _].
  pose proof (well_formed_valid l Hl) as Hv.
  rewrite forallb_forall in Hv. now apply Hv.
Qed.

Lemma replace_not_longer (userId : ObjectId) (new : Feedback)
      (l : list Feedback) :
  existsb (reviewed_by userId) l = true ->
  (List.length (filter (fun f => negb (reviewed_by userId f)) l ++ [new])
   <= List.length l)%nat.
Proof.
  rewrite length_app. simpl.
  induction l as [|f l IH]; simpl; [discriminate|].
  destruct (reviewed_by userId f) eqn:E; simpl; intros H.
  - pose proof (filter_length_le (fun f => negb (reviewed_by userId f)) l).
    lia.
  - specialize (IH H). lia.
Qed.

Lemma replaced_nonempty (p : Feedback -> bool) (new : Feedback)
      (l : list Feedback) :
  (0 <? Z.of_nat (List.length (filter p l ++ [new]))) = true.
Proof. rewrite length_app. simpl. apply Z.ltb_lt. lia. Qed.

Lemma filterM_other_reviewer_inv (userId : ObjectId) (l kept : list Feedback) :
  filterM (other_reviewer userId) l = Ret kept ->
  kept = filter (fun f => negb (reviewed_by userId f)) l.
Proof.
  revert kept; induction l as [|f l IH]; simpl; intros kept H.
  - now inversion H.
  - unfold other_reviewer, reviewed_by in *.
    destruct (fb_user f) as [u|]; simpl in H; [|discriminate].
    destruct (filterM _ l) as [r|e]; simpl in H; [|discriminate].
    rewrite <- (IH r eq_refl).
    destruct (String.eqb u userId); simpl in *; now inversion H.
Qed.

(** A second submission of a reviewer takes the place of the first. *)
Lemma replace_twice (userId : ObjectId) (new : Feedback)
      (l : list Feedback) :
  reviewed_by userId new = true ->
  filter (fun f => negb (reviewed_by userId f))
         (filter (fun f => negb (reviewed_by userId f)) l ++ [new])
  = filter (fun f => negb (reviewed_by userId f)) l.
Proof.
  intros Hnew. rewrite filter_app. simpl. rewrite Hnew. simpl.
  rewrite app_nil_r.
  induction l as [|f l IH]; simpl; [reflexivity|].
  destruct (negb (reviewed_by userId f)) eqn:E; simpl; rewrite ?E, IH;
    reflexivity.
Qed.

(** What [addFeedback] returns when it returns: the document saved with
    the reviewer's entries replaced. *)
Lemma Initiative_addFeedback_inv (userId : ObjectId) (rating : Number)
      (comment : option string) (this this' : Initiative.t) :
  Initiative.addFeedback userId rating comment this = Ret this' ->
  let fb := (filter (fun f => negb (reviewed_by userId f))
                    (Initiative.feedback this)
             ++ [mkFeedback (Some userId) rating comment])%list in
  forallb valid_feedback fb = true
  /\ this' = Initiative.set_ratings
               (Number_mean (map fb_rating fb)) (Z.of_nat (List.length fb))
               (Initiative.set_feedback fb this).
Proof.
  intros H fb. unfold Initiative.addFeedback in H.
  destruct (filterM _ (Initiative.feedback this)) as [kept|e] eqn:Hk;
    simpl in H; [|discriminate].
  apply filterM_other_reviewer_inv in Hk. subst kept. fold fb in H.
  unfold Initiative.save in H.
  destruct (Initiative.valid _) eqn:Hv; [|discriminate].
  apply Initiative_valid_feedback in Hv. cbn in Hv.
  split; [exact Hv|].
  unfold Initiative.pre_save in H. cbn in H.
  unfold fb in H at 1. rewrite replaced_nonempty in H. fold fb in H.
  inversion H. unfold Number_mean.
  now rewrite length_map, <- reduce_sum_map.
Qed.

Lemma Event_pre_save_aggregates (this : Event.t) :
  (0 < List.length (Event.feedback this))%nat ->
  Event.feedback (Event.pre_save this) = Event.feedback this
  /\ Event.averageRating (Event.pre_save this)
     = Number_mean (map fb_rating (Event.feedback this))
  /\ Event.totalRatings (Event.pre_save this)
     = Z.of_nat (List.length (Event.feedback this))
  /\ Event.attendees (Event.pre_save this) = Event.attendees this
  /\ Event._id (Event.pre_save this) = Event._id this.
Proof.
  intros Hpos. unfold Event.pre_save, Number_mean.
  rewrite length_map, <- reduce_sum_map.
  replace (0 <? Z.of_nat (List.length (Event.feedback this))) with true
    by (symmetry; apply Z.ltb_lt; lia).
  match goal with
  | |- context [if ?b then _ else _] => destruct b
  end; cbn; repeat split; reflexivity.
Qed.

Lemma Event_addFeedback_inv (userId : ObjectId) (rating : Number)
      (comment : option string) (this this' : Event.t) :
  Event.addFeedback userId rating comment this = Ret this' ->
  let fb := (filter (fun f => negb (reviewed_by userId f))
                    (Event.feedback this)
             ++ [mkFeedback (Some userId) rating comment])%list in
  forallb valid_feedback fb = true
  /\ Event.feedback this' = fb
  /\ Event.averageRating this' = Number_mean (map fb_rating fb)
  /\ Event.totalRatings this' = Z.of_nat (List.length fb).
Proof.
  intros H fb. unfold Event.addFeedback in H.
  destruct (filterM _ (Event.feedback this)) as [kept|e] eqn:Hk;
    simpl in H; [|discriminate].
  apply filterM_other_reviewer_inv in Hk. subst kept. fold fb in H.
  unfold Event.save in H.
  destruct (Event.valid _) eqn:Hv; [|discriminate].
  apply Event_valid_feedback in Hv. cbn in Hv.
  split; [exact Hv|].
  inversion H as [E]. clear H E.
  destruct (Event_pre_save_aggregates
              (Event.set_feedback fb (Event.set_feedback
                 (filter (fun f => negb (reviewed_by userId f))
                         (Event.feedback this)) this)))
    as (F & A & T & _).
  { cbn. unfold fb. rewrite length_app. simpl. lia. }
  cbn in F, A, T. repeat split; assumption.
Qed.

(** The aggregates of a document saved with the feedback [fb]. *)
Lemma aggregates_recomputed (userId : ObjectId) (rating : Number)
      (comment : option string) (before : list Feedback) :
  let fb := (filter (fun f => negb (reviewed_by userId f)) before
             ++ [mkFeedback (Some userId) rating comment])%list in
  forallb valid_feedback fb = true ->
  ((forall f, In f fb -> whole (fb_rating f)) ->
   Z.of_nat (List.length fb) < 2 ^ 50 ->
   Number_mean (map fb_rating fb)
   = binary64 (mean (map (fun f => value (fb_rating f)) fb)))
  /\ (existsb (reviewed_by userId) before = true ->
      Z.of_nat (List.length fb) <= Z.of_nat (List.length before)).
Proof.
  intros fb Hv. split.
  - intros Hw Hlen. rewrite <- (map_map fb_rating value).
    apply Number_mean_whole.
    + intros x Hx. apply in_map_iff in Hx as (f & <- & Hf). now apply Hw.
    + now apply valid_feedback_ratings.
    + rewrite length_map. unfold fb. rewrite length_app. simpl. lia.
    + now rewrite length_map.
  - intros Hex. apply Nat2Z.inj_le, replace_not_longer, Hex.
Qed.

(** C1. For an Initiative and for an Event alike: every [addFeedback]
    followed by a successful [save] replaces the entries of the submitting
    user by the one new entry and leaves [averageRating] equal to the mean
    of the ratings now stored, their sum divided by their number as
    Numbers, which for whole-number ratings is the binary64 value nearest
    to the arithmetic mean, and [totalRatings] equal to their number; when
    the user already had an entry, that number does not grow, and a second
    submission of the same user leaves [totalRatings] as it is; and on a
    valid document whose entries name their reviewers the submission is
    saved. *)
Theorem addFeedback_recomputes_aggregates :
  feedback_contract Initiative.feedback Initiative.averageRating
                    Initiative.totalRatings Initiative.valid
                    Initiative.addFeedback
  /\ feedback_contract Event.feedback Event.averageRating
                       Event.totalRatings Event.valid Event.addFeedback.
Proof.
  split; split.
  - (* Initiative: what a saved submission leaves *)
    intros userId rating comment this this' H.
    destruct (Initiative_addFeedback_inv _ _ _ _ _ H) as [Hv ->].
    destruct (aggregates_recomputed userId rating comment
                (Initiative.feedback this) Hv) as [Hwhole Hcount].
    cbn. split; [reflexivity|]. split; [reflexivity|].
    split; [exact Hwhole|]. split; [reflexivity|]. split; [exact Hcount|].
    intros rating' comment' this'' H'.
    destruct (Initiative_addFeedback_inv _ _ _ _ _ H') as [_ ->].
    cbn. rewrite replace_twice
      by (unfold reviewed_by; cbn [fb_user]; apply String.eqb_refl).
    now rewrite !length_app.
  - (* Initiative: a submission to a valid document is saved *)
    intros userId rating comment this Hvalid Hwf Hnew.
    unfold Initiative.addFeedback.
    rewrite (filterM_other_reviewer userId _ Hwf). simpl.
    unfold Initiative.save.
    rewrite Initiative_valid_set_feedback;
      [eexists; reflexivity| |now apply valid_after_replace].
    now apply Initiative_valid_set_feedback;
      [|apply forallb_forall; intros f Hf; apply filter_In in Hf as [Hf _];
        pose proof (well_formed_valid _ Hwf) as V;
        rewrite forallb_forall in V; apply V].
  - (* Event: the hook goes on to the engagement rate *)
    intros userId rating comment this this' H.
    destruct (Event_addFeedback_inv _ _ _ _ _ H) as (Hv & Hfb & Havg & Hn).
    destruct (aggregates_recomputed userId rating comment
                (Event.feedback this) Hv) as [Hwhole Hcount].
    rewrite Hfb, Havg, Hn.
    split; [reflexivity|]. split; [reflexivity|].
    split; [exact Hwhole|]. split; [reflexivity|]. split; [exact Hcount|].
    intros rating' comment' this'' H'.
    destruct (Event_addFeedback_inv _ _ _ _ _ H') as (_ & _ & _ & ->).
    rewrite Hfb, replace_twice by (unfold reviewed_by; cbn [fb_user]; apply String.eqb_refl).
    now rewrite !length_app.
  - intros userId rating comment this Hvalid Hwf Hnew.
    unfold Event.addFeedback.
    rewrite (filterM_other_reviewer userId _ Hwf). simpl.
    unfold Event.save.
    rewrite Event_valid_set_feedback;
      [eexists; reflexivity| |now apply valid_after_replace].
    now apply Event_valid_set_feedback;
      [|apply forallb_forall; intros f Hf; apply filter_In in Hf as [Hf _];
        pose proof (well_formed_valid _ Hwf) as V;
        rewrite forallb_forall in V; apply V].
Qed.

Lemma addFeedback_recomputes_aggregates_witness :
  Initiative.valid garden = true
  /\ forallb well_formed (Initiative.feedback garden) = true
  /\ valid_feedback (mkFeedback (Some bob_id) (Finite 2) None) = true
  /\ exists this', Initiative.addFeedback bob_id (Finite 2) None garden
                   = Ret this'.
Proof.
  split; [reflexivity|]. split; [reflexivity|]. split; [reflexivity|].
  apply (proj2 (proj1 addFeedback_recomputes_aggregates)); reflexivity.
Defined.

(** Bob rates the garden again: his 4 becomes a 2, the count stays 2 and
    the average is (5 + 2) / 2. *)
Example garden_rated_again :
  match Initiative.addFeedback bob_id (Finite 2) None garden with
  | Ret this' =>
      map fb_user (Initiative.feedback this') = [Some carol_id; Some bob_id]
      /\ Initiative.totalRatings this' = 2
      /\ Initiative.averageRating this' = Finite (7 # 2)
  | Throw _ => False
  end.
Proof. vm_compute. repeat split. Qed.

(** Alice adds a 4 to Bob's 4 and Carol's 5: the average is the Number
    4.333333333333333, the binary64 value nearest to 13/3. *)
Example garden_rated_by_three :
  match Initiative.addFeedback alice_id (Finite 4) None garden with
  | Ret this' =>
      Initiative.totalRatings this' = 3
      /\ Initiative.averageRating this'
         = Finite (4878899596318037 # 1125899906842624)
      /\ Initiative.averageRating this' = binary64 (13 # 3)
  | Throw _ => False
  end.
Proof. vm_compute. repeat split. Qed.

(** A stored document that fails a validator is not saved: with a status
    outside the enumeration the submission is rejected. *)
Example invalid_document_not_saved :
  Initiative.addFeedback bob_id (Finite 2) None
    (Initiative.mk garden_id "Community garden" "Environment" "Riverside"
                   (Some alice_id) [alice_id] [] "bogus" (Finite 0)
                   (Initiative.mkMetrics (Finite 0) (Finite 0) (Finite 0)
                                         (Finite 0) (Finite 0))
                   two_reviews (Finite (9 # 2)) 2 true 1000)
  = Throw ValidationError.
Proof. reflexivity. Qed.

(* ------------------------------------------------------------------ *)
(** ** Ownership checks of update and delete *)

Lemma not_eqb (a b : string) : a <> b -> negb (String.eqb a b) = true.
Proof. intros H. apply negb_true_iff, String.eqb_neq, H. Qed.



(** The owner's update, for contrast, goes through. *)
Example owner_update_applies :
  let renamed :=
    Initiative.mk garden_id "Parking lot" "Environment" "Riverside"
                  (Some alice_id) [alice_id] [] "active" (Finite 0)
                  (Initiative.mkMetrics (Finite 1000) (Finite 250)
                                        (Finite 5000) (Finite 7) (Finite 40))
                  two_reviews (Finite (9 # 2)) 2 true 1000 in
  InitiativeRoutes.put castHex string rename_initiative garden_id alice
                       "Parking lot" [garden]
  = (Json (Some renamed), [renamed]).
Proof. reflexivity. Qed.


(** The admin Dave is answered 500 on that document, too. *)
Example admin_request_on_document_without_creator :
  InitiativeRoutes.delete castHex garden_id dave [abandoned_garden]
  = (Failed 500 "Server error", [abandoned_garden]).
Proof. reflexivity. Qed.

(* ------------------------------------------------------------------ *)
(** ** Authentication and the role wrappers *)

Section AuthFacts.

Variable castObjectId : string -> option ObjectId.
Variable jwt_verify : string -> Exc string.
Variable A : Type.
Variable users : list User.t.
Variable authorization : option string.

Lemma has_token (token : string) :
  Auth.token_of authorization = Some token ->
  token <> "" ->
  Auth.no_token (Auth.token_of authorization) = false.
Proof.
  intros Ht Hne. rewrite Ht. simpl. now apply String.eqb_neq.
Qed.

Lemma auth_unauthenticated (next : User.t -> Reply A) :
  Unauthenticated castObjectId jwt_verify users authorization ->
  exists message : string,
    Auth.auth castObjectId jwt_verify A users authorization next
    = Failed 401 message.
Proof.
  intros [Hmissing | token e Ht Hne Hv | token subject Ht Hne Hv Hnone];
    unfold Auth.auth.
  - rewrite Hmissing. simpl. eauto.
  - rewrite (has_token token Ht Hne), Ht, Hv. simpl. eauto.
  - rewrite (has_token token Ht Hne), Ht, Hv. simpl.
    destruct (User.findById castObjectId subject users) as [[u|]|e] eqn:Hu;
      simpl; eauto.
    now destruct (Hnone u).
Qed.

Lemma auth_authenticated (next : User.t -> Reply A) (token subject : string)
      (user : User.t) :
  Auth.token_of authorization = Some token ->
  token <> "" ->
  jwt_verify token = Ret subject ->
  User.findById castObjectId subject users = Ret (Some user) ->
  Auth.auth castObjectId jwt_verify A users authorization next = next user.
Proof.
  intros Ht Hne Hv Hu. unfold Auth.auth.
  rewrite (has_token token Ht Hne), Ht, Hv. simpl. now rewrite Hu.
Qed.

End AuthFacts.

(** C6. A request with no token, with a token that [jwt.verify] rejects
    (invalid or expired) or with a token whose subject is no user record is
    answered with status 401 by [auth], [adminAuth] and [moderatorAuth]
    alike, whatever the handler is; when the token resolves to a user,
    [auth] runs the handler on that user, [adminAuth] runs it only for role
    'admin' and answers 403 otherwise, and [moderatorAuth] runs it only for
    roles 'admin' and 'moderator' and answers 403 otherwise. *)
Theorem auth_guards_the_handler
        (castObjectId : string -> option ObjectId)
        (jwt_verify : string -> Exc string) (A : Type)
        (users : list User.t) (authorization : option string) :
  (Unauthenticated castObjectId jwt_verify users authorization ->
   forall next : User.t -> Reply A,
     (exists message,
         Auth.auth castObjectId jwt_verify A users authorization next
         = Failed 401 message)
     /\ (exists message,
            Auth.adminAuth castObjectId jwt_verify A users authorization next
            = Failed 401 message)
     /\ (exists message,
            Auth.moderatorAuth castObjectId jwt_verify A users authorization
                               next
            = Failed 401 message))
  /\ (forall (token subject : string) (user : User.t),
         Auth.token_of authorization = Some token ->
         token <> "" ->
         jwt_verify token = Ret subject ->
         User.findById castObjectId subject users = Ret (Some user) ->
         forall next : User.t -> Reply A,
           Auth.auth castObjectId jwt_verify A users authorization next
           = next user
           /\ Auth.adminAuth castObjectId jwt_verify A users authorization next
              = (if String.eqb (User.role user) "admin" then next user
                 else Failed 403 "Access denied. Admin only.")
           /\ Auth.moderatorAuth castObjectId jwt_verify A users authorization
                                 next
              = (if String.eqb (User.role user) "admin"
                    || String.eqb (User.role user) "moderator"
                 then next user
                 else Failed 403 "Access denied. Moderator or admin only.")).
Proof.
  split.
  - intros Hun next. unfold Auth.adminAuth, Auth.moderatorAuth. simpl.
    repeat split; apply auth_unauthenticated, Hun.
  - intros token subject user Ht Hne Hv Hu next.
    unfold Auth.adminAuth, Auth.moderatorAuth. simpl.
    rewrite !(auth_authenticated castObjectId jwt_verify A users authorization
                                 _ token subject user Ht Hne Hv Hu).
    repeat split.
    + now destruct (String.eqb (User.role user) "admin").
    + now destruct (String.eqb (User.role user) "admin"),
                   (String.eqb (User.role user) "moderator").
Qed.

Lemma auth_guards_the_handler_witness :
  Unauthenticated castHex sample_verify some_users (Some "Bearer stale-token")
  /\ (exists message,
         Auth.adminAuth castHex sample_verify string some_users
                        (Some "Bearer stale-token") (fun u => Json (User.name u))
         = Failed 401 message)
  /\ Auth.token_of (Some "Bearer alice-token") = Some "alice-token"
  /\ "alice-token" <> ""
  /\ sample_verify "alice-token" = Ret alice_id
  /\ User.findById castHex alice_id some_users = Ret (Some alice)
  /\ Auth.adminAuth castHex sample_verify string some_users
                    (Some "Bearer alice-token") (fun u => Json (User.name u))
     = Failed 403 "Access denied. Admin only.".
Proof.
  assert (Hstale : Unauthenticated castHex sample_verify some_users
                                   (Some "Bearer stale-token")).
  { apply (Rejected_token _ _ _ _ "stale-token" JwtError);
      [reflexivity | discriminate | reflexivity]. }
  assert (Ht : Auth.token_of (Some "Bearer alice-token") = Some "alice-token")
    by reflexivity.
  assert (Hne : "alice-token" <> "") by discriminate.
  assert (Hv : sample_verify "alice-token" = Ret alice_id) by reflexivity.
  assert (Hu : User.findById castHex alice_id some_users = Ret (Some alice))
    by reflexivity.
  split; [exact Hstale|].
  split.
  { exact (proj1 (proj2 (proj1 (auth_guards_the_handler
             castHex sample_verify string some_users
             (Some "Bearer stale-token")) Hstale
             (fun u => Json (User.name u))))). }
  split; [exact Ht|]. split; [exact Hne|]. split; [exact Hv|].
  split; [exact Hu|].
  exact (proj1 (proj2 (proj2 (auth_guards_the_handler
           castHex sample_verify string some_users
           (Some "Bearer alice-token")) "alice-token" alice_id alice
           Ht Hne Hv Hu (fun u => Json (User.name u))))).
Defined.

(** The four outcomes on the sample users. *)
Example auth_outcomes :
  Auth.auth castHex sample_verify string some_users None
            (fun u => Json (User.name u))
  = Failed 401 "No token, authorization denied"
  /\ Auth.auth castHex sample_verify string some_users
               (Some "Bearer ghost-token") (fun u => Json (User.name u))
     = Failed 401 "Token is not valid"
  /\ Auth.moderatorAuth castHex sample_verify string some_users
                        (Some "Bearer alice-token")
                        (fun u => Json (User.name u))
     = Failed 403 "Access denied. Moderator or admin only."
  /\ Auth.adminAuth castHex sample_verify string some_users
                    (Some "Bearer dave-token") (fun u => Json (User.name u))
     = Json "Dave".
Proof. repeat split. Qed.

(* ------------------------------------------------------------------ *)
(** ** Pagination *)

Lemma length_insert_desc {A : Type} (key : A -> Z) (x : A) (l : list A) :
  List.length (insert_desc key x l) = S (List.length l).
Proof.
  induction l as [|y l IH]; simpl; [reflexivity|].
  destruct (key y <=? key x); simpl; [reflexivity | now rewrite IH].
Qed.

Lemma length_sort_desc {A : Type} (key : A -> Z) (l : list A) :
  List.length (sort_desc key l) = List.length l.
Proof.
  induction l as [|x l IH]; simpl; [reflexivity|].
  unfold sort_desc in *. simpl. now rewrite length_insert_desc, IH.
Qed.

Lemma ceil_div_opp (a b : Z) : 0 < b -> (- (- a / b))%Z = ceil_div a b.
Proof.
  intros Hb. unfold ceil_div.
  apply (Z.div_unique _ _ _ (b - 1 - (- a) mod b)).
  - left. pose proof (Z.mod_pos_bound (- a) b Hb). lia.
  - pose proof (Z.div_mod (- a) b). lia.
Qed.

Lemma Math_ceil_js_div (total limit : Z) :
  0 < limit ->
  Math_ceil (js_div total limit) = Finite (inject_Z (ceil_div total limit)).
Proof.
  intros Hl. unfold js_div.
  destruct (limit =? 0) eqn:E; [apply Z.eqb_eq in E; lia|].
  simpl. do 2 f_equal. unfold Qceiling.
  rewrite <- (ceil_div_opp _ _ Hl). f_equal.
  rewrite Zdiv_Qdiv. apply Qfloor_comp.
  rewrite inject_Z_opp. unfold Qdiv. ring.
Qed.

Lemma paginate_spec {A : Type} (all : list A) (page limit total : Z) :
  1 <= page ->
  0 < limit ->
  total = Z.of_nat (List.length all) ->
  exists found : list A,
    exec_cursor all (limit * 1) ((page - 1) * limit) = Ret found
    /\ paginated all page limit
                 (mkPage found (Math_ceil (js_div total limit)) page total).
Proof.
  intros Hp Hl Ht. unfold exec_cursor.
  destruct ((page - 1) * limit <? 0) eqn:Eskip; [apply Z.ltb_lt in Eskip; nia|].
  destruct (limit * 1 =? 0) eqn:Elim; [apply Z.eqb_eq in Elim; lia|].
  eexists. split; [reflexivity|].
  replace (Z.abs (limit * 1)) with limit by lia.
  unfold paginated; simpl.
  split; [reflexivity|]. split.
  - pose proof (firstn_le_length (Z.to_nat limit)
                  (skipn (Z.to_nat ((page - 1) * limit)) all)). lia.
  - split; [now apply Math_ceil_js_div|]. split; [reflexivity | exact Ht].
Qed.

Lemma second_page_of_25 {A : Type} (all : list A) (p : Page A) :
  paginated all 2 10 p ->
  List.length all = 25%nat ->
  List.length (items p) = 10%nat
  /\ (forall i : nat,
         (i < 10)%nat -> nth_error (items p) i = nth_error all (10 + i))
  /\ totalPages p = Finite 3.
Proof.
  intros (Hitems & _ & Hpages & _ & Htotal) Hlen.
  change (Z.to_nat ((2 - 1) * 10)) with 10%nat in Hitems.
  change (Z.to_nat 10) with 10%nat in Hitems.
  split; [|split].
  - rewrite Hitems, length_firstn, length_skipn, Hlen. reflexivity.
  - intros i Hi. rewrite Hitems, nth_error_firstn, nth_error_skipn.
    apply Nat.ltb_lt in Hi. now rewrite Hi.
  - rewrite Hpages, Htotal, Hlen. reflexivity.
Qed.

(** C7. The initiative listing and the message inbox, for a 1-based page
    number and a positive page size (given or defaulted): the response
    skips (page - 1) * limit matching records and returns the next ones, at
    most limit of them, with totalPages = ceil(total / limit), the page
    number and the total; with limit 10 and page 2 over 25 matching
    records it returns the 11th to the 20th and totalPages = 3. The
    listing answers so for every location filter the store accepts; a
    location text that the store rejects as a regular expression is
    answered with status 500. *)
Theorem listing_is_paginated :
  (forall (regexMatch : string -> option (string -> bool))
          (textSearch : string -> Initiative.t -> bool)
          (q : InitiativeRoutes.ListQuery)
          (initiatives : InitiativeRoutes.Store),
      1 <= param_or 1 (InitiativeRoutes.q_page q) ->
      0 < param_or 10 (InitiativeRoutes.q_limit q) ->
      match InitiativeRoutes.location_filter regexMatch q with
      | Ret byLocation =>
          exists p : Page Initiative.t,
            InitiativeRoutes.get_all regexMatch textSearch q initiatives
            = Json p
            /\ paginated
                 (InitiativeRoutes.matching textSearch q byLocation initiatives)
                 (param_or 1 (InitiativeRoutes.q_page q))
                 (param_or 10 (InitiativeRoutes.q_limit q)) p
      | Throw _ =>
          InitiativeRoutes.get_all regexMatch textSearch q initiatives
          = Failed 500 "Server error"
      end)
  /\ (forall (user : User.t) (page limit : option Z)
             (unreadOnly : option string) (messages : MessageRoutes.Store),
         1 <= param_or 1 page ->
         0 < param_or 20 limit ->
         exists p : Page Message.t,
           MessageRoutes.inbox user page limit unreadOnly messages = Json p
           /\ paginated
                (sort_desc Message.createdAt
                   (filter (MessageRoutes.in_inbox user unreadOnly) messages))
                (param_or 1 page) (param_or 20 limit) p)
  /\ (forall (A : Type) (all : list A) (p : Page A),
         paginated all 2 10 p ->
         List.length all = 25%nat ->
         List.length (items p) = 10%nat
         /\ (forall i : nat,
                (i < 10)%nat -> nth_error (items p) i = nth_error all (10 + i))
         /\ totalPages p = Finite 3).
Proof.
  split; [|split].
  - intros regexMatch textSearch q initiatives Hp Hl.
    unfold InitiativeRoutes.get_all.
    destruct (InitiativeRoutes.location_filter regexMatch q)
      as [byLocation|e]; [|reflexivity].
    destruct (paginate_spec
                (InitiativeRoutes.matching textSearch q byLocation initiatives)
                _ _
                (Z.of_nat (List.length
                   (filter (InitiativeRoutes.matches textSearch q byLocation)
                           initiatives)))
                Hp Hl) as (found & Hfound & Hpage).
    { unfold InitiativeRoutes.matching. now rewrite length_sort_desc. }
    cbn [bind]. rewrite Hfound. simpl. eauto.
  - intros user page limit unreadOnly messages Hp Hl.
    unfold MessageRoutes.inbox.
    destruct (paginate_spec
                (sort_desc Message.createdAt
                   (filter (MessageRoutes.in_inbox user unreadOnly) messages))
                _ _
                (Z.of_nat (List.length
                   (filter (MessageRoutes.in_inbox user unreadOnly) messages)))
                Hp Hl) as (found & Hfound & Hpage).
    { now rewrite length_sort_desc. }
    rewrite Hfound. simpl. eauto.
  - intros A all p. apply second_page_of_25.
Qed.

Lemma listing_is_paginated_witness :
  1 <= param_or 1 (Some 2)
  /\ 0 < param_or 20 (Some 10)
  /\ exists p : Page Message.t,
      MessageRoutes.inbox bob (Some 2) (Some 10) None twenty_five = Json p
      /\ paginated
           (sort_desc Message.createdAt
              (filter (MessageRoutes.in_inbox bob None) twenty_five))
           2 10 p.
Proof.
  split; [simpl; lia|]. split; [simpl; lia|].
  apply (proj1 (proj2 listing_is_paginated) bob (Some 2) (Some 10) None
               twenty_five); simpl; lia.
Defined.

(** Page 2 of Bob's inbox of 25, newest first, holds the messages numbered
    15 down to 6: the 11th to the 20th. *)
Example second_page_of_inbox :
  match MessageRoutes.inbox bob (Some 2) (Some 10) None twenty_five with
  | Json p =>
      map Message.createdAt (items p) = [15; 14; 13; 12; 11; 10; 9; 8; 7; 6]
      /\ totalPages p = Finite 3
      /\ currentPage p = 2
      /\ total p = 25
  | _ => False
  end.
Proof. vm_compute. repeat split. Qed.

(** C7 as stated, with a page for every listing query, fails on a query
    whose location is no regular expression: with the default page 1 and
    page size 10 the request is answered 500 and with no page, where the
    garden is stored and public. *)
Lemma listing_with_bad_pattern :
  1 <= param_or 1 (InitiativeRoutes.q_page bad_pattern_query)
  /\ 0 < param_or 10 (InitiativeRoutes.q_limit bad_pattern_query)
  /\ sample_regex "(" = None
  /\ InitiativeRoutes.get_all sample_regex (fun _ _ => true)
                              bad_pattern_query [garden]
     = Failed 500 "Server error"
  /\ ~ (exists p : Page Initiative.t,
          InitiativeRoutes.get_all sample_regex (fun _ _ => true)
                                   bad_pattern_query [garden]
          = Json p).
Proof.
  split; [vm_compute; discriminate|]. split; [reflexivity|].
  split; [reflexivity|]. split; [reflexivity|].
  intros [p H]. discriminate H.
Qed.

(* ------------------------------------------------------------------ *)
(** ** Sending a message *)

Lemma app_one_neq {A : Type} (l : list A) (x : A) : (l ++ [x])%list <> l.
Proof.
  intros H. apply (f_equal (@List.length A)) in H.
  rewrite length_app in H. simpl in H. lia.
Qed.

(** What the guard does establish: a request whose recipient text is the
    text of the sender's identifier (the sender being a user the store
    resolves, as [auth] established) is answered with status 400 and adds
    no message; and whenever a request adds a message, its recipient text
    resolves to a user record and is not the text of the sender's
    identifier. *)
Lemma send_guard
      (castObjectId : string -> option ObjectId) (newId : ObjectId)
      (now : Date) (user : User.t) (body : MessageRoutes.SendBody)
      (users : list User.t) (messages : MessageRoutes.Store) :
  let result :=
    MessageRoutes.send castObjectId newId now user body users messages in
  (forall found : User.t,
      User.findById castObjectId (User.id user) users = Ret (Some found) ->
      MessageRoutes.b_recipient body = User.id user ->
      status (fst result) = 400 /\ snd result = messages)
  /\ (snd result <> messages ->
      (exists recipient : User.t,
          User.findById castObjectId (MessageRoutes.b_recipient body) users
          = Ret (Some recipient))
      /\ MessageRoutes.b_recipient body <> User.id user).
Proof.
  intros result; subst result; unfold MessageRoutes.send.
  destruct (negb (List.length (MessageRoutes.validationResult body) =? 0)%nat).
  - split; [now intros | intros H; now destruct H].
  - split.
    + intros found Hfound Hself. rewrite Hself, Hfound. simpl.
      rewrite String.eqb_refl. simpl. now split.
    + destruct (User.findById castObjectId (MessageRoutes.b_recipient body)
                              users) as [[recipient|]|e] eqn:Hr;
        simpl; try (intros H; now destruct H).
      destruct (String.eqb (MessageRoutes.b_recipient body) (User.id user))
        eqn:Hself; simpl; [intros H; now destruct H|].
      intros _. split; [eauto | now apply String.eqb_neq].
Qed.

(** Bob's request with his own identifier, as [req.user.id] spells it, is
    refused. *)
Example send_to_own_id :
  MessageRoutes.send castHex "64b7f0c2a1d3e45f67890d02" 2000 bob
    (MessageRoutes.mkSendBody bob_id "Note" "To myself" None None None None)
    some_users [hello]
  = (Failed 400 "Cannot send message to yourself", [hello]).
Proof. vm_compute. reflexivity. Qed.

(** A message to somebody else is stored, its subject trimmed. *)
Example send_to_alice :
  MessageRoutes.send castHex "64b7f0c2a1d3e45f67890d02" 2000 bob
    (MessageRoutes.mkSendBody alice_id "  Thanks " "It went well"
                              None (Some "high") None None)
    some_users [hello]
  = let sent := Message.mk "64b7f0c2a1d3e45f67890d02" bob_id alice_id None None
                           "Thanks" "It went well" false None
                           "personal" "high" 2000 in
    (Json sent, [hello; sent]).
Proof. vm_compute. reflexivity. Qed.

(** C10. The guard against a message to oneself compares the text of the
    request with the text of the sender's identifier. Bob sends a message
    whose recipient is his own identifier written in upper case: the
    validator accepts it, the store resolves it to Bob, the texts differ,
    and the request is answered with status 200; the stored message has
    Bob as sender and as recipient. *)
Theorem send_to_own_id_in_upper_case :
  let result :=
    MessageRoutes.send castHex "64b7f0c2a1d3e45f67890d02" 2000 bob
      (MessageRoutes.mkSendBody "64B7F0C2A1D3E45F67890A02" "Note" "To myself"
                                None None None None)
      some_users [hello] in
  castHex "64B7F0C2A1D3E45F67890A02" = Some (User.id bob)
  /\ status (fst result) = 200
  /\ map Message.sender (snd result) = [alice_id; bob_id]
  /\ map Message.recipient (snd result) = [bob_id; bob_id].
Proof. vm_compute. repeat split. Qed.

(* ------------------------------------------------------------------ *)
(** ** Attending an event *)

Lemma findIndex_from_found {A : Type} (f : A -> bool) (l : list A) (i : Z) :
  existsb f l = true -> i <= findIndex_from f l i.
Proof.
  revert i; induction l as [|x l IH]; simpl; intros i H; [discriminate|].
  destruct (f x); [lia|]. specialize (IH (i + 1) H). lia.
Qed.


(** A second attend by the same user is refused and changes nothing. *)
Lemma attend_again_refused (castObjectId : string -> option ObjectId)
      (id : string) (user : User.t) (events : EventRoutes.Store)
      (event : Event.t) :
  EventRoutes.findById castObjectId id events = Ret (Some event) ->
  existsb (fun attendee => String.eqb attendee (User.id user))
          (Event.attendees event) = true ->
  EventRoutes.attend castObjectId id user events
  = (Failed 400 "Already attending this event", events).
Proof.
  intros Hfound Hin. unfold EventRoutes.attend. rewrite Hfound. simpl.
  pose proof (findIndex_from_found _ _ 0 Hin) as Hidx.
  unfold findIndex.
  replace (_ >? -1) with true; [reflexivity|].
  symmetry. rewrite Z.gtb_ltb. apply Z.ltb_lt. lia.
Qed.

(** No event is ever full: the limit the handler reads is undefined on
    every document. *)
Lemma attend_never_full (castObjectId : string -> option ObjectId)
      (id : string) (user : User.t) (events : EventRoutes.Store) :
  fst (EventRoutes.attend castObjectId id user events)
  <> Failed 400 "Event is full".
Proof.
  unfold EventRoutes.attend, EventRoutes.is_full, Event.maxAttendees.
  destruct (EventRoutes.findById castObjectId id events) as [[event|]|e];
    simpl; try discriminate.
  destruct (findIndex _ _ >? -1); simpl; [discriminate|].
  destruct (Event.save _); simpl; discriminate.
Qed.

(** C2. Alice creates an event with [maxAttendees] 1 and is its first
    attendee. Bob and then Carol ask to attend; each request is answered
    with status 200 and the event ends with three attendees. The same
    happens on the sample event, whose declared capacity is 1. *)
Theorem attend_exceeds_capacity :
  let created := EventRoutes.create sample_castDate picnic_id alice
                                    picnic_body [] in
  let first := EventRoutes.attend castHex picnic_id bob (snd created) in
  let second := EventRoutes.attend castHex picnic_id carol (snd first) in
  let third := EventRoutes.attend castHex cleanup_id bob [cleanup] in
  let fourth := EventRoutes.attend castHex cleanup_id carol (snd third) in
  EventRoutes.c_maxAttendees picnic_body = Some 1
  /\ status (fst created) = 200
  /\ map Event.attendees (snd created) = [[alice_id]]
  /\ status (fst first) = 200
  /\ status (fst second) = 200
  /\ map Event.attendees (snd second) = [[alice_id; bob_id; carol_id]]
  /\ map Event.capacity [cleanup] = [1]
  /\ status (fst third) = 200
  /\ status (fst fourth) = 200
  /\ map Event.attendees (snd fourth) = [[alice_id; bob_id; carol_id]].
Proof. vm_compute. repeat split. Qed.

(* ------------------------------------------------------------------ *)
(** ** Joining an initiative *)

Lemma findM_member_user_throws (user : User.t) (member : ObjectId)
      (members : list ObjectId) :
  findM (fun member =>
           s <- toString (InitiativeRoutes.member_user member) ;;
           Ret (String.eqb s (User.id user)))
        (member :: members)
  = Throw TypeError.
Proof. reflexivity. Qed.

(** Every join request is answered 404 or 500 and changes nothing. *)
Lemma join_never_succeeds (castObjectId : string -> option ObjectId)
      (id : string) (user : User.t) (role : option string)
      (initiatives : InitiativeRoutes.Store) :
  InitiativeRoutes.join castObjectId id user role initiatives
  = (Failed 404 "Initiative not found", initiatives)
  \/ InitiativeRoutes.join castObjectId id user role initiatives
     = (Failed 500 "Server error", initiatives).
Proof.
  unfold InitiativeRoutes.join.
  destruct (InitiativeRoutes.findById castObjectId id initiatives)
    as [[initiative|]|e]; simpl; auto.
  destruct (Initiative.members initiative) as [|member members]; simpl; auto.
Qed.

(** C3. The sample initiative has its creator Alice as its one member. A
    join request by Alice, who is a member, is answered with status 500,
    not 400; a join request by Bob, who is not, is answered with status 500
    as well and adds no entry. *)
Theorem join_answers_server_error :
  Initiative.members garden = [alice_id]
  /\ InitiativeRoutes.join castHex garden_id alice None [garden]
     = (Failed 500 "Server error", [garden])
  /\ InitiativeRoutes.join castHex garden_id bob (Some "volunteer") [garden]
     = (Failed 500 "Server error", [garden]).
Proof. repeat split. Qed.

(* ------------------------------------------------------------------ *)
(** ** Notifications *)

(** Looking up any stored notification by id is a server error, whoever
    asks. *)
Lemma notification_found_is_server_error
      (castObjectId : string -> option ObjectId) (id : string) (user : User.t)
      (notifications : NotificationRoutes.Store) (n : Notification.t) :
  NotificationRoutes.findById castObjectId id notifications = Ret (Some n) ->
  NotificationRoutes.get_by_id castObjectId id user notifications
  = Failed 500 "Server error"
  /\ NotificationRoutes.mark_read castObjectId id user notifications
     = (Failed 500 "Server error", notifications)
  /\ NotificationRoutes.delete castObjectId id user notifications
     = (Failed 500 "Server error", notifications).
Proof.
  intros Hfound.
  unfold NotificationRoutes.get_by_id, NotificationRoutes.mark_read,
    NotificationRoutes.delete.
  rewrite Hfound. repeat split.
Qed.

(** The list is everybody's notifications or nobody's. *)
Lemma notification_list_not_scoped (strictQuery : bool) (user : User.t)
      (notifications : NotificationRoutes.Store) :
  NotificationRoutes.get_all strictQuery user notifications
  = Json (if strictQuery
          then sort_desc Notification.createdAt notifications
          else []).
Proof.
  unfold NotificationRoutes.get_all, NotificationRoutes.user_is.
  destruct strictQuery; f_equal.
  - f_equal. induction notifications as [|n l IH]; simpl; [reflexivity|].
    now rewrite IH.
  - induction notifications as [|n l IH]; simpl; [reflexivity|].
    now rewrite IH.
Qed.

(** C4. The store holds Alice's reminder and Bob's welcome. Alice's
    get-by-id, mark-read and delete of her own reminder are answered with
    status 500, and so is Bob's get-by-id of it, not 404; Alice's list is
    both notifications under [strictQuery] and none without it, and her
    unread count is 2 or 0, where one notification is hers. *)
Theorem notifications_are_not_recipient_scoped :
  Notification.recipient reminder = User.id alice
  /\ Notification.recipient welcome = User.id bob
  /\ NotificationRoutes.get_by_id castHex reminder_id alice [reminder; welcome]
     = Failed 500 "Server error"
  /\ NotificationRoutes.mark_read castHex reminder_id alice [reminder; welcome]
     = (Failed 500 "Server error", [reminder; welcome])
  /\ NotificationRoutes.delete castHex reminder_id alice [reminder; welcome]
     = (Failed 500 "Server error", [reminder; welcome])
  /\ NotificationRoutes.get_by_id castHex reminder_id bob [reminder; welcome]
     = Failed 500 "Server error"
  /\ NotificationRoutes.get_all true alice [reminder; welcome]
     = Json [reminder; welcome]
  /\ NotificationRoutes.get_all false alice [reminder; welcome] = Json []
  /\ NotificationRoutes.unread_count true alice [reminder; welcome] = Json 2
  /\ NotificationRoutes.unread_count false alice [reminder; welcome] = Json 0.
Proof. repeat split. Qed.

(* ------------------------------------------------------------------ *)
(** ** Marking a message read *)

(** The recipient's mark-read stamps the message with the current time,
    read before or not. *)
Lemma mark_read_stamps_now (castObjectId : string -> option ObjectId)
      (now : Date) (id : string) (user : User.t)
      (messages : MessageRoutes.Store) (message : Message.t) :
  MessageRoutes.findById castObjectId id messages = Ret (Some message) ->
  Message.recipient message = User.id user ->
  Message.valid message = true ->
  exists marked : Message.t,
    MessageRoutes.mark_read castObjectId now id user messages
    = (Json marked, MessageRoutes.persist marked messages)
    /\ Message.isRead marked = true
    /\ Message.readAt marked = Some now.
Proof.
  intros Hfound Hrecipient Hvalid. unfold MessageRoutes.mark_read.
  rewrite Hfound. simpl. rewrite Hrecipient, String.eqb_refl. simpl.
  unfold Message.save.
  replace (Message.valid _) with true by (symmetry; exact Hvalid).
  simpl. eexists. split; [reflexivity|]. now split.
Qed.

(** Get-by-id, in contrast, leaves a message that is already read as it
    is. *)
Lemma get_by_id_keeps_read_message (castObjectId : string -> option ObjectId)
      (now : Date) (id : string) (user : User.t) (users : list User.t)
      (messages : MessageRoutes.Store) (message : Message.t) :
  MessageRoutes.findById castObjectId id messages = Ret (Some message) ->
  Message.isRead message = true ->
  snd (MessageRoutes.get_by_id castObjectId now id user users messages)
  = messages.
Proof.
  intros Hfound Hread. unfold MessageRoutes.get_by_id.
  rewrite Hfound. simpl.
  destruct (MessageRoutes.populated_id users (Message.sender message));
    simpl; [|reflexivity].
  destruct (negb (String.eqb a (User.id user))); simpl.
  - destruct (MessageRoutes.populated_id users (Message.recipient message));
      simpl; [|reflexivity].
    destruct (negb (String.eqb a0 (User.id user))); simpl; [reflexivity|].
    rewrite Hread, andb_false_r. reflexivity.
  - destruct (MessageRoutes.populated_id users (Message.recipient message));
      simpl; [|reflexivity].
    rewrite Hread, andb_false_r. reflexivity.
Qed.

(** C8. Bob read the sample message at time 1000. His mark-read request at
    time 2000 is answered with status 200 and leaves the message read at
    2000: [isRead] is unchanged and [readAt] is not. *)
Theorem mark_read_again_moves_readAt :
  let result := MessageRoutes.mark_read castHex 2000 hello_id bob [hello] in
  Message.isRead hello = true
  /\ Message.readAt hello = Some 1000
  /\ status (fst result) = 200
  /\ map Message.isRead (snd result) = [true]
  /\ map Message.readAt (snd result) = [Some 2000].
Proof. repeat split. Qed.

(* ------------------------------------------------------------------ *)
(** ** Sorting and paging: what a listing holds *)

Lemma in_insert_desc {A : Type} (key : A -> Z) (x y : A) (l : list A) :
  In y (insert_desc key x l) <-> y = x \/ In y l.
Proof.
  induction l as [|z l IH]; simpl.
  - intuition.
  - destruct (key z <=? key x); simpl; [intuition|].
    rewrite IH. intuition.
Qed.

Lemma in_sort_desc {A : Type} (key : A -> Z) (y : A) (l : list A) :
  In y (sort_desc key l) <-> In y l.
Proof.
  induction l as [|x l IH]; simpl; [reflexivity|].
  unfold sort_desc in *. simpl. rewrite in_insert_desc, IH. intuition.
Qed.

Lemma descending_insert_desc {A : Type} (key : A -> Z) (x : A) (l : list A) :
  descending key l -> descending key (insert_desc key x l).
Proof.
  induction l as [|z l IH]; simpl; intros H.
  - split; [intros y []|exact I].
  - destruct H as [Hz Hl].
    destruct (key z <=? key x) eqn:E; simpl.
    + apply Z.leb_le in E. split; [|split; assumption].
      intros y [<-|Hy]; [assumption|]. specialize (Hz y Hy). lia.
    + apply Z.leb_gt in E. split; [|now apply IH].
      intros y Hy. apply in_insert_desc in Hy as [->|Hy]; [lia|now apply Hz].
Qed.

Lemma descending_sort_desc {A : Type} (key : A -> Z) (l : list A) :
  descending key (sort_desc key l).
Proof.
  induction l as [|x l IH]; simpl; [exact I|].
  unfold sort_desc in *. simpl. now apply descending_insert_desc.
Qed.

Lemma in_skipn {A : Type} (n : nat) (l : list A) (y : A) :
  In y (skipn n l) -> In y l.
Proof.
  revert l; induction n as [|n IH]; intros [|x l]; simpl; auto.
Qed.

Lemma in_firstn {A : Type} (n : nat) (l : list A) (y : A) :
  In y (firstn n l) -> In y l.
Proof.
  revert l; induction n as [|n IH]; intros [|x l]; simpl; try tauto.
  intros [->|H]; auto.
Qed.

Lemma descending_skipn {A : Type} (key : A -> Z) (n : nat) (l : list A) :
  descending key l -> descending key (skipn n l).
Proof.
  revert l; induction n as [|n IH]; intros [|x l]; simpl; try tauto.
  intros [_ H]. now apply IH.
Qed.

Lemma descending_firstn {A : Type} (key : A -> Z) (n : nat) (l : list A) :
  descending key l -> descending key (firstn n l).
Proof.
  revert l; induction n as [|n IH]; intros [|x l]; simpl; try tauto.
  intros [Hx H]. split; [|now apply IH].
  intros y Hy. apply Hx. revert Hy. apply in_firstn.
Qed.



(** What [exec_cursor] returns is a descending part of what it is given. *)
Lemma exec_cursor_part {A : Type} (key : A -> Z) (sorted found : list A)
      (limit skip : Z) :
  exec_cursor sorted limit skip = Ret found ->
  (forall y, In y found -> In y sorted)
  /\ (descending key sorted -> descending key found).
Proof.
  unfold exec_cursor. destruct (skip <? 0); [discriminate|].
  intros H; inversion H; subst found; clear H.
  destruct (limit =? 0).
  - split; [intros y; apply in_skipn | apply descending_skipn].
  - split.
    + intros y Hy. apply in_firstn in Hy. revert Hy. apply in_skipn.
    + intros Hd. now apply descending_firstn, descending_skipn.
Qed.

Lemma when_given_sound (p : option string) (cond : string -> bool) (v : string) :
  when_given p cond = true -> p = Some v -> v <> "" -> cond v = true.
Proof.
  intros H -> Hne. unfold when_given in H.
  destruct (String.eqb v "") eqn:E; [|assumption].
  apply String.eqb_eq in E. contradiction.
Qed.

(** X1. Whatever the query, every initiative on a page of the listing is
    stored, is public and has the category and the status the query asks
    for, and the page is in descending order of creation time. *)
Theorem listing_shows_public_matches
        (regexMatch : string -> option (string -> bool))
        (textSearch : string -> Initiative.t -> bool)
        (q : InitiativeRoutes.ListQuery)
        (initiatives : InitiativeRoutes.Store) (p : Page Initiative.t) :
  InitiativeRoutes.get_all regexMatch textSearch q initiatives = Json p ->
  (forall d : Initiative.t,
      In d (items p) ->
      In d initiatives
      /\ Initiative.isPublic d = true
      /\ (forall c, InitiativeRoutes.q_category q = Some c -> c <> "" ->
                    Initiative.category d = c)
      /\ (forall st, InitiativeRoutes.q_status q = Some st -> st <> "" ->
                     Initiative.status d = st))
  /\ descending Initiative.createdAt (items p).
Proof.
  unfold InitiativeRoutes.get_all. intros H.
  destruct (InitiativeRoutes.location_filter regexMatch q)
    as [byLocation|e]; [|discriminate].
  cbn [bind] in H.
  destruct (exec_cursor _ _ _) as [found|e] eqn:Hc; simpl in H; [|discriminate].
  inversion H; subst p; clear H. simpl.
  destruct (exec_cursor_part Initiative.createdAt _ _ _ _ Hc) as [Hin Hdesc].
  split.
  - intros d Hd. apply Hin in Hd. unfold InitiativeRoutes.matching in Hd.
    apply in_sort_desc, filter_In in Hd as [Hstored Hm].
    unfold InitiativeRoutes.matches in Hm.
    apply andb_prop in Hm as [Hm _].
    apply andb_prop in Hm as [Hm Hstatus].
    apply andb_prop in Hm as [Hm _].
    apply andb_prop in Hm as [Hpublic Hcategory].
    split; [assumption|]. split; [assumption|]. split.
    + intros c Hq Hne. apply String.eqb_eq.
      exact (when_given_sound _ _ c Hcategory Hq Hne).
    + intros st Hq Hne. apply String.eqb_eq.
      exact (when_given_sound _ _ st Hstatus Hq Hne).
  - apply Hdesc, descending_sort_desc.
Qed.

Lemma listing_shows_public_matches_witness :
  exists p : Page Initiative.t,
    InitiativeRoutes.get_all sample_regex (fun _ _ => true)
      (InitiativeRoutes.mkListQuery (Some "Environment") (Some "riverside")
                                    None None None None)
      [garden; hidden_garden]
    = Json p
    /\ items p = [garden]
    /\ descending Initiative.createdAt (items p).
Proof.
  eexists. split; [reflexivity|]. split; [reflexivity|].
  exact (proj2 (listing_shows_public_matches
                  sample_regex (fun _ _ => true)
                  (InitiativeRoutes.mkListQuery (Some "Environment")
                                                (Some "riverside") None None
                                                None None)
                  [garden; hidden_garden] _ eq_refl)).
Defined.

(** X2. Every message on a page of the inbox is stored and addressed to
    the user, and is unread when only unread messages were asked for;
    every message on a page of the sent list is stored and was sent by the
    user; both pages are in descending order of creation time. *)
Theorem mailboxes_show_own_messages
        (user : User.t) (page limit : option Z) (unreadOnly : option string)
        (messages : MessageRoutes.Store) :
  (forall p : Page Message.t,
      MessageRoutes.inbox user page limit unreadOnly messages = Json p ->
      (forall m : Message.t,
          In m (items p) ->
          In m messages
          /\ Message.recipient m = User.id user
          /\ (unreadOnly = Some "true" -> Message.isRead m = false))
      /\ descending Message.createdAt (items p))
  /\ (forall p : Page Message.t,
         MessageRoutes.sent user page limit messages = Json p ->
         (forall m : Message.t,
             In m (items p) ->
             In m messages /\ Message.sender m = User.id user)
         /\ descending Message.createdAt (items p)).
Proof.
  split; intros p H.
  - unfold MessageRoutes.inbox in H.
    destruct (exec_cursor _ _ _) as [found|e] eqn:Hc; simpl in H;
      [|discriminate].
    inversion H; subst p; clear H. simpl.
    destruct (exec_cursor_part Message.createdAt _ _ _ _ Hc) as [Hin Hdesc].
    split; [|apply Hdesc, descending_sort_desc].
    intros m Hm. apply Hin, in_sort_desc, filter_In in Hm as [Hstored Hbox].
    unfold MessageRoutes.in_inbox in Hbox.
    apply andb_prop in Hbox as [Hto Hunread].
    split; [assumption|]. split; [now apply String.eqb_eq|].
    intros ->. simpl in Hunread. now apply negb_true_iff.
  - unfold MessageRoutes.sent in H.
    destruct (exec_cursor _ _ _) as [found|e] eqn:Hc; simpl in H;
      [|discriminate].
    inversion H; subst p; clear H. simpl.
    destruct (exec_cursor_part Message.createdAt _ _ _ _ Hc) as [Hin Hdesc].
    split; [|apply Hdesc, descending_sort_desc].
    intros m Hm. apply Hin, in_sort_desc, filter_In in Hm as [Hstored Hfrom].
    split; [assumption | now apply String.eqb_eq].
Qed.

Lemma mailboxes_show_own_messages_witness :
  exists p : Page Message.t,
    MessageRoutes.inbox bob None None (Some "true") [hello; news] = Json p
    /\ items p = [news]
    /\ descending Message.createdAt (items p).
Proof.
  eexists. split; [reflexivity|]. split; [reflexivity|].
  exact (proj2 (proj1 (mailboxes_show_own_messages bob None None (Some "true")
                         [hello; news]) _ eq_refl)).
Defined.

Lemma firstn_add {A : Type} (a b : nat) (l : list A) :
  firstn (a + b) l = (firstn a l ++ firstn b (skipn a l))%list.
Proof.
  revert l; induction a as [|a IH]; intros l; simpl; [reflexivity|].
  destruct l as [|x l]; simpl; [now rewrite firstn_nil|]. now rewrite IH.
Qed.

Lemma pages_concat {A : Type} (all : list A) (size n : nat) :
  List.concat (map (fun k => firstn size (skipn (k * size) all)) (seq 0 n))
  = firstn (n * size) all.
Proof.
  induction n as [|n IH]; [reflexivity|].
  rewrite seq_S, map_app, concat_app, IH. simpl.
  rewrite app_nil_r, (Nat.add_comm size), firstn_add. reflexivity.
Qed.

Lemma ceil_div_covers (total limit : Z) :
  0 < limit -> 0 <= total -> total <= ceil_div total limit * limit.
Proof.
  intros Hl Ht. unfold ceil_div.
  pose proof (Z.div_mod (total + limit - 1) limit).
  pose proof (Z.mod_pos_bound (total + limit - 1) limit Hl). nia.
Qed.

Lemma inbox_page_items (user : User.t) (k : nat) (limit : Z)
      (unreadOnly : option string) (messages : MessageRoutes.Store) :
  0 < limit ->
  items_of (MessageRoutes.inbox user (Some (Z.of_nat (S k))) (Some limit)
                                unreadOnly messages)
  = firstn (Z.to_nat limit)
      (skipn (k * Z.to_nat limit)
         (sort_desc Message.createdAt
            (filter (MessageRoutes.in_inbox user unreadOnly) messages))).
Proof.
  intros Hl. unfold MessageRoutes.inbox, param_or.
  destruct (paginate_spec
              (sort_desc Message.createdAt
                 (filter (MessageRoutes.in_inbox user unreadOnly) messages))
              (Z.of_nat (S k)) limit
              (Z.of_nat (List.length
                 (filter (MessageRoutes.in_inbox user unreadOnly) messages))))
    as (found & Hfound & Hitems & _); try lia.
  { now rewrite length_sort_desc. }
  rewrite Hfound. cbn [bind try_catch items_of items] in *.
  rewrite Hitems. do 2 f_equal.
  replace (Z.of_nat (S k) - 1) with (Z.of_nat k) by lia.
  rewrite Z2Nat.inj_mul by lia. now rewrite Nat2Z.id.
Qed.

(** X3. For a positive page size, the pages of the inbox from 1 to
    ceil(total / limit), one after the other, are the matching messages in
    order, each once; every later page is empty. *)
Theorem inbox_pages_cover_all
        (user : User.t) (limit : Z) (unreadOnly : option string)
        (messages : MessageRoutes.Store) :
  0 < limit ->
  let all :=
    sort_desc Message.createdAt
      (filter (MessageRoutes.in_inbox user unreadOnly) messages) in
  let pages := Z.to_nat (ceil_div (Z.of_nat (List.length all)) limit) in
  List.concat (map (fun k =>
                 items_of (MessageRoutes.inbox user (Some (Z.of_nat k))
                             (Some limit) unreadOnly messages))
              (seq 1 pages))
  = all
  /\ forall k : nat,
      (pages < k)%nat ->
      items_of (MessageRoutes.inbox user (Some (Z.of_nat k)) (Some limit)
                                    unreadOnly messages)
      = [].
Proof.
  intros Hl all pages.
  assert (Hcover : (List.length all <= pages * Z.to_nat limit)%nat).
  { pose proof (ceil_div_covers (Z.of_nat (List.length all)) limit Hl
                                (Nat2Z.is_nonneg _)) as Hc.
    pose proof (Z.div_pos (Z.of_nat (List.length all) + limit - 1) limit).
    unfold pages, ceil_div in *. nia. }
  split.
  - rewrite <- seq_shift, map_map.
    rewrite (map_ext _ (fun k => firstn (Z.to_nat limit)
                                   (skipn (k * Z.to_nat limit) all))).
    + rewrite pages_concat. now apply firstn_all2.
    + intros k. now apply inbox_page_items.
  - intros [|k] Hk; [lia|].
    rewrite inbox_page_items by assumption. fold all.
    rewrite skipn_all2; [now rewrite firstn_nil|]. nia.
Qed.

Lemma inbox_pages_cover_all_witness :
  0 < 10
  /\ List.concat (map (fun k =>
                    items_of (MessageRoutes.inbox bob (Some (Z.of_nat k))
                                (Some 10) None twenty_five))
                 (seq 1 3))
     = sort_desc Message.createdAt
         (filter (MessageRoutes.in_inbox bob None) twenty_five).
Proof.
  split; [lia|].
  exact (proj1 (inbox_pages_cover_all bob 10 None twenty_five ltac:(lia))).
Defined.

(* ------------------------------------------------------------------ *)
(** ** Numbers: rounding keeps the order *)

(** *** Rounding to an integer is monotone and odd *)

Lemma round_half_even_ge_floor (q : Q) : Qfloor q <= round_half_even q.
Proof. destruct (round_half_even_floor q) as [-> | [-> _]]; lia. Qed.

Lemma round_half_even_le_floor (q : Q) : round_half_even q <= Qfloor q + 1.
Proof. destruct (round_half_even_floor q) as [-> | [-> _]]; lia. Qed.

Lemma round_half_even_le (x y : Q) :
  (x <= y)%Q -> round_half_even x <= round_half_even y.
Proof.
  intros H. pose proof (Qfloor_resp_le _ _ H) as F.
  destruct (Z.eq_dec (Qfloor x) (Qfloor y)) as [E|N].
  - unfold round_half_even. rewrite <- E.
    assert (D : (x - inject_Z (Qfloor x) <= y - inject_Z (Qfloor x))%Q)
      by now apply Qplus_le_l.
    destruct (Qcompare_spec (x - inject_Z (Qfloor x)) (1 # 2)) as [X|X|X];
      destruct (Qcompare_spec (y - inject_Z (Qfloor x)) (1 # 2)) as [Y|Y|Y];
      try lia; try (destruct (Z.even (Qfloor x)); lia); exfalso.
    + rewrite X in D. apply (Qlt_irrefl (1 # 2)).
      eapply Qle_lt_trans; eassumption.
    + rewrite Y in D. apply (Qlt_irrefl (1 # 2)).
      eapply Qlt_le_trans; eassumption.
    + apply (Qlt_irrefl (1 # 2)).
      eapply Qlt_trans; [exact X|]. eapply Qle_lt_trans; eassumption.
  - pose proof (round_half_even_le_floor x).
    pose proof (round_half_even_ge_floor y). lia.
Qed.

Lemma Qfloor_opp (q : Q) :
  (q == inject_Z (Qfloor q))%Q \/ Qfloor (- q) = - Qfloor q - 1.
Proof.
  pose proof (Qfloor_le q) as A. pose proof (Qlt_floor q) as B.
  pose proof (Qfloor_le (- q)) as C. pose proof (Qlt_floor (- q)) as D.
  destruct (Qle_lt_or_eq _ _ A) as [L|E]; [right | left; now symmetry].
  assert (U : (inject_Z (Qfloor (- q)) < inject_Z (- Qfloor q))%Q).
  { eapply Qle_lt_trans; [exact C|]. rewrite inject_Z_opp.
    now apply Qopp_lt_compat. }
  assert (V : (inject_Z (- Qfloor q - 2) < inject_Z (Qfloor (- q)))%Q).
  { apply (Qplus_lt_l _ _ (inject_Z 1)). rewrite <- !inject_Z_plus.
    eapply Qlt_trans; [|exact D].
    replace (- Qfloor q - 2 + 1) with (- (Qfloor q + 1)) by lia.
    rewrite inject_Z_opp. now apply Qopp_lt_compat. }
  rewrite <- Zlt_Qlt in U, V. lia.
Qed.

Lemma round_half_even_opp (q : Q) :
  round_half_even (- q) = - round_half_even q.
Proof.
  destruct (Qfloor_opp q) as [E|F].
  - rewrite (round_half_even_comp q _ E).
    rewrite (round_half_even_comp (- q) (inject_Z (- Qfloor q))).
    + now rewrite !round_half_even_Z.
    + rewrite inject_Z_opp. now rewrite <- E.
  - unfold round_half_even. rewrite F.
    assert (S : (- q - inject_Z (- Qfloor q - 1)
                 == 1 - (q - inject_Z (Qfloor q)))%Q).
    { unfold Z.sub. rewrite inject_Z_plus, !inject_Z_opp. ring. }
    assert (Ev : Z.even (- Qfloor q - 1) = negb (Z.even (Qfloor q))).
    { replace (- Qfloor q - 1) with (- (Qfloor q + 1)) by lia.
      rewrite Z.even_opp, Z.even_add. now destruct (Z.even (Qfloor q)). }
    rewrite Ev.
    destruct (Qcompare_spec (q - inject_Z (Qfloor q)) (1 # 2)) as [X|X|X];
      destruct (Qcompare_spec (- q - inject_Z (- Qfloor q - 1)) (1 # 2))
        as [Y|Y|Y];
      try lia; try (destruct (Z.even (Qfloor q)); simpl; lia);
      exfalso; rewrite S in Y; lra.
Qed.

(** *** The nearest binary64 value is monotone and odd *)

Lemma ulp_exponent_opp (q : Q) : ulp_exponent (- q) = ulp_exponent q.
Proof.
  unfold ulp_exponent. replace (Qabs (- q)) with (Qabs q); [reflexivity|].
  destruct q as [n d]. unfold Qabs, Qopp. simpl. now rewrite Z.abs_opp.
Qed.

Lemma nearest64_opp (q : Q) : (nearest64 (- q) == - nearest64 q)%Q.
Proof.
  unfold nearest64. rewrite ulp_exponent_opp.
  rewrite (round_half_even_comp (- q / pow2 (ulp_exponent q))
                                (- (q / pow2 (ulp_exponent q))))
    by field_pow2.
  rewrite round_half_even_opp, inject_Z_opp. ring.
Qed.

Lemma ulp_exponent_pos (q : Q) :
  (0 < q)%Q -> ulp_exponent q = Z.max (Qlog2 q - 52) (-1074).
Proof.
  intros H. unfold ulp_exponent. f_equal. f_equal.
  apply Qlog2_comp; [|apply Qabs_pos; now apply Qlt_le_weak].
  rewrite Qabs_pos by now apply Qlt_le_weak. exact H.
Qed.

Lemma nearest64_le_pos (x y : Q) :
  (0 < x)%Q -> (x <= y)%Q -> (nearest64 x <= nearest64 y)%Q.
Proof.
  intros Hx Hxy.
  assert (Hy : (0 < y)%Q) by (eapply Qlt_le_trans; eassumption).
  pose proof (ulp_exponent_le x y Hx Hxy) as He.
  destruct (Z.eq_dec (ulp_exponent x) (ulp_exponent y)) as [E|N].
  - unfold nearest64. rewrite E.
    apply Qmult_le_compat_r; [|apply Qlt_le_weak, pow2_pos].
    rewrite <- Zle_Qle. apply round_half_even_le.
    apply Qmult_le_compat_r; [exact Hxy|].
    apply Qlt_le_weak, Qinv_lt_0_compat, pow2_pos.
  - pose proof (Qlog2_spec x Hx) as [_ X2].
    pose proof (Qlog2_spec y Hy) as [Y1 _].
    rewrite (ulp_exponent_pos x Hx), (ulp_exponent_pos y Hy) in *.
    set (lx := Qlog2 x) in *. set (ly := Qlog2 y) in *.
    assert (L : lx < ly /\ -1074 < ly - 52) by lia. destruct L as [L1 L2].
    assert (P : (nearest64 (pow2 ly) == pow2 ly)%Q).
    { apply (nearest64_exact _ 1 ly); [ring|reflexivity|lia]. }
    apply (Qle_trans _ (pow2 ly)).
    + apply nearest64_le; [exact Hx| |exact P].
      apply Qlt_le_weak. eapply Qlt_le_trans; [exact X2|].
      apply pow2_le. lia.
    + unfold nearest64. rewrite (ulp_exponent_pos y Hy). fold ly.
      replace (Z.max (ly - 52) (-1074)) with (ly - 52) by lia.
      assert (R : 2 ^ 52 <= round_half_even (y / pow2 (ly - 52))).
      { apply round_half_even_ge_Z. rewrite <- (pow2_Z 52) by lia.
        apply Qle_shift_div_l; [apply pow2_pos|].
        rewrite <- pow2_add. now replace (52 + (ly - 52)) with ly by lia. }
      rewrite Zle_Qle in R.
      apply (Qmult_le_compat_r _ _ (pow2 (ly - 52))) in R;
        [|apply Qlt_le_weak, pow2_pos].
      eapply Qle_trans; [|exact R].
      rewrite <- (pow2_Z 52), <- pow2_add by lia.
      replace (52 + (ly - 52)) with ly by lia. apply Qle_refl.
Qed.

Lemma nearest64_mono (x y : Q) :
  (x <= y)%Q -> (nearest64 x <= nearest64 y)%Q.
Proof.
  intros H. destruct (Qlt_le_dec 0 x) as [Px|Nx].
  - now apply nearest64_le_pos.
  - destruct (Qlt_le_dec y 0) as [Ny|Py].
    + assert (A : (nearest64 (- y) <= nearest64 (- x))%Q).
      { apply nearest64_le_pos; lra. }
      rewrite !nearest64_opp in A. lra.
    + apply (Qle_trans _ 0);
        [now apply nearest64_nonpos | now apply nearest64_nonneg].
Qed.

Lemma binary64_cases (q : Q) :
  ((pow2 1024 <= nearest64 q)%Q /\ binary64 q = PosInfinity)
  \/ ((nearest64 q <= - pow2 1024)%Q /\ binary64 q = NegInfinity)
  \/ ((- pow2 1024 < nearest64 q < pow2 1024)%Q
      /\ exists r : Q, binary64 q = Finite r /\ (r == nearest64 q)%Q).
Proof.
  assert (P : (0 < pow2 1024)%Q) by apply pow2_pos.
  unfold binary64. destruct (Qeq_bool q 0) eqn:Z.
  - apply Qeq_bool_iff in Z. right. right.
    assert (N : (nearest64 q == 0)%Q).
    { rewrite (nearest64_comp q 0 Z). reflexivity. }
    split; [rewrite N; split; lra|].
    exists 0%Q. split; [reflexivity | now symmetry].
  - destruct (Qle_bool (pow2 1024) (nearest64 q)) eqn:O.
    { left. split; [now apply Qle_bool_iff | reflexivity]. }
    destruct (Qle_bool (nearest64 q) (- pow2 1024)) eqn:U.
    { right. left. split; [now apply Qle_bool_iff | reflexivity]. }
    right. right. split.
    + split; apply Qnot_le_lt; intros L; apply Qle_bool_iff in L; congruence.
    + eexists. split; [reflexivity | apply Qred_correct].
Qed.

(** Rounding to binary64 keeps the order. *)
Lemma binary64_le (x y : Q) :
  (x <= y)%Q -> Number_le (binary64 x) (binary64 y).
Proof.
  intros H. pose proof (nearest64_mono x y H) as M.
  assert (P : (0 < pow2 1024)%Q) by apply pow2_pos.
  destruct (binary64_cases x) as [[X ->]|[[X ->]|[[X1 X2] (r & -> & Er)]]];
    destruct (binary64_cases y) as [[Y ->]|[[Y ->]|[[Y1 Y2] (s & -> & Es)]]];
    try reflexivity; try (exfalso; lra).
  apply Number_le_Finite. rewrite Er, Es. exact M.
Qed.

(** *** The operations on Numbers keep the order *)

Lemma Number_le_trans (a b c : Number) :
  Number_le a b -> Number_le b c -> Number_le a c.
Proof.
  unfold Number_le.
  destruct a as [x| | |], b as [y| | |], c as [z| | |]; simpl;
    try discriminate; try reflexivity.
  intros A B. apply Qle_bool_iff. apply Qle_bool_iff in A, B.
  eapply Qle_trans; eassumption.
Qed.

Lemma Number_div_le (x y : Number) (d : Q) :
  (0 < d)%Q -> Number_le x y ->
  Number_le (Number_div x (Finite d)) (Number_div y (Finite d)).
Proof.
  intros Hd H. pose proof Hd as Hgt. apply Qgt_alt in Hgt.
  destruct x as [p| | |], y as [q| | |]; try discriminate H;
    simpl; rewrite ?Hgt; try reflexivity.
  - apply binary64_le. apply Number_le_Finite in H.
    apply Qmult_le_compat_r; [exact H|].
    now apply Qlt_le_weak, Qinv_lt_0_compat.
  - pose proof (binary64_not_NaN (p / d)) as N.
    unfold Number_le. now destruct (binary64 (p / d)).
  - pose proof (binary64_not_NaN (q / d)) as N.
    unfold Number_le. now destruct (binary64 (q / d)).
Qed.

Lemma capped_le (x y : Number) (c : Q) :
  Number_le x y -> Number_le (capped x c) (capped y c).
Proof.
  intros H.
  destruct x as [p| | |], y as [q| | |]; try discriminate H;
    simpl; try reflexivity; apply Number_le_Finite.
  - apply Number_le_Finite in H. now apply Q.min_le_compat_r.
  - apply Q.le_min_r.
  - apply Qle_refl.
Qed.

Lemma Number_add_le (a a' b b' : Number) (ca cb : Q) :
  Number_le a a' -> Number_le a' (Finite ca) ->
  Number_le b b' -> Number_le b' (Finite cb) ->
  Number_le (Number_add a b) (Number_add a' b').
Proof.
  intros A A' B B'.
  destruct a' as [x'| | |]; try discriminate A';
    destruct b' as [y'| | |]; try discriminate B';
    destruct a as [x| | |]; try discriminate A;
    destruct b as [y| | |]; try discriminate B;
    simpl; try reflexivity;
    try (pose proof (binary64_not_NaN (x' + y')) as N;
         unfold Number_le; now destruct (binary64 (x' + y'))).
  apply binary64_le. apply Number_le_Finite in A, B.
  now apply Qplus_le_compat.
Qed.

Lemma Math_round_le (a b : Number) :
  Number_le a b -> Number_le (Math_round a) (Math_round b).
Proof.
  intros H.
  destruct a as [p| | |], b as [q| | |]; try discriminate H;
    try reflexivity.
  unfold Math_round. apply Number_le_Finite. rewrite <- Zle_Qle.
  apply Qfloor_resp_le.
  apply Number_le_Finite in H. now apply Qplus_le_l.
Qed.

Lemma is_double_comp (x y : Q) : (x == y)%Q -> is_double x -> is_double y.
Proof.
  unfold is_double. intros E H.
  rewrite <- (binary64_comp x y E), H. f_equal. now apply Qred_complete.
Qed.

(** Sums of terms with whole ceilings: the sum is below the sum of the
    ceilings, and it grows with the terms. *)
Lemma fold_add_terms (ts ts' : list Number) (cs : list Z) (a a' : Number)
      (k : Z) :
  Forall2 Number_le ts ts' ->
  Forall2 (fun t c => Number_le t (Finite (inject_Z c)) /\ 0 <= c) ts' cs ->
  Number_le a a' -> Number_le a' (Finite (inject_Z k)) -> 0 <= k ->
  k + fold_right Z.add 0 cs < 2 ^ 53 ->
  Number_le (fold_left Number_add ts a) (fold_left Number_add ts' a')
  /\ Number_le (fold_left Number_add ts' a')
               (Finite (inject_Z (k + fold_right Z.add 0 cs))).
Proof.
  intros Hts. revert cs a a' k.
  induction Hts as [|t t' ts ts' Ht Hts IH]; intros cs a a' k Hcs Ha Ha' Hk Hsum;
    inversion Hcs as [|t0 c ts0 cs' [Hc Hc0] Hcs']; subst; cbn [fold_left].
  - simpl. rewrite Z.add_0_r. now split.
  - cbn [fold_right] in Hsum |- *.
    assert (Hrest : 0 <= fold_right Z.add 0 cs').
    { clear -Hcs'. induction Hcs' as [|? ? ? ? [_ ?] ? ?]; simpl; lia. }
    replace (k + (c + fold_right Z.add 0 cs'))
      with ((k + c) + fold_right Z.add 0 cs') by lia.
    apply IH; try lia; try assumption.
    + eapply Number_add_le; eassumption.
    + apply (Number_le_weaken _ (inject_Z k + inject_Z c));
        [|rewrite inject_Z_plus; apply Qle_refl].
      apply Number_add_upper; try assumption.
      * rewrite <- inject_Z_plus. apply is_double_Z. lia.
      * rewrite <- inject_Z_plus. rewrite <- (Zle_Qle 0). lia.
Qed.
(** *** The quotient of two counts *)

Lemma round_half_even_lower (x : Q) :
  (x - (1 # 2) <= inject_Z (round_half_even x))%Q.
Proof.
  pose proof (Qfloor_le x) as A. pose proof (Qlt_floor x) as B.
  rewrite inject_Z_plus in B. change (inject_Z 1) with 1%Q in B.
  unfold round_half_even.
  destruct (Qcompare_spec (x - inject_Z (Qfloor x)) (1 # 2)) as [E|L|G].
  - destruct (Z.even (Qfloor x));
      [|rewrite inject_Z_plus; change (inject_Z 1) with 1%Q]; lra.
  - lra.
  - rewrite inject_Z_plus. change (inject_Z 1) with 1%Q. lra.
Qed.

Lemma nearest64_lower (q : Q) :
  (q - pow2 (ulp_exponent q) * (1 # 2) <= nearest64 q)%Q.
Proof.
  unfold nearest64. set (p := pow2 (ulp_exponent q)).
  assert (P : (0 < p)%Q) by apply pow2_pos.
  pose proof (round_half_even_lower (q / p)) as L.
  apply (Qmult_le_compat_r _ _ p) in L; [|now apply Qlt_le_weak].
  eapply Qle_trans; [|exact L].
  apply Qle_lteq. right. field. intros Z. rewrite Z in P. discriminate.
Qed.

Lemma Qceiling_unique (x : Q) (k : Z) :
  (inject_Z k - 1 < x)%Q -> (x <= inject_Z k)%Q -> Qceiling x = k.
Proof.
  intros L U. apply Z.le_antisymm.
  - rewrite <- (Qceiling_Z k). now apply Qceiling_resp_le.
  - pose proof (Qle_ceiling x) as C.
    assert (H : (inject_Z (k - 1) < inject_Z (Qceiling x))%Q).
    { unfold Z.sub. rewrite inject_Z_plus, inject_Z_opp.
      change (inject_Z 1) with 1%Q. lra. }
    rewrite <- Zlt_Qlt in H. lia.
Qed.

(** For counts below 2^53 the rounding of the quotient to binary64 does
    not move it across a whole number: its ceiling is that of the exact
    quotient. *)
Lemma Math_ceil_quotient (total limit : Z) :
  0 <= total < 2 ^ 53 -> 0 < limit < 2 ^ 53 ->
  Math_ceil (Number_div (Finite (inject_Z total)) (Finite (inject_Z limit)))
  = Math_ceil (js_div total limit).
Proof.
  intros [T0 T1] [L0 L1].
  assert (B : (0 < inject_Z limit)%Q) by now rewrite <- (Zlt_Qlt 0).
  assert (B1 : (1 <= inject_Z limit)%Q) by (rewrite <- (Zle_Qle 1); lia).
  assert (A0 : (0 <= inject_Z total)%Q) by now rewrite <- (Zle_Qle 0).
  unfold js_div, Number_div.
  replace (limit =? 0) with false by (symmetry; apply Z.eqb_neq; lia).
  rewrite (proj1 (Qgt_alt _ _) B).
  set (q := (inject_Z total / inject_Z limit)%Q).
  set (K := Qceiling q).
  assert (Q0 : (0 <= q)%Q).
  { unfold q. apply Qle_shift_div_l; [exact B|]. lra. }
  assert (Qa : (q <= inject_Z total)%Q).
  { unfold q. apply Qle_shift_div_r; [exact B|]. nra. }
  pose proof (Qle_ceiling q) as KU. pose proof (Qceiling_lt q) as KL.
  fold K in KU, KL.
  assert (KL' : (inject_Z K - 1 < q)%Q).
  { unfold Z.sub in KL. rewrite inject_Z_plus, inject_Z_opp in KL.
    change (inject_Z 1) with 1%Q in KL. lra. }
  assert (K0 : 0 <= K).
  { assert (H : (inject_Z (-1) < inject_Z K)%Q)
      by (change (inject_Z (-1)) with (-1)%Q; lra).
    rewrite <- Zlt_Qlt in H. lia. }
  assert (Ka : K <= total).
  { unfold K. rewrite <- (Qceiling_Z total). now apply Qceiling_resp_le. }
  assert (NK : (nearest64 (inject_Z K) == inject_Z K)%Q).
  { apply (nearest64_exact _ K 0); [change (pow2 0) with 1%Q; ring|lia|lia]. }
  assert (Up : (nearest64 q <= inject_Z K)%Q).
  { destruct (Qlt_le_dec 0 q) as [P|N].
    - now apply nearest64_le.
    - apply (Qle_trans _ 0); [now apply nearest64_nonpos|].
      now rewrite <- (Zle_Qle 0). }
  assert (Low : (inject_Z K - 1 < nearest64 q)%Q).
  { destruct (Qle_lt_or_eq _ _ KU) as [Lt|Eq].
    - (* the quotient is no whole number *)
      assert (Hk : (K - 1) * limit < total).
      { assert (H : (inject_Z ((K - 1) * limit) < inject_Z total)%Q).
        { rewrite inject_Z_mult. unfold Z.sub.
          rewrite inject_Z_plus, inject_Z_opp.
          change (inject_Z 1) with 1%Q.
          apply (Qmult_lt_r _ _ (inject_Z limit) B) in KL'.
          eapply Qlt_le_trans; [exact KL'|]. unfold q.
          apply Qle_lteq. right. field. lra. }
        now rewrite <- Zlt_Qlt in H. }
      assert (Step : (inject_Z K - 1 + 1 / inject_Z limit <= q)%Q).
      { unfold q. apply Qle_shift_div_l; [exact B|].
        assert (H : (inject_Z ((K - 1) * limit + 1) <= inject_Z total)%Q)
          by (rewrite <- Zle_Qle; lia).
        rewrite inject_Z_plus, inject_Z_mult in H. unfold Z.sub in H.
        rewrite inject_Z_plus, inject_Z_opp in H.
        change (inject_Z 1) with 1%Q in H.
        eapply Qle_trans; [|exact H]. apply Qle_lteq. right. field. lra. }
      assert (Pq : (0 < q)%Q).
      { eapply Qlt_le_trans; [|exact Step].
        assert (0 < 1 / inject_Z limit)%Q
          by (apply Qlt_shift_div_l; [exact B|lra]).
        assert (0 <= inject_Z K - 1)%Q.
        { assert (H1 : (inject_Z 1 <= inject_Z K)%Q).
          { rewrite <- Zle_Qle.
            assert (K <> 0); [|lia]. intros E. rewrite E in Lt.
            change (inject_Z 0) with 0%Q in Lt. lra. }
          change (inject_Z 1) with 1%Q in H1. lra. }
        lra. }
      assert (Ulp : (pow2 (ulp_exponent q) * (1 # 2) < 1 / inject_Z limit)%Q).
      { apply Qlt_shift_div_l; [exact B|].
        assert (Lim : (inject_Z limit < pow2 53)%Q).
        { rewrite (pow2_Z 53) by lia. now rewrite <- Zlt_Qlt. }
        rewrite (ulp_exponent_pos q Pq).
        destruct (Z.max_spec (Qlog2 q - 52) (-1074)) as [[_ ->]|[_ ->]].
        - assert (S : (pow2 (-1074) * pow2 53 <= 1 # 2)%Q).
          { rewrite <- pow2_add. change (1 # 2)%Q with (pow2 (-1)).
            apply pow2_le. lia. }
          assert (M1 : (pow2 (-1074) * inject_Z limit
                        < pow2 (-1074) * pow2 53)%Q).
          { apply Qmult_lt_l; [apply pow2_pos|exact Lim]. }
          lra.
        - destruct (Qlog2_spec q Pq) as [S0 _].
          assert (E : (pow2 (Qlog2 q - 52) == pow2 (Qlog2 q) * pow2 (-52))%Q).
          { rewrite <- pow2_add. now replace (Qlog2 q + -52) with (Qlog2 q - 52)
              by lia. }
          rewrite E.
          assert (Tt : (q * inject_Z limit < pow2 53)%Q).
          { unfold q. rewrite (pow2_Z 53) by lia.
            setoid_replace (inject_Z total / inject_Z limit * inject_Z limit)%Q
              with (inject_Z total) by (field; lra).
            now rewrite <- Zlt_Qlt. }
          assert (P52 : (pow2 (-52) * pow2 53 == 2)%Q)
            by (rewrite <- pow2_add; reflexivity).
          assert (M1 : (pow2 (Qlog2 q) * inject_Z limit < pow2 53)%Q).
          { eapply Qle_lt_trans; [|exact Tt].
            apply Qmult_le_compat_r; [exact S0|now apply Qlt_le_weak]. }
          apply (Qmult_lt_compat_r _ _ (pow2 (-52))) in M1;
            [|apply pow2_pos].
          lra. }
      pose proof (nearest64_lower q) as NL. lra.
    - (* the quotient is a whole number *)
      rewrite (nearest64_comp q (inject_Z K) Eq), NK. lra. }
  assert (P : (0 < pow2 1024)%Q) by apply pow2_pos.
  assert (Big : (inject_Z K < pow2 1024)%Q).
  { apply (Qlt_trans _ (pow2 53)); [|apply pow2_lt; lia].
    rewrite (pow2_Z 53) by lia. rewrite <- Zlt_Qlt. lia. }
  assert (K0' : (0 <= inject_Z K)%Q) by now rewrite <- (Zle_Qle 0).
  pose proof (nearest64_nonneg q Q0) as N0.
  destruct (binary64_cases q) as [[X _]|[[X _]|[_ (r & -> & Er)]]];
    [exfalso; lra | exfalso; lra |].
  unfold Math_ceil. f_equal. f_equal. fold K.
  apply Qceiling_unique; rewrite Er; assumption.
Qed.

(* ------------------------------------------------------------------ *)
(** ** The two scores: growth and saturation *)

Lemma Number_le_not_NaN (a b : Number) : Number_le a b -> a <> NaN /\ b <> NaN.
Proof.
  unfold Number_le.
  destruct a as [x| | |], b as [y| | |]; simpl; try discriminate;
    intros _; split; discriminate.
Qed.

Lemma Number_le_refl (a : Number) : a <> NaN -> Number_le a a.
Proof.
  intros H. destruct a as [x| | |]; try reflexivity; [|now destruct H].
  apply Number_le_Finite, Qle_refl.
Qed.

Ltac score_terms :=
  repeat match goal with
         | |- Forall2 _ _ _ => constructor
         | |- _ /\ _ => split
         | |- Number_le (capped _ ?c) (Finite _) => apply (capped_upper _ c)
         | |- Number_le (capped _ _) (capped _ _) => apply capped_le
         | |- Number_le (Number_div _ _) (Number_div _ _) =>
             apply Number_div_le; [reflexivity|]
         | |- Number_div _ _ <> NaN =>
             apply Number_div_not_NaN; [|reflexivity]
         | |- Number_le ?x ?x => apply Number_le_refl
         | |- Finite _ <> NaN => discriminate
         | H : Number_le _ ?x |- ?x <> NaN =>
             exact (proj2 (Number_le_not_NaN _ _ H))
         | H : Number_le ?x _ |- ?x <> NaN =>
             exact (proj1 (Number_le_not_NaN _ _ H))
         | |- _ => assumption
         end;
  try lia.

Lemma capped_sum_le (m m' : Initiative.ImpactMetrics) :
  metrics_le m m' -> Number_le (capped_sum m) (capped_sum m').
Proof.
  intros (Hp & Hh & Hf & He & Hs). unfold capped_sum.
  apply (fold_add_terms _ _ [25; 25; 20; 15; 15] _ _ 0); score_terms;
    reflexivity.
Qed.

Lemma Math_round_whole (x : Number) (z : Z) :
  Number_le (Finite (inject_Z z)) x -> Number_le x (Finite (inject_Z z)) ->
  Math_round x = Finite (inject_Z z).
Proof.
  intros L U. destruct (Number_between _ _ _ L U) as (q & -> & A & B).
  unfold Math_round. f_equal. f_equal.
  assert (E : (q == inject_Z z)%Q) by now apply Qle_antisym.
  rewrite (Qfloor_comp _ (inject_Z z + (1 # 2))) by now rewrite E.
  apply Z.le_antisymm.
  - assert (H : (inject_Z (Qfloor (inject_Z z + (1 # 2))) < inject_Z (z + 1))%Q).
    { eapply Qle_lt_trans; [apply Qfloor_le|].
      rewrite inject_Z_plus. apply Qplus_lt_r. reflexivity. }
    rewrite <- Zlt_Qlt in H. lia.
  - rewrite <- (Qfloor_Z z) at 1. apply Qfloor_resp_le.
    rewrite <- (Qplus_0_r (inject_Z z)) at 1. apply Qplus_le_r. discriminate.
Qed.

(** X4. The impact score grows with the metrics: raising any of the five
    never lowers it. Once people reached and hours volunteered are at
    least 2500, funds raised at least 20000, environmental impact at least
    15 and social connections at least 150, it is 100. *)
Theorem impact_score_grows_and_saturates (this this' : Initiative.t) :
  (metrics_le (Initiative.impactMetrics this) (Initiative.impactMetrics this')
   -> Number_le (snd (Initiative.calculateImpactScore this))
                (snd (Initiative.calculateImpactScore this')))
  /\ (Number_le (Finite 2500)
                (Initiative.peopleReached (Initiative.impactMetrics this))
      /\ Number_le (Finite 2500)
                   (Initiative.hoursVolunteered (Initiative.impactMetrics this))
      /\ Number_le (Finite 20000)
                   (Initiative.fundsRaised (Initiative.impactMetrics this))
      /\ Number_le (Finite 15)
                   (Initiative.environmentalImpact
                      (Initiative.impactMetrics this))
      /\ Number_le (Finite 150)
                   (Initiative.socialConnections
                      (Initiative.impactMetrics this))
      -> snd (Initiative.calculateImpactScore this) = Finite 100).
Proof.
  rewrite !calculateImpactScore_sum. split.
  - intros H. apply Math_round_le, capped_sum_le, H.
  - intros (Hp & Hh & Hf & He & Hs).
    apply (Math_round_whole _ 100).
    + change (Finite (inject_Z 100))
        with (capped_sum (Initiative.mkMetrics (Finite 2500) (Finite 2500)
                            (Finite 20000) (Finite 15) (Finite 150))).
      apply capped_sum_le. repeat split; assumption.
    + apply capped_sum_le_100. repeat split; score_terms.
Qed.

Lemma impact_score_grows_and_saturates_witness :
  metrics_le (Initiative.impactMetrics hidden_garden)
             (Initiative.impactMetrics garden)
  /\ Number_le (snd (Initiative.calculateImpactScore hidden_garden))
               (snd (Initiative.calculateImpactScore garden)).
Proof.
  assert (H : metrics_le (Initiative.impactMetrics hidden_garden)
                         (Initiative.impactMetrics garden)).
  { repeat split. }
  split; [exact H|].
  exact (proj1 (impact_score_grows_and_saturates hidden_garden garden) H).
Defined.

Lemma calculateSocialImpact_sum (i : EventImpact.SocialImpact) :
  EventImpact.calculateSocialImpact i
  = Math_round
      (fold_left Number_add
         [capped (Number_div (EventImpact.peopleConnected i) (Finite 10)) 30;
          capped (Number_div (EventImpact.knowledgeShared i) (Finite 5)) 25;
          capped (Number_div (EventImpact.communityBuilding i) (Finite 5)) 25;
          capped (EventImpact.environmentalImpact i) 20]
         (Finite 0)).
Proof.
  unfold EventImpact.calculateSocialImpact. now rewrite !Math_min_capped.
Qed.

(** X5. The social impact score of an event is at most 100 for inputs
    that are not NaN, and a whole number between 0 and 100 for
    non-negative inputs; it grows with each input; and it is 100 once
    people connected is at least 300, knowledge shared and community
    building at least 125 and environmental impact at least 20. *)
Theorem social_impact_bounded_and_growing (i i' : EventImpact.SocialImpact) :
  (EventImpact.peopleConnected i <> NaN
   /\ EventImpact.knowledgeShared i <> NaN
   /\ EventImpact.communityBuilding i <> NaN
   /\ EventImpact.environmentalImpact i <> NaN
   -> Number_le (EventImpact.calculateSocialImpact i) (Finite 100))
  /\ (Number_le (Finite 0) (EventImpact.peopleConnected i)
      /\ Number_le (Finite 0) (EventImpact.knowledgeShared i)
      /\ Number_le (Finite 0) (EventImpact.communityBuilding i)
      /\ Number_le (Finite 0) (EventImpact.environmentalImpact i)
      -> exists z : Z,
          EventImpact.calculateSocialImpact i = Finite (inject_Z z)
          /\ 0 <= z <= 100)
  /\ (impact_le i i'
      -> Number_le (EventImpact.calculateSocialImpact i)
                   (EventImpact.calculateSocialImpact i'))
  /\ (Number_le (Finite 300) (EventImpact.peopleConnected i)
      /\ Number_le (Finite 125) (EventImpact.knowledgeShared i)
      /\ Number_le (Finite 125) (EventImpact.communityBuilding i)
      /\ Number_le (Finite 20) (EventImpact.environmentalImpact i)
      -> EventImpact.calculateSocialImpact i = Finite 100).
Proof.
  assert (Upper : forall j : EventImpact.SocialImpact,
             EventImpact.peopleConnected j <> NaN
             /\ EventImpact.knowledgeShared j <> NaN
             /\ EventImpact.communityBuilding j <> NaN
             /\ EventImpact.environmentalImpact j <> NaN ->
             Number_le
               (fold_left Number_add
                  [capped (Number_div (EventImpact.peopleConnected j)
                                      (Finite 10)) 30;
                   capped (Number_div (EventImpact.knowledgeShared j)
                                      (Finite 5)) 25;
                   capped (Number_div (EventImpact.communityBuilding j)
                                      (Finite 5)) 25;
                   capped (EventImpact.environmentalImpact j) 20]
                  (Finite 0))
               (Finite (inject_Z 100))).
  { intros j (Hp & Hk & Hc & He).
    match goal with
    | |- Number_le (fold_left Number_add ?l ?a) _ =>
        apply (fold_add_terms l l [30; 25; 25; 20] a a 0)
    end; score_terms; try reflexivity;
      apply Number_le_refl; score_terms. }
  assert (Grows : forall j j' : EventImpact.SocialImpact,
             impact_le j j' ->
             Number_le
               (fold_left Number_add
                  [capped (Number_div (EventImpact.peopleConnected j)
                                      (Finite 10)) 30;
                   capped (Number_div (EventImpact.knowledgeShared j)
                                      (Finite 5)) 25;
                   capped (Number_div (EventImpact.communityBuilding j)
                                      (Finite 5)) 25;
                   capped (EventImpact.environmentalImpact j) 20]
                  (Finite 0))
               (fold_left Number_add
                  [capped (Number_div (EventImpact.peopleConnected j')
                                      (Finite 10)) 30;
                   capped (Number_div (EventImpact.knowledgeShared j')
                                      (Finite 5)) 25;
                   capped (Number_div (EventImpact.communityBuilding j')
                                      (Finite 5)) 25;
                   capped (EventImpact.environmentalImpact j') 20]
                  (Finite 0))).
  { intros j j' (Hp & Hk & Hc & He).
    apply (fold_add_terms _ _ [30; 25; 25; 20] _ _ 0); score_terms;
      reflexivity. }
  rewrite !calculateSocialImpact_sum. split; [|split; [|split]].
  - intros H. apply (rounded_upper _ _ 100 (Math_round_rounded _)).
    now apply Upper.
  - intros (Hp & Hk & Hc & He).
    apply (rounded_bounds _ _ 0 100 (Math_round_rounded _)).
    + cbn [fold_left].
      repeat apply Number_add_lower;
        try (apply capped_lower; [|discriminate];
             first [assumption
                   | apply Number_div_lower; [assumption|reflexivity]]).
      apply Number_le_Finite, Qle_refl.
    + apply Upper. repeat split; score_terms.
  - intros H. apply Math_round_le. now apply Grows.
  - intros (Hp & Hk & Hc & He).
    apply (Math_round_whole _ 100).
    + apply (Grows (EventImpact.mkSocialImpact (Finite 300) (Finite 125)
                      (Finite 125) (Finite 20)) i).
      repeat split; assumption.
    + apply Upper. repeat split; score_terms.
Qed.

Lemma social_impact_bounded_and_growing_witness :
  (Number_le (Finite 300) (EventImpact.peopleConnected impact_full)
   /\ Number_le (Finite 125) (EventImpact.knowledgeShared impact_full)
   /\ Number_le (Finite 125) (EventImpact.communityBuilding impact_full)
   /\ Number_le (Finite 20) (EventImpact.environmentalImpact impact_full))
  /\ EventImpact.calculateSocialImpact impact_full = Finite 100.
Proof.
  assert (H : Number_le (Finite 300) (EventImpact.peopleConnected impact_full)
              /\ Number_le (Finite 125)
                           (EventImpact.knowledgeShared impact_full)
              /\ Number_le (Finite 125)
                           (EventImpact.communityBuilding impact_full)
              /\ Number_le (Finite 20)
                           (EventImpact.environmentalImpact impact_full)).
  { repeat split. }
  split; [exact H|].
  exact (proj2 (proj2 (proj2 (social_impact_bounded_and_growing
                                impact_full impact_full))) H).
Defined.

(** The social impact of inputs 3.5, 4.75, 1 and 0: the terms 0.35, 0.95
    and 0.2 add up to a Number just below 1.5, and the score is 1. *)
Example social_impact_of_rounded_sum :
  EventImpact.calculateSocialImpact
    (EventImpact.mkSocialImpact (Finite (7 # 2)) (Finite (19 # 4)) (Finite 1)
                                (Finite 0))
  = Finite 1.
Proof. vm_compute. reflexivity. Qed.

(* ------------------------------------------------------------------ *)
(** ** Toggling membership: attend, un-attend, like *)







Lemma not_among_not_in (refs : list ObjectId) (u : User.t) :
  among refs u = false -> ~ In (User.id u) refs.
Proof.
  unfold among. intros H Hin.
  assert (existsb (fun ref => String.eqb ref (User.id u)) refs = true).
  { apply existsb_exists. exists (User.id u). split; [assumption|].
    apply String.eqb_refl. }
  congruence.
Qed.

Lemma Event_save_keeps (d d' : Event.t) :
  Event.save d = Ret d' ->
  Event._id d' = Event._id d
  /\ Event.attendees d' = Event.attendees d
  /\ Event.feedback d' = Event.feedback d
  /\ Event.likes d' = Event.likes d
  /\ Event.organizer d' = Event.organizer d
  /\ Event.capacity d' = Event.capacity d.
Proof.
  unfold Event.save, Event.pre_save.
  destruct (Event.valid d); [|discriminate].
  intros H; inversion H; subst d'; clear H.
  destruct (0 <? Z.of_nat (List.length (Event.feedback d)));
    simpl; destruct (0 <? Z.of_nat (List.length (Event.attendees d)));
    simpl; repeat split.
Qed.


Lemma Event_valid_set_attendees (a : list ObjectId) (d : Event.t) :
  Event.valid (Event.set_attendees a d) = Event.valid d.
Proof. reflexivity. Qed.





(** An event that fails a validator, here a status outside the
    enumeration, takes no attendee: the request is answered 500. *)
Example invalid_event_not_attended :
  let postponed :=
    Event.mk cleanup_id "River cleanup" "Environment" "Riverside" 5000
             (Some alice_id) [alice_id] [] "postponed" 1 (Finite 0)
             two_reviews (Finite (9 # 2)) 2 true in
  EventRoutes.attend castHex cleanup_id bob [postponed]
  = (Failed 500 "Server error", [postponed]).
Proof. reflexivity. Qed.

Lemma Initiative_save_keeps (d d' : Initiative.t) :
  Initiative.save d = Ret d' ->
  Initiative._id d' = Initiative._id d
  /\ Initiative.likes d' = Initiative.likes d
  /\ Initiative.feedback d' = Initiative.feedback d
  /\ Initiative.members d' = Initiative.members d
  /\ Initiative.creator d' = Initiative.creator d
  /\ Initiative.isPublic d' = Initiative.isPublic d.
Proof.
  unfold Initiative.save, Initiative.pre_save.
  destruct (Initiative.valid d); [|discriminate].
  intros H; inversion H; subst d'; clear H.
  destruct (0 <? Z.of_nat (List.length (Initiative.feedback d)));
    simpl; repeat split.
Qed.







Lemma NoDup_splice1 {A : Type} (index : Z) (l : list A) :
  NoDup l -> NoDup (EventRoutes.splice1 index l).
Proof.
  unfold EventRoutes.splice1. generalize (Z.to_nat index) as n.
  intros n; revert l; induction n as [|n IH]; intros [|x l] H; simpl;
    try constructor.
  - now inversion H.
  - inversion H; subst. intros Hin. apply in_app_or in Hin as [Hin|Hin].
    + apply in_firstn in Hin. contradiction.
    + apply (in_skipn (S n) l) in Hin. contradiction.
  - inversion H; subst. now apply (IH l).
Qed.

Lemma NoDup_add_last {A : Type} (l : list A) (u : A) :
  NoDup l -> ~ In u l -> NoDup (l ++ [u]).
Proof.
  intros Hl Hu. apply NoDup_app; [assumption | repeat constructor; auto|].
  intros x Hx [<-|[]]. contradiction.
Qed.

Lemma findIndex_absent_iff {A : Type} (f : A -> bool) (l : list A) :
  (findIndex f l >? -1) = false -> existsb f l = false.
Proof.
  intros H. destruct (existsb f l) eqn:E; [|reflexivity].
  pose proof (findIndex_from_found f l 0 E) as Hi. unfold findIndex in H.
  rewrite Z.gtb_ltb in H. apply Z.ltb_ge in H. lia.
Qed.

Lemma in_Event_persist (new d : Event.t) (events : EventRoutes.Store) :
  In d (EventRoutes.persist new events) -> In d events \/ d = new.
Proof.
  unfold EventRoutes.persist. intros H. apply in_map_iff in H as (d0 & <- & Hd).
  destruct (String.eqb (Event._id d0) (Event._id new)); auto.
Qed.

Lemma in_Initiative_persist (new d : Initiative.t)
      (initiatives : InitiativeRoutes.Store) :
  In d (InitiativeRoutes.persist new initiatives) ->
  In d initiatives \/ d = new.
Proof.
  unfold InitiativeRoutes.persist. intros H.
  apply in_map_iff in H as (d0 & <- & Hd).
  destruct (String.eqb (Initiative._id d0) (Initiative._id new)); auto.
Qed.

Lemma Event_found_in (castObjectId : string -> option ObjectId) (id : string)
      (events : EventRoutes.Store) (event : Event.t) :
  EventRoutes.findById castObjectId id events = Ret (Some event) ->
  In event events.
Proof.
  unfold EventRoutes.findById. destruct (castObjectId id); [|discriminate].
  intros H; inversion H as [Hf]. now apply find_some in Hf as [Hin _].
Qed.

Lemma Initiative_found_in (castObjectId : string -> option ObjectId)
      (id : string) (initiatives : InitiativeRoutes.Store)
      (initiative : Initiative.t) :
  InitiativeRoutes.findById castObjectId id initiatives
  = Ret (Some initiative) ->
  In initiative initiatives.
Proof.
  unfold InitiativeRoutes.findById. destruct (castObjectId id); [|discriminate].
  intros H; inversion H as [Hf]. now apply find_some in Hf as [Hin _].
Qed.

(** X8. The toggles keep their lists free of duplicates: if no stored
    event lists an attendee twice, none does after an attend or an
    un-attend request, whoever sends it and whatever its outcome; and if
    no stored initiative lists a like twice, none does after a like
    request. *)
Theorem toggles_keep_lists_distinct
        (castObjectId : string -> option ObjectId) (id : string)
        (user : User.t) :
  (forall events : EventRoutes.Store,
      (forall e, In e events -> NoDup (Event.attendees e)) ->
      (forall e, In e (snd (EventRoutes.attend castObjectId id user events)) ->
                 NoDup (Event.attendees e))
      /\ (forall e,
             In e (snd (EventRoutes.unattend castObjectId id user events)) ->
             NoDup (Event.attendees e)))
  /\ (forall initiatives : InitiativeRoutes.Store,
         (forall d, In d initiatives -> NoDup (Initiative.likes d)) ->
         forall d,
           In d (snd (InitiativeRoutes.like castObjectId id user initiatives)) ->
           NoDup (Initiative.likes d)).
Proof.
  split.
  - intros events Hinv. split; intros e.
    + unfold EventRoutes.attend.
      destruct (EventRoutes.findById castObjectId id events)
        as [[event|]|err] eqn:Hfound; simpl; auto.
      destruct (findIndex _ _ >? -1) eqn:Hidx;
        simpl; auto.
      unfold EventRoutes.is_full, Event.maxAttendees.
      destruct (Event.save _) as [saved|err] eqn:Hs; simpl; auto.
      intros Hin. apply in_Event_persist in Hin as [Hin| ->]; auto.
      destruct (Event_save_keeps _ _ Hs) as (_ & Ha & _). rewrite Ha. simpl.
      apply NoDup_add_last.
      * apply Hinv. now apply (Event_found_in castObjectId id).
      * apply findIndex_absent_iff in Hidx.
        now apply (not_among_not_in _ user).
    + unfold EventRoutes.unattend.
      destruct (EventRoutes.findById castObjectId id events)
        as [[event|]|err] eqn:Hfound; simpl; auto.
      destruct (findIndex _ _ =? -1); simpl; auto.
      destruct (Event.save _) as [saved|err] eqn:Hs; simpl; auto.
      intros Hin. apply in_Event_persist in Hin as [Hin| ->]; auto.
      destruct (Event_save_keeps _ _ Hs) as (_ & Ha & _). rewrite Ha. simpl.
      apply NoDup_splice1, Hinv. now apply (Event_found_in castObjectId id).
  - intros initiatives Hinv d. unfold InitiativeRoutes.like.
    destruct (InitiativeRoutes.findById castObjectId id initiatives)
      as [[initiative|]|err] eqn:Hfound; simpl; auto.
    destruct (Initiative.save _) as [saved|err] eqn:Hs; simpl; auto.
    intros Hin. apply in_Initiative_persist in Hin as [Hin| ->]; auto.
    destruct (Initiative_save_keeps _ _ Hs) as (_ & Hl & _). rewrite Hl.
    pose proof (Hinv _ (Initiative_found_in _ _ _ _ Hfound)) as Hnd.
    destruct (findIndex _ _ >? -1) eqn:Hidx; simpl.
    + now apply NoDup_splice1.
    + apply NoDup_add_last; [assumption|].
      apply findIndex_absent_iff in Hidx. now apply (not_among_not_in _ user).
Qed.

Lemma toggles_keep_lists_distinct_witness :
  (forall e, In e [cleanup] -> NoDup (Event.attendees e))
  /\ forall e,
      In e (snd (EventRoutes.attend castHex cleanup_id bob [cleanup])) ->
      NoDup (Event.attendees e).
Proof.
  assert (H : forall e, In e [cleanup] -> NoDup (Event.attendees e)).
  { intros e [<-|[]]. simpl. repeat constructor. intros []. }
  split; [exact H|].
  exact (proj1 (proj1 (toggles_keep_lists_distinct castHex cleanup_id bob)
                      [cleanup] H)).
Defined.

(* ------------------------------------------------------------------ *)
(** ** Comments *)

(** X9. The comment route stores nothing: whatever the request, the
    collection is left as it was, and the answer is 400 (no text), 404 (no
    such initiative) or 500. The object it puts into [comments] carries
    the text under the key [text], which the schema does not declare, and
    none under [content], which the schema requires. *)
Theorem comment_route_never_stores
        (castObjectId : string -> option ObjectId) (id : string)
        (commenter : User.t) (text : string)
        (initiatives : InitiativeComments.Store) :
  let result :=
    InitiativeComments.comment castObjectId id commenter text initiatives in
  snd result = initiatives
  /\ (status (fst result) = 400 \/ status (fst result) = 404
      \/ status (fst result) = 500).
Proof.
  unfold InitiativeComments.comment.
  destruct (negb (List.length (EventRoutes.required "Text is required" text)
                  =? 0)%nat); simpl; [auto|].
  destruct (InitiativeComments.findById castObjectId id initiatives)
    as [[initiative|]|e]; simpl; auto.
Qed.

(** X10. [addComment], in contrast, stores the comment: on a document
    whose comments and other paths are valid, a text of 1 to 1000
    characters is appended as the last comment, by the given user, and the
    earlier comments are kept; an empty or longer text is refused by
    validation. *)
Theorem addComment_appends_valid_text
        (userId : ObjectId) (text : string) (this : InitiativeComments.Doc) :
  forallb InitiativeComments.valid_comment (InitiativeComments.comments this)
  = true ->
  Initiative.valid (InitiativeComments.base this) = true ->
  (text <> "" /\ (String.length text <= 1000)%nat ->
   exists this' : InitiativeComments.Doc,
     InitiativeComments.addComment userId text this = Ret this'
     /\ InitiativeComments.comments this'
        = (InitiativeComments.comments this
           ++ [InitiativeComments.mkComment (Some userId) (Some text) []])%list)
  /\ (text = "" \/ (1000 < String.length text)%nat ->
      InitiativeComments.addComment userId text this = Throw ValidationError).
Proof.
  intros Hcomments Hfeedback.
  unfold InitiativeComments.addComment, InitiativeComments.save.
  change (InitiativeComments.cast_comment
            [("user", userId); ("content", text)])
    with (InitiativeComments.mkComment (Some userId) (Some text) []).
  cbn [InitiativeComments.comments InitiativeComments.base].
  rewrite forallb_app, Hcomments.
  cbn [forallb andb]. unfold InitiativeComments.valid_comment.
  cbn [InitiativeComments.content].
  split.
  - intros [Hne Hlen].
    apply String.eqb_neq in Hne. apply Nat.leb_le in Hlen.
    rewrite Hne.
    match goal with
    | |- context [(?a <=? ?b)%nat] =>
        replace (a <=? b)%nat with true by (symmetry; exact Hlen)
    end.
    cbn [negb andb].
    unfold Initiative.save. rewrite Hfeedback. cbn [bind]. eauto.
  - intros [->|Hlen]; [reflexivity|].
    apply Nat.leb_gt in Hlen.
    match goal with
    | |- context [(?a <=? ?b)%nat] =>
        replace (a <=? b)%nat with false by (symmetry; exact Hlen)
    end.
    now rewrite !andb_false_r.
Qed.

Lemma addComment_appends_valid_text_witness :
  forallb InitiativeComments.valid_comment
          (InitiativeComments.comments garden_doc) = true
  /\ Initiative.valid (InitiativeComments.base garden_doc) = true
  /\ InitiativeComments.addComment carol_id "" garden_doc
     = Throw ValidationError.
Proof.
  split; [reflexivity|]. split; [reflexivity|].
  exact (proj2 (addComment_appends_valid_text carol_id "" garden_doc
                  eq_refl eq_refl) (or_introl eq_refl)).
Defined.

(** The route and the method on the garden: Carol's comment is stored by
    the method and not by the route. *)
Example comment_on_garden :
  InitiativeComments.comment castHex garden_id carol "Me too" [garden_doc]
  = (Failed 500 "Server error", [garden_doc])
  /\ match InitiativeComments.addComment carol_id "Me too" garden_doc with
     | Ret this' =>
         map InitiativeComments.content (InitiativeComments.comments this')
         = [Some "Count me in"; Some "Me too"]
     | Throw _ => False
     end.
Proof. vm_compute. split; reflexivity. Qed.

(* ------------------------------------------------------------------ *)
(** ** Creating an event, creating an initiative *)

Lemma Event_persist_fresh (new old : Event.t) (events : EventRoutes.Store) :
  (forall d, In d events -> Event._id d <> Event._id new) ->
  Event._id old = Event._id new ->
  EventRoutes.persist new (events ++ [old])%list = (events ++ [new])%list.
Proof.
  intros Hfresh Hid. unfold EventRoutes.persist. rewrite map_app. simpl.
  rewrite Hid, String.eqb_refl. f_equal.
  induction events as [|d events IH]; simpl; [reflexivity|].
  rewrite IH by (intros d' Hd'; apply Hfresh; now right).
  assert (Hd : Event._id d <> Event._id new) by (apply Hfresh; now left).
  apply String.eqb_neq in Hd. now rewrite Hd.
Qed.

Lemma Initiative_persist_fresh (new old : Initiative.t)
      (initiatives : InitiativeRoutes.Store) :
  (forall d, In d initiatives -> Initiative._id d <> Initiative._id new) ->
  Initiative._id old = Initiative._id new ->
  InitiativeRoutes.persist new (initiatives ++ [old])%list
  = (initiatives ++ [new])%list.
Proof.
  intros Hfresh Hid. unfold InitiativeRoutes.persist. rewrite map_app. simpl.
  rewrite Hid, String.eqb_refl. f_equal.
  induction initiatives as [|d initiatives IH]; simpl; [reflexivity|].
  rewrite IH by (intros d' Hd'; apply Hfresh; now right).
  assert (Hd : Initiative._id d <> Initiative._id new)
    by (apply Hfresh; now left).
  apply String.eqb_neq in Hd. now rewrite Hd.
Qed.

(** X11. Creating an event with a fresh identifier either stores exactly
    one new event and answers with it, or stores nothing. The stored
    event is organized by the requesting user, who is its one attendee; it
    is upcoming and public, and its capacity is 0 whatever [maxAttendees]
    the request carried. *)
Theorem created_event_has_organizer_attending
        (castDate : string -> option Date) (newId : ObjectId) (user : User.t)
        (body : EventRoutes.CreateBody) (events : EventRoutes.Store) :
  (forall d, In d events -> Event._id d <> newId) ->
  let result := EventRoutes.create castDate newId user body events in
  (forall e : Event.t,
      fst result = Json e ->
      snd result = (events ++ [e])%list
      /\ Event._id e = newId
      /\ Event.organizer e = Some (User.id user)
      /\ Event.attendees e = [User.id user]
      /\ Event.capacity e = 0
      /\ Event.status e = "upcoming"
      /\ Event.isPublic e = true)
  /\ ((forall e : Event.t, fst result <> Json e) -> snd result = events).
Proof.
  intros Hfresh. unfold EventRoutes.create.
  destruct (negb (List.length (EventRoutes.validationResult body) =? 0)%nat).
  { simpl. split; [discriminate | reflexivity]. }
  unfold EventRoutes.new_Event.
  destruct (castDate (EventRoutes.c_date body)) as [date|]; simpl;
    [|split; [discriminate | reflexivity]].
  match goal with
  | |- context [if ?c then Ret _ else Throw ValidationError] =>
      destruct c eqn:Hc
  end; cbn [bind try_catch]; [|split; [discriminate | reflexivity]].
  match goal with
  | |- context [Event.save ?d] => set (newEvent := d) in *
  end.
  assert (Hv : Event.valid newEvent = true).
  { unfold newEvent, Event.valid, required_text, enum, EventRoutes.categories
      in *.
    cbn. andb_hyps. andb_goal; reflexivity. }
  assert (Hs : Event.save newEvent = Ret newEvent).
  { unfold Event.save. rewrite Hv. reflexivity. }
  rewrite Hs. cbn [bind try_catch].
  unfold Event.save. rewrite Event_valid_set_attendees, Hv.
  cbn [bind try_catch fst snd].
  split.
  - intros e H. inversion H; subst e; clear H.
    rewrite Event_persist_fresh; [|simpl; assumption | reflexivity].
    repeat split; reflexivity.
  - intros H. now destruct (H _ eq_refl).
Qed.

Lemma created_event_has_organizer_attending_witness :
  (forall d, In d [cleanup] -> Event._id d <> picnic_id)
  /\ exists e : Event.t,
      fst (EventRoutes.create sample_castDate picnic_id alice picnic_body
                              [cleanup]) = Json e
      /\ snd (EventRoutes.create sample_castDate picnic_id alice picnic_body
                                 [cleanup]) = [cleanup; e]
      /\ Event.attendees e = [User.id alice]
      /\ Event.capacity e = 0.
Proof.
  assert (H : forall d, In d [cleanup] -> Event._id d <> picnic_id).
  { intros d [<-|[]]. discriminate. }
  split; [exact H|]. eexists. split; [reflexivity|].
  destruct (proj1 (created_event_has_organizer_attending
                     sample_castDate picnic_id alice picnic_body [cleanup] H)
                  _ eq_refl) as (Hs & _ & _ & Ha & Hc & _).
  split; [exact Hs|]. split; [exact Ha | exact Hc].
Defined.

(** X12. Creating an initiative with a fresh identifier either stores
    exactly one new initiative and answers with it, or stores nothing. The
    stored initiative has the requesting user as its creator and as its
    one member; it is in planning, public, without likes and created at
    the time of the request. *)
Theorem created_initiative_has_creator_as_member
        (castDate : string -> option Date) (newId : ObjectId) (now : Date)
        (user : User.t) (body : InitiativeRoutes.CreateBody)
        (initiatives : InitiativeRoutes.Store) :
  (forall d, In d initiatives -> Initiative._id d <> newId) ->
  let result :=
    InitiativeRoutes.create castDate newId now user body initiatives in
  (forall d : Initiative.t,
      fst result = Json d ->
      snd result = (initiatives ++ [d])%list
      /\ Initiative._id d = newId
      /\ Initiative.creator d = Some (User.id user)
      /\ Initiative.members d = [User.id user]
      /\ Initiative.likes d = []
      /\ Initiative.status d = "planning"
      /\ Initiative.isPublic d = true
      /\ Initiative.createdAt d = now)
  /\ ((forall d : Initiative.t, fst result <> Json d) ->
      snd result = initiatives).
Proof.
  intros Hfresh. unfold InitiativeRoutes.create.
  destruct (negb (List.length (InitiativeRoutes.validationResult body)
                  =? 0)%nat).
  { simpl. split; [discriminate | reflexivity]. }
  unfold InitiativeRoutes.new_Initiative.
  destruct (InitiativeRoutes.c_startDate body) as [start|]; simpl;
    [|split; [discriminate | reflexivity]].
  destruct (castDate start) as [date|]; simpl;
    [|split; [discriminate | reflexivity]].
  match goal with
  | |- context [if ?c then Ret _ else Throw ValidationError] =>
      destruct c eqn:Hc
  end; cbn [bind try_catch]; [|split; [discriminate | reflexivity]].
  match goal with
  | |- context [Initiative.save ?d] => set (newInitiative := d) in *
  end.
  assert (Hv : Initiative.valid newInitiative = true).
  { unfold newInitiative, Initiative.valid, required_text, enum,
      InitiativeRoutes.categories in *.
    cbn. andb_hyps. andb_goal; reflexivity. }
  assert (Hs : Initiative.save newInitiative = Ret newInitiative).
  { unfold Initiative.save. rewrite Hv. reflexivity. }
  rewrite Hs. cbn [bind try_catch].
  unfold Initiative.save.
  change (Initiative.valid (Initiative.set_members ?m ?d))
    with (Initiative.valid d).
  rewrite Hv. cbn [bind try_catch fst snd].
  split.
  - intros d H. inversion H; subst d; clear H.
    rewrite Initiative_persist_fresh; [|simpl; assumption | reflexivity].
    repeat split; reflexivity.
  - intros H. now destruct (H _ eq_refl).
Qed.

Lemma created_initiative_has_creator_as_member_witness :
  (forall d, In d [garden] -> Initiative._id d <> orchard_id)
  /\ exists d : Initiative.t,
      fst (InitiativeRoutes.create sample_castDate orchard_id 3000 bob
                                   orchard_body [garden]) = Json d
      /\ snd (InitiativeRoutes.create sample_castDate orchard_id 3000 bob
                                      orchard_body [garden]) = [garden; d]
      /\ Initiative.title d = "Orchard"
      /\ Initiative.members d = [User.id bob].
Proof.
  assert (H : forall d, In d [garden] -> Initiative._id d <> orchard_id).
  { intros d [<-|[]]. discriminate. }
  split; [exact H|]. eexists. split; [reflexivity|].
  destruct (proj1 (created_initiative_has_creator_as_member
                     sample_castDate orchard_id 3000 bob orchard_body
                     [garden] H)
                  _ eq_refl) as (Hs & _ & _ & Hm & _).
  split; [exact Hs|]. split; [reflexivity | exact Hm].
Defined.

(* ------------------------------------------------------------------ *)
(** ** Deleting, and looking up afterwards *)

Lemma find_after_remove {A : Type} (key : A -> string) (oid : string)
      (l : list A) :
  find (fun d => String.eqb (key d) oid)
       (filter (fun d => negb (String.eqb (key d) oid)) l)
  = None.
Proof.
  induction l as [|d l IH]; simpl; [reflexivity|].
  destruct (String.eqb (key d) oid) eqn:E; simpl; [assumption|].
  now rewrite E.
Qed.

(** X13. What the creator (organizer) or an admin deletes is gone, when
    the stored document has a creator (organizer): the delete request is
    answered 200, every document with that identifier leaves the
    collection and the others stay, and a get-by-id that follows is
    answered 404. A stored document whose creator (organizer) is null is
    deleted by nobody, an admin included: reading [creator.toString()]
    throws, the request is answered 500 and the collection is unchanged. *)
Theorem deleted_document_is_gone
        (castObjectId : string -> option ObjectId) (id : string)
        (user : User.t) :
  (forall (initiatives : InitiativeRoutes.Store) (initiative : Initiative.t),
      InitiativeRoutes.findById castObjectId id initiatives
      = Ret (Some initiative) ->
      let result := InitiativeRoutes.delete castObjectId id user initiatives in
      (forall creator : ObjectId,
          Initiative.creator initiative = Some creator ->
          creator = User.id user \/ User.role user = "admin" ->
          fst result = Json "Initiative removed"
          /\ (forall d, In d (snd result) <->
                        In d initiatives
                        /\ Initiative._id d <> Initiative._id initiative)
          /\ InitiativeRoutes.get_by_id castObjectId id (snd result)
             = Failed 404 "Initiative not found")
      /\ (Initiative.creator initiative = None ->
          result = (Failed 500 "Server error", initiatives)))
  /\ (forall (events : EventRoutes.Store) (event : Event.t),
         EventRoutes.findById castObjectId id events = Ret (Some event) ->
         let result := EventRoutes.delete castObjectId id user events in
         (forall organizer : ObjectId,
             Event.organizer event = Some organizer ->
             organizer = User.id user \/ User.role user = "admin" ->
             fst result = Json "Event removed"
             /\ (forall d, In d (snd result) <->
                           In d events /\ Event._id d <> Event._id event)
             /\ EventRoutes.get_by_id castObjectId id (snd result)
                = Failed 404 "Event not found")
         /\ (Event.organizer event = None ->
             result = (Failed 500 "Server error", events))).
Proof.
  split.
  - intros initiatives initiative Hfound.
    unfold InitiativeRoutes.delete. rewrite Hfound. cbn [bind try_catch].
    split.
    + intros creator Hc Hmay. rewrite Hc. simpl.
      assert (Hgo : negb (String.eqb creator (User.id user))
                    && negb (String.eqb (User.role user) "admin") = false).
      { destruct Hmay as [-> | ->]; rewrite String.eqb_refl; simpl;
          [reflexivity | apply andb_false_r]. }
      rewrite Hgo. simpl. split; [reflexivity|]. split.
      * intros d. unfold InitiativeRoutes.remove. rewrite filter_In.
        rewrite negb_true_iff, String.eqb_neq. reflexivity.
      * unfold InitiativeRoutes.get_by_id, InitiativeRoutes.findById in *.
        destruct (castObjectId id) as [oid|]; [|discriminate].
        inversion Hfound as [Hfind]. apply find_some in Hfind as [_ Hid].
        apply String.eqb_eq in Hid. unfold InitiativeRoutes.remove.
        rewrite Hid, (find_after_remove Initiative._id). reflexivity.
    + intros Hc. rewrite Hc. reflexivity.
  - intros events event Hfound.
    unfold EventRoutes.delete. rewrite Hfound. cbn [bind try_catch].
    split.
    + intros organizer Hc Hmay. rewrite Hc. simpl.
      assert (Hgo : negb (String.eqb organizer (User.id user))
                    && negb (String.eqb (User.role user) "admin") = false).
      { destruct Hmay as [-> | ->]; rewrite String.eqb_refl; simpl;
          [reflexivity | apply andb_false_r]. }
      rewrite Hgo. simpl. split; [reflexivity|]. split.
      * intros d. unfold EventRoutes.remove. rewrite filter_In.
        rewrite negb_true_iff, String.eqb_neq. reflexivity.
      * unfold EventRoutes.get_by_id, EventRoutes.findById in *.
        destruct (castObjectId id) as [oid|]; [|discriminate].
        inversion Hfound as [Hfind]. apply find_some in Hfind as [_ Hid].
        apply String.eqb_eq in Hid. unfold EventRoutes.remove.
        rewrite Hid, (find_after_remove Event._id). reflexivity.
    + intros Hc. rewrite Hc. reflexivity.
Qed.

Lemma deleted_document_is_gone_witness :
  InitiativeRoutes.findById castHex garden_id [garden; hidden_garden]
  = Ret (Some garden)
  /\ Initiative.creator garden = Some alice_id
  /\ (alice_id = User.id dave \/ User.role dave = "admin")
  /\ fst (InitiativeRoutes.delete castHex garden_id dave
            [garden; hidden_garden]) = Json "Initiative removed"
  /\ InitiativeRoutes.get_by_id castHex garden_id
       (snd (InitiativeRoutes.delete castHex garden_id dave
               [garden; hidden_garden]))
     = Failed 404 "Initiative not found".
Proof.
  split; [reflexivity|]. split; [reflexivity|]. split; [right; reflexivity|].
  destruct (proj1 (proj1 (deleted_document_is_gone castHex garden_id dave)
                         [garden; hidden_garden] garden eq_refl)
                  alice_id eq_refl (or_intror eq_refl)) as (H1 & _ & H3).
  split; [exact H1 | exact H3].
Defined.

(* ------------------------------------------------------------------ *)
(** ** Messages: who may see and delete them, and the unread count *)

(** X14. A message is closed to third parties: for a stored message of
    which the user is neither sender nor recipient, get-by-id never
    answers with the message and marks nothing read, and mark-read and
    delete are answered 403 and change nothing. *)
Theorem message_closed_to_third_parties
        (castObjectId : string -> option ObjectId) (now : Date) (id : string)
        (user : User.t) (users : list User.t)
        (messages : MessageRoutes.Store) (message : Message.t) :
  MessageRoutes.findById castObjectId id messages = Ret (Some message) ->
  Message.sender message <> User.id user ->
  Message.recipient message <> User.id user ->
  (status (fst (MessageRoutes.get_by_id castObjectId now id user users
                                        messages)) = 403
   \/ status (fst (MessageRoutes.get_by_id castObjectId now id user users
                                           messages)) = 500)
  /\ snd (MessageRoutes.get_by_id castObjectId now id user users messages)
     = messages
  /\ MessageRoutes.mark_read castObjectId now id user messages
     = (Failed 403 "Access denied", messages)
  /\ MessageRoutes.delete castObjectId id user messages
     = (Failed 403 "Access denied", messages).
Proof.
  intros Hfound Hs Hr.
  assert (Hget : exists code text,
             MessageRoutes.get_by_id castObjectId now id user users messages
             = (Failed code text, messages) /\ (code = 403 \/ code = 500)).
  { unfold MessageRoutes.get_by_id, MessageRoutes.populated_id,
      MessageRoutes.populate.
    rewrite Hfound. simpl.
    destruct (find _ users) as [s|] eqn:Hps; simpl; [|eauto 6].
    apply find_some in Hps as [_ Hps]. apply String.eqb_eq in Hps.
    rewrite Hps, (not_eqb _ _ Hs). simpl.
    destruct (find _ users) as [r|] eqn:Hpr; simpl; [|eauto 6].
    apply find_some in Hpr as [_ Hpr]. apply String.eqb_eq in Hpr.
    rewrite Hpr, (not_eqb _ _ Hr). simpl. eauto 6. }
  destruct Hget as (code & text & -> & Hcode). simpl.
  split; [exact Hcode|]. split; [reflexivity|]. split.
  - unfold MessageRoutes.mark_read. rewrite Hfound. simpl.
    now rewrite (not_eqb _ _ Hr).
  - unfold MessageRoutes.delete. rewrite Hfound. simpl.
    now rewrite (not_eqb _ _ Hs), (not_eqb _ _ Hr).
Qed.

Lemma message_closed_to_third_parties_witness :
  MessageRoutes.findById castHex hello_id [hello] = Ret (Some hello)
  /\ Message.sender hello <> User.id carol
  /\ Message.recipient hello <> User.id carol
  /\ MessageRoutes.delete castHex hello_id carol [hello]
     = (Failed 403 "Access denied", [hello]).
Proof.
  assert (Hs : Message.sender hello <> User.id carol) by discriminate.
  assert (Hr : Message.recipient hello <> User.id carol) by discriminate.
  split; [reflexivity|]. split; [exact Hs|]. split; [exact Hr|].
  exact (proj2 (proj2 (proj2 (message_closed_to_third_parties
                                castHex 0 hello_id carol some_users [hello]
                                hello eq_refl Hs Hr)))).
Defined.

(** X15. Either participant may delete a message, and then it is gone
    for both: the request of the sender or of the recipient is answered
    200, every message with that identifier leaves the collection, and a
    get-by-id that follows is answered 404 for whoever asks. *)
Theorem deleted_message_is_gone
        (castObjectId : string -> option ObjectId) (now : Date) (id : string)
        (user : User.t) (messages : MessageRoutes.Store)
        (message : Message.t) :
  MessageRoutes.findById castObjectId id messages = Ret (Some message) ->
  Message.sender message = User.id user
  \/ Message.recipient message = User.id user ->
  let result := MessageRoutes.delete castObjectId id user messages in
  fst result = Json "Message deleted"
  /\ (forall m, In m (snd result) <->
                In m messages /\ Message._id m <> Message._id message)
  /\ forall (viewer : User.t) (users : list User.t),
      MessageRoutes.get_by_id castObjectId now id viewer users (snd result)
      = (Failed 404 "Message not found", snd result).
Proof.
  intros Hfound Hmay. unfold MessageRoutes.delete. rewrite Hfound. simpl.
  assert (Hgo : negb (String.eqb (Message.sender message) (User.id user))
                && negb (String.eqb (Message.recipient message)
                                    (User.id user)) = false).
  { destruct Hmay as [-> | ->]; rewrite String.eqb_refl; simpl;
      [reflexivity | apply andb_false_r]. }
  rewrite Hgo. simpl. split; [reflexivity|]. split.
  - intros m. unfold MessageRoutes.remove. rewrite filter_In.
    rewrite negb_true_iff, String.eqb_neq. reflexivity.
  - intros viewer users.
    unfold MessageRoutes.get_by_id, MessageRoutes.findById in *.
    destruct (castObjectId id) as [oid|]; [|discriminate].
    inversion Hfound as [Hfind]. apply find_some in Hfind as [_ Hid].
    apply String.eqb_eq in Hid. unfold MessageRoutes.remove.
    rewrite Hid, (find_after_remove Message._id). reflexivity.
Qed.

Lemma deleted_message_is_gone_witness :
  MessageRoutes.findById castHex hello_id [hello; news] = Ret (Some hello)
  /\ (Message.sender hello = User.id alice
      \/ Message.recipient hello = User.id alice)
  /\ fst (MessageRoutes.delete castHex hello_id alice [hello; news])
     = Json "Message deleted".
Proof.
  split; [reflexivity|]. split; [left; reflexivity|].
  exact (proj1 (deleted_message_is_gone castHex 0 hello_id alice
                  [hello; news] hello eq_refl (or_introl eq_refl))).
Defined.

Lemma Message_persist_absent (new : Message.t) (messages : MessageRoutes.Store) :
  ~ In (Message._id new) (map Message._id messages) ->
  MessageRoutes.persist new messages = messages.
Proof.
  unfold MessageRoutes.persist.
  induction messages as [|m l IH]; simpl; intros H; [reflexivity|].
  rewrite IH by tauto.
  assert (Hm : Message._id m <> Message._id new) by tauto.
  apply String.eqb_neq in Hm. now rewrite Hm.
Qed.

Lemma count_after_persist (p : Message.t -> bool) (new old : Message.t)
      (messages : MessageRoutes.Store) :
  NoDup (map Message._id messages) ->
  In old messages ->
  Message._id new = Message._id old ->
  Z.of_nat (List.length (filter p (MessageRoutes.persist new messages)))
  = Z.of_nat (List.length (filter p messages))
    - (if p old then 1 else 0) + (if p new then 1 else 0).
Proof.
  intros Hnd Hin Hid.
  induction messages as [|m l IH]; simpl in *; [contradiction|].
  inversion Hnd as [|x xs Hx Hxs]; subst.
  fold (MessageRoutes.persist new l).
  destruct Hin as [-> | Hin].
  - assert (Hm : String.eqb (Message._id old) (Message._id new) = true)
      by (apply String.eqb_eq; congruence).
    rewrite Hm, Message_persist_absent by now rewrite Hid.
    destruct (p old), (p new); cbn [List.length]; lia.
  - assert (Hm : Message._id m <> Message._id new).
    { rewrite Hid. intros E. apply Hx. rewrite E. now apply in_map. }
    apply String.eqb_neq in Hm. rewrite Hm.
    specialize (IH Hxs Hin).
    destruct (p m); cbn [List.length]; lia.
Qed.

Lemma Message_found_in (castObjectId : string -> option ObjectId)
      (id : string) (messages : MessageRoutes.Store) (message : Message.t) :
  MessageRoutes.findById castObjectId id messages = Ret (Some message) ->
  In message messages.
Proof.
  unfold MessageRoutes.findById. destruct (castObjectId id); [|discriminate].
  intros H; inversion H as [Hf]. now apply find_some in Hf as [Hin _].
Qed.

(** X16. Marking read lowers the unread count by the one message: in a
    collection with distinct identifiers, after the recipient's mark-read
    of a stored valid message the recipient's unread count is one less if
    the message was unread and the same if it was read, and nobody else's
    unread count changes. *)
Theorem reading_lowers_unread_count
        (castObjectId : string -> option ObjectId) (now : Date) (id : string)
        (user : User.t) (messages : MessageRoutes.Store)
        (message : Message.t) :
  NoDup (map Message._id messages) ->
  MessageRoutes.findById castObjectId id messages = Ret (Some message) ->
  Message.recipient message = User.id user ->
  Message.valid message = true ->
  let after :=
    snd (MessageRoutes.mark_read castObjectId now id user messages) in
  MessageRoutes.unread_count user after
  = Json (Z.of_nat (List.length
                      (filter (MessageRoutes.unread_by user) messages))
          - (if Message.isRead message then 0 else 1))
  /\ forall other : User.t,
      User.id other <> User.id user ->
      MessageRoutes.unread_count other after
      = MessageRoutes.unread_count other messages.
Proof.
  intros Hnd Hfound Hto Hvalid.
  pose proof (Message_found_in _ _ _ _ Hfound) as Hin.
  unfold MessageRoutes.mark_read. rewrite Hfound. simpl.
  rewrite Hto, String.eqb_refl. simpl.
  unfold Message.save.
  replace (Message.valid _) with true by (symmetry; exact Hvalid).
  simpl. unfold MessageRoutes.unread_count. split.
  - f_equal. rewrite (count_after_persist _ _ message) by auto.
    unfold MessageRoutes.unread_by at 2 3. simpl.
    rewrite Hto, String.eqb_refl, andb_false_r. simpl.
    destruct (Message.isRead message); simpl; lia.
  - intros other Hother. f_equal.
    rewrite (count_after_persist _ _ message) by auto.
    unfold MessageRoutes.unread_by at 2 3. simpl.
    assert (E : String.eqb (Message.recipient message) (User.id other) = false).
    { apply String.eqb_neq. congruence. }
    rewrite E. simpl. lia.
Qed.

Lemma reading_lowers_unread_count_witness :
  NoDup (map Message._id [hello; news])
  /\ MessageRoutes.findById castHex news_id [hello; news] = Ret (Some news)
  /\ Message.recipient news = User.id bob
  /\ Message.valid news = true
  /\ MessageRoutes.unread_count bob [hello; news] = Json 1
  /\ MessageRoutes.unread_count bob
       (snd (MessageRoutes.mark_read castHex 2000 news_id bob [hello; news]))
     = Json 0.
Proof.
  assert (Hnd : NoDup (map Message._id [hello; news])).
  { simpl. constructor; [|constructor; [intros []|constructor]].
    intros [E|[]]. discriminate. }
  split; [exact Hnd|]. split; [reflexivity|]. split; [reflexivity|].
  split; [reflexivity|]. split; [reflexivity|].
  exact (proj1 (reading_lowers_unread_count castHex 2000 news_id bob
                  [hello; news] news Hnd eq_refl eq_refl eq_refl)).
Defined.

(** X17. A message that is sent arrives unread: whenever a send request
    is answered with the message, that message is the one new document of
    the collection, it is unread, its sender and recipient are what the
    sender's identifier and the request's recipient are cast to, the
    unread count of its recipient is one more than before and the sender's
    sent total is one more than before. *)
Theorem sent_message_arrives_unread
        (castObjectId : string -> option ObjectId) (newId : ObjectId)
        (now : Date) (user : User.t) (body : MessageRoutes.SendBody)
        (users : list User.t) (messages : MessageRoutes.Store)
        (m : Message.t) :
  fst (MessageRoutes.send castObjectId newId now user body users messages)
  = Json m ->
  snd (MessageRoutes.send castObjectId newId now user body users messages)
  = (messages ++ [m])%list
  /\ Message.isRead m = false
  /\ castObjectId (User.id user) = Some (Message.sender m)
  /\ castObjectId (MessageRoutes.b_recipient body) = Some (Message.recipient m)
  /\ (forall reader : User.t,
         User.id reader = Message.recipient m ->
         MessageRoutes.unread_count reader (messages ++ [m])%list
         = Json (Z.of_nat (List.length
                             (filter (MessageRoutes.unread_by reader) messages))
                 + 1))
  /\ (forall writer : User.t,
         User.id writer = Message.sender m ->
         List.length
           (filter (fun x => String.eqb (Message.sender x) (User.id writer))
                   (messages ++ [m])%list)
         = S (List.length
                (filter (fun x => String.eqb (Message.sender x)
                                             (User.id writer))
                        messages))).
Proof.
  unfold MessageRoutes.send.
  destruct (negb (List.length (MessageRoutes.validationResult body) =? 0)%nat);
    [discriminate|].
  destruct (User.findById castObjectId (MessageRoutes.b_recipient body) users)
    as [[found|]|e]; simpl; try discriminate.
  destruct (String.eqb (MessageRoutes.b_recipient body) (User.id user));
    simpl; [discriminate|].
  unfold MessageRoutes.cast_optional_ref, MessageRoutes.cast_ref.
  destruct (castObjectId (User.id user)) as [sender|]; simpl;
    [|discriminate].
  destruct (castObjectId (MessageRoutes.b_recipient body)) as [recipient|];
    simpl; [|discriminate].
  destruct (MessageRoutes.b_initiative body) as [i|]; simpl;
    [destruct (castObjectId i); simpl; [|discriminate]|];
    (destruct (MessageRoutes.b_event body) as [ev|]; simpl;
     [destruct (castObjectId ev); simpl; [|discriminate]|]);
    unfold Message.save;
    (destruct (Message.valid _); simpl; [|discriminate]);
    intros H; inversion H; subst m; clear H; simpl;
    (split; [reflexivity|]); (split; [reflexivity|]);
    (split; [reflexivity|]); (split; [reflexivity|]);
    (split;
     [ intros reader Hreader; unfold MessageRoutes.unread_count;
       rewrite filter_app, length_app; simpl;
       unfold MessageRoutes.unread_by at 2; simpl;
       rewrite Hreader, String.eqb_refl; simpl; f_equal; lia
     | intros writer Hwriter; rewrite filter_app, length_app; simpl;
       rewrite Hwriter, String.eqb_refl; simpl; lia ]).
Qed.

Lemma sent_message_arrives_unread_witness :
  exists m : Message.t,
    fst (MessageRoutes.send castHex "64b7f0c2a1d3e45f67890d02" 2000 bob
           (MessageRoutes.mkSendBody alice_id "Thanks" "It went well"
                                     None None None None)
           some_users [hello])
    = Json m
    /\ MessageRoutes.unread_count alice [hello; m] = Json 1.
Proof.
  eexists. split; [reflexivity|].
  exact (proj1 (proj2 (proj2 (proj2 (proj2
           (sent_message_arrives_unread castHex "64b7f0c2a1d3e45f67890d02"
              2000 bob
              (MessageRoutes.mkSendBody alice_id "Thanks" "It went well"
                                        None None None None)
              some_users [hello] _ eq_refl)))))
         alice eq_refl).
Defined.

(* ------------------------------------------------------------------ *)
(** ** Notifications: read-all *)

(** X18. Read-all is not scoped to the requesting user either. Under
    [strictQuery] it leaves every notification of every recipient read;
    without it, it changes nothing. In both cases it is answered 200, it
    changes no recipient, and the unread count that follows is 0. *)
Theorem read_all_marks_all_or_nothing
        (strictQuery : bool) (user : User.t)
        (notifications : NotificationRoutes.Store) :
  let result := NotificationRoutes.read_all strictQuery user notifications in
  status (fst result) = 200
  /\ (if strictQuery
      then forall n, In n (snd result) -> Notification.isRead n = true
      else snd result = notifications)
  /\ map Notification.recipient (snd result)
     = map Notification.recipient notifications
  /\ NotificationRoutes.unread_count strictQuery user (snd result) = Json 0.
Proof.
  unfold NotificationRoutes.read_all, NotificationRoutes.unread_count,
    NotificationRoutes.user_is. simpl.
  split; [reflexivity|]. destruct strictQuery; simpl.
  - split; [|split].
    + intros n Hn. apply in_map_iff in Hn as (n0 & <- & _).
      destruct (Notification.isRead n0) eqn:E; simpl; auto.
    + rewrite map_map. apply map_ext. intros n.
      now destruct (negb (Notification.isRead n)).
    + replace (filter _ _) with (@nil Notification.t); [reflexivity|].
      induction notifications as [|n l IH]; simpl; [reflexivity|].
      destruct (Notification.isRead n) eqn:E; simpl; now rewrite ?E.
  - split; [|split].
    + apply map_id.
    + now rewrite map_id.
    + replace (filter _ _) with (@nil Notification.t); [reflexivity|].
      induction notifications as [|n l IH]; simpl; [reflexivity|]. exact IH.
Qed.

(** Alice's read-all marks Bob's welcome read. *)
Example read_all_reaches_other_recipients :
  map Notification.isRead
      (snd (NotificationRoutes.read_all true alice [reminder; welcome]))
  = [true; true].
Proof. reflexivity. Qed.

(* ------------------------------------------------------------------ *)
(** ** Donations *)

(** X19. The donation administration is closed to everybody but admins:
    for a user whose role is not 'admin', listing all donations and the
    statistics are answered 403, and a status update is answered 400 (for
    an unknown status) or 403 and changes nothing. *)
Theorem donations_admin_only
        (castObjectId : string -> option ObjectId)
        (startOfYear : Date -> Date)
        (overallGroups : DonationRoutes.Store -> list DonationRoutes.Overall)
        (monthlyGroups : Date -> DonationRoutes.Store
                         -> list DonationRoutes.Group)
        (now : Date)
        (id : string) (user : User.t) (newStatus : string)
        (transactionId : option string) (donations : DonationRoutes.Store) :
  User.role user <> "admin" ->
  DonationRoutes.get_all user donations = Failed 403 "Access denied"
  /\ DonationRoutes.stats startOfYear overallGroups monthlyGroups now user
                          donations
     = Failed 403 "Access denied"
  /\ snd (DonationRoutes.update_status castObjectId id user newStatus
                                       transactionId donations) = donations
  /\ (status (fst (DonationRoutes.update_status castObjectId id user newStatus
                                                transactionId donations)) = 400
      \/ fst (DonationRoutes.update_status castObjectId id user newStatus
                                           transactionId donations)
         = Failed 403 "Access denied").
Proof.
  intros Hrole.
  unfold DonationRoutes.get_all, DonationRoutes.stats,
    DonationRoutes.update_status.
  rewrite (not_eqb _ _ Hrole).
  split; [reflexivity|]. split; [reflexivity|].
  destruct (negb (List.length (DonationRoutes.statusValidation newStatus)
                  =? 0)%nat); simpl; auto.
Qed.

Lemma donations_admin_only_witness :
  User.role bob <> "admin"
  /\ DonationRoutes.get_all bob [gift; pledge] = Failed 403 "Access denied"
  /\ snd (DonationRoutes.update_status castHex pledge_id bob "completed" None
                                       [gift; pledge]) = [gift; pledge].
Proof.
  assert (H : User.role bob <> "admin") by discriminate.
  split; [exact H|].
  destruct (donations_admin_only castHex sample_startOfYear
              sample_overallGroups sample_monthlyGroups 0
              pledge_id bob "completed" None [gift; pledge] H)
    as (H1 & _ & H3 & _).
  split; [exact H1 | exact H3].
Defined.

Lemma sum_insert_desc (x : Donation.t) (l : list Donation.t) :
  (sum_amounts (insert_desc Donation.createdAt x l)
   == Donation.amount x + sum_amounts l)%Q.
Proof.
  unfold sum_amounts.
  induction l as [|y l IH]; simpl; [reflexivity|].
  destruct (Donation.createdAt y <=? Donation.createdAt x); simpl;
    [reflexivity|].
  rewrite IH. ring.
Qed.

Lemma sum_sort_desc (l : list Donation.t) :
  (sum_amounts (sort_desc Donation.createdAt l) == sum_amounts l)%Q.
Proof.
  induction l as [|x l IH]; [reflexivity|].
  unfold sort_desc in *. simpl. rewrite sum_insert_desc, IH.
  reflexivity.
Qed.

Lemma sum_whole_amounts (l : list Donation.t) :
  (forall d, In d l -> whole_amount d) ->
  (forall z, In z (map (fun d => Qnum (Donation.amount d)) l) -> 0 <= z)
  /\ map (fun d => Finite (Donation.amount d)) l
     = map (fun z => Finite (inject_Z z))
           (map (fun d => Qnum (Donation.amount d)) l)
  /\ (sum_amounts l
      == inject_Z (fold_right Z.add 0%Z
                     (map (fun d => Qnum (Donation.amount d)) l)))%Q.
Proof.
  unfold sum_amounts.
  induction l as [|d l IH]; intros H; simpl.
  - repeat split. intros z [].
  - destruct (H d (or_introl eq_refl)) as (z & Hz & E).
    destruct IH as (IH1 & IH2 & IH3); [intros x Hx; apply H; now right|].
    rewrite E. cbn [inject_Z Qnum]. split; [|split].
    + intros w [<-|Hw]; [assumption | now apply IH1].
    + now rewrite IH2.
    + rewrite IH3, inject_Z_plus. reflexivity.
Qed.

(** Whole amounts whose sum is below 2^53 add up without rounding. *)
Lemma reduce_sum_whole_amounts (l : list Donation.t) :
  (forall d, In d l -> whole_amount d) ->
  (sum_amounts l < inject_Z (2 ^ 53))%Q ->
  exists q : Q,
    reduce_sum (fun d => Finite (Donation.amount d)) l = Finite q
    /\ (q == sum_amounts l)%Q.
Proof.
  intros Hw Hs. destruct (sum_whole_amounts l Hw) as (Hpos & Hmap & Hsum).
  rewrite Hsum in Hs. rewrite <- Zlt_Qlt in Hs.
  rewrite reduce_sum_map, Hmap.
  change (Finite 0) with (Finite (inject_Z 0)).
  rewrite fold_add_whole; [|lia|exact Hpos|exact Hs].
  eexists. split; [reflexivity|]. now rewrite Hsum.
Qed.

(** X20. The amount raised for an initiative counts its completed
    donations and no others: the donations of the answer are exactly the
    stored donations to that initiative whose status is 'completed',
    newest first, [totalDonations] is their number and [totalAmount] is
    their amounts added in that order, from 0, in the arithmetic of
    Numbers. When these amounts are whole numbers and their sum is below
    2^53 no addition rounds, and [totalAmount] is the sum of the amounts.
    An identifier that cannot be cast is answered 500. *)
Theorem raised_counts_completed_donations
        (castObjectId : string -> option ObjectId) (id : string)
        (donations : DonationRoutes.Store) :
  match castObjectId id with
  | None =>
      DonationRoutes.for_initiative castObjectId id donations
      = Failed 500 "Server error"
  | Some oid =>
      exists r : DonationRoutes.Raised,
        DonationRoutes.for_initiative castObjectId id donations = Json r
        /\ (forall d, In d (DonationRoutes.donations_of r) <->
                      In d donations
                      /\ Donation.initiative d = oid
                      /\ Donation.status d = "completed")
        /\ descending Donation.createdAt (DonationRoutes.donations_of r)
        /\ DonationRoutes.totalDonations r
           = Z.of_nat (List.length (DonationRoutes.donations_of r))
        /\ DonationRoutes.totalAmount r
           = fold_left Number_add
                       (map (fun d => Finite (Donation.amount d))
                            (DonationRoutes.donations_of r))
                       (Finite 0)
        /\ ((forall d, In d (DonationRoutes.donations_of r) ->
                       whole_amount d) ->
            (sum_amounts (DonationRoutes.donations_of r)
             < inject_Z (2 ^ 53))%Q ->
            exists q : Q,
              DonationRoutes.totalAmount r = Finite q
              /\ (q == sum_amounts
                         (filter (fun d =>
                                    String.eqb (Donation.initiative d) oid
                                    && String.eqb (Donation.status d)
                                                  "completed")
                                 donations))%Q)
  end.
Proof.
  unfold DonationRoutes.for_initiative.
  destruct (castObjectId id) as [oid|]; [|reflexivity].
  eexists. split; [reflexivity|].
  cbn [DonationRoutes.donations_of DonationRoutes.totalDonations
       DonationRoutes.totalAmount].
  split; [|split; [|split; [|split]]].
  - intros d. rewrite in_sort_desc, filter_In, andb_true_iff.
    rewrite !String.eqb_eq. tauto.
  - apply descending_sort_desc.
  - reflexivity.
  - apply reduce_sum_map.
  - intros Hw Hs.
    destruct (reduce_sum_whole_amounts _ Hw Hs) as (q & Hq & Eq).
    exists q. split; [exact Hq|]. rewrite Eq. apply sum_sort_desc.
Qed.

Lemma raised_counts_completed_donations_witness :
  (forall d, In d [gift] -> whole_amount d)
  /\ (sum_amounts [gift] < inject_Z (2 ^ 53))%Q
  /\ exists r : DonationRoutes.Raised,
      DonationRoutes.for_initiative castHex garden_id [gift; pledge] = Json r
      /\ DonationRoutes.donations_of r = [gift]
      /\ exists q : Q,
          DonationRoutes.totalAmount r = Finite q /\ (q == 25)%Q.
Proof.
  assert (Hw : forall d, In d [gift] -> whole_amount d).
  { intros d [<-|[]]. exists 25. split; [lia | reflexivity]. }
  assert (Hs : (sum_amounts [gift] < inject_Z (2 ^ 53))%Q) by reflexivity.
  split; [exact Hw|]. split; [exact Hs|].
  pose proof (raised_counts_completed_donations castHex garden_id
                                                [gift; pledge]) as H.
  change (castHex garden_id) with (Some garden_id) in H.
  destruct H as (r & Hr & _ & _ & _ & _ & Hsum).
  exists r. split; [exact Hr|].
  assert (Hd : DonationRoutes.donations_of r = [gift]).
  { vm_compute in Hr. inversion Hr. reflexivity. }
  split; [exact Hd|]. rewrite Hd in Hsum.
  destruct (Hsum Hw Hs) as (q & Hq & Eq).
  exists q. split; [exact Hq|]. rewrite Eq. reflexivity.
Defined.

(** On the sample donations the garden has raised the one completed
    gift. *)
Example garden_raised :
  DonationRoutes.for_initiative castHex garden_id [gift; pledge]
  = Json (DonationRoutes.mkRaised [gift] (Finite 25) 1).
Proof. vm_compute. reflexivity. Qed.

(** X21. A donation starts out pending and does not count as raised:
    whenever a create request is answered with the donation, that donation
    is the one new document of the collection, its status is 'pending',
    its amount is the requested one and at least 0.01, its initiative is
    stored, and the amount raised for every initiative is what it was
    before; a request that is not answered with a donation stores
    nothing. *)
Theorem new_donation_is_pending
        (castObjectId : string -> option ObjectId) (newId : ObjectId)
        (now : Date) (user : User.t) (body : DonationRoutes.CreateBody)
        (initiatives : list Initiative.t) (donations : DonationRoutes.Store) :
  let result :=
    DonationRoutes.create castObjectId newId now user body initiatives
                          donations in
  (forall d : Donation.t,
      fst result = Json d ->
      snd result = (donations ++ [d])%list
      /\ Donation.status d = "pending"
      /\ Donation._id d = newId
      /\ Donation.amount d = DonationRoutes.b_amount body
      /\ (1 # 100 <= Donation.amount d)%Q
      /\ castObjectId (User.id user) = Some (Donation.donor d)
      /\ (exists i : Initiative.t,
             InitiativeRoutes.findById castObjectId
               (DonationRoutes.b_initiative body) initiatives = Ret (Some i)
             /\ Initiative._id i = Donation.initiative d)
      /\ forall id' : string,
          DonationRoutes.for_initiative castObjectId id' (snd result)
          = DonationRoutes.for_initiative castObjectId id' donations)
  /\ ((forall d : Donation.t, fst result <> Json d) ->
      snd result = donations).
Proof.
  unfold DonationRoutes.create.
  destruct (negb (List.length (DonationRoutes.validationResult body) =? 0)%nat).
  { simpl. split; [discriminate | reflexivity]. }
  destruct (InitiativeRoutes.findById castObjectId
              (DonationRoutes.b_initiative body) initiatives)
    as [[i|]|e] eqn:Hi; simpl; try (split; [discriminate | reflexivity]).
  unfold DonationRoutes.cast_ref.
  assert (Hcast : castObjectId (DonationRoutes.b_initiative body)
                  = Some (Initiative._id i)).
  { unfold InitiativeRoutes.findById in Hi.
    destruct (castObjectId (DonationRoutes.b_initiative body)) as [oid|];
      [|discriminate].
    inversion Hi as [Hf]. apply find_some in Hf as [_ Hf].
    apply String.eqb_eq in Hf. now rewrite Hf. }
  rewrite Hcast. simpl.
  destruct (castObjectId (User.id user)) as [donor|]; simpl;
    [|split; [discriminate | reflexivity]].
  unfold Donation.save.
  destruct (Donation.valid _) eqn:Hvalid; simpl;
    [|split; [discriminate | reflexivity]].
  split; [|intros H; now destruct (H _ eq_refl)].
  intros d H. inversion H; subst d; clear H. simpl.
  split; [reflexivity|]. split; [reflexivity|]. split; [reflexivity|].
  split; [reflexivity|]. split.
  { unfold Donation.valid in Hvalid. simpl in Hvalid.
    apply andb_prop in Hvalid as [Hvalid _].
    apply andb_prop in Hvalid as [Hvalid _].
    apply andb_prop in Hvalid as [Hvalid _].
    now apply Qle_bool_iff. }
  split; [reflexivity|]. split; [exists i; auto|].
  intros id'. unfold DonationRoutes.for_initiative.
  destruct (castObjectId id') as [oid|]; [|reflexivity].
  rewrite filter_app. simpl. rewrite andb_false_r, app_nil_r. reflexivity.
Qed.

Lemma new_donation_is_pending_witness :
  exists d : Donation.t,
    fst (DonationRoutes.create castHex "64b7f0c2a1d3e45f67890f03" 1400 dave
           pledge_body [garden] [gift; pledge]) = Json d
    /\ Donation.status d = "pending"
    /\ DonationRoutes.for_initiative castHex garden_id
         (snd (DonationRoutes.create castHex "64b7f0c2a1d3e45f67890f03" 1400
                 dave pledge_body [garden] [gift; pledge]))
       = DonationRoutes.for_initiative castHex garden_id [gift; pledge].
Proof.
  eexists. split; [reflexivity|].
  destruct (proj1 (new_donation_is_pending castHex "64b7f0c2a1d3e45f67890f03"
                     1400 dave pledge_body [garden] [gift; pledge])
                  _ eq_refl) as (_ & Hp & _ & _ & _ & _ & _ & Hsame).
  split; [exact Hp | exact (Hsame garden_id)].
Defined.

Lemma Donation_persist_absent (new : Donation.t)
      (donations : DonationRoutes.Store) :
  ~ In (Donation._id new) (map Donation._id donations) ->
  DonationRoutes.persist new donations = donations.
Proof.
  unfold DonationRoutes.persist.
  induction donations as [|d l IH]; simpl; intros H; [reflexivity|].
  rewrite IH by tauto.
  assert (Hd : Donation._id d <> Donation._id new) by tauto.
  apply String.eqb_neq in Hd. now rewrite Hd.
Qed.

Lemma raised_after_persist (p : Donation.t -> bool) (new old : Donation.t)
      (donations : DonationRoutes.Store) :
  NoDup (map Donation._id donations) ->
  In old donations ->
  Donation._id new = Donation._id old ->
  p old = false ->
  p new = true ->
  List.length (filter p (DonationRoutes.persist new donations))
  = S (List.length (filter p donations))
  /\ (sum_amounts (filter p (DonationRoutes.persist new donations))
      == Donation.amount new + sum_amounts (filter p donations))%Q.
Proof.
  intros Hnd Hin Hid Hold Hnew.
  induction donations as [|d l IH]; simpl in *; [contradiction|].
  fold (DonationRoutes.persist new l).
  inversion Hnd as [|x xs Hx Hxs]; subst.
  destruct Hin as [-> | Hin].
  - assert (Hd : String.eqb (Donation._id old) (Donation._id new) = true)
      by (apply String.eqb_eq; congruence).
    rewrite Hd, Donation_persist_absent by now rewrite Hid.
    rewrite Hold, Hnew. split; reflexivity.
  - assert (Hd : Donation._id d <> Donation._id new).
    { rewrite Hid. intros E. apply Hx. rewrite E. now apply in_map. }
    apply String.eqb_neq in Hd. rewrite Hd.
    destruct (IH Hxs Hin) as [IHl IHs].
    destruct (p d); simpl; split; try (now rewrite IHl); try assumption.
    unfold sum_amounts in *. simpl. rewrite IHs. ring.
Qed.

Lemma Donation_found_in (castObjectId : string -> option ObjectId)
      (id : string) (donations : DonationRoutes.Store) (d : Donation.t) :
  DonationRoutes.findById castObjectId id donations = Ret (Some d) ->
  In d donations.
Proof.
  unfold DonationRoutes.findById. destruct (castObjectId id); [|discriminate].
  intros H; inversion H as [Hf]. now apply find_some in Hf as [Hin _].
Qed.

Lemma Donation_in_persist (new x : Donation.t)
      (donations : DonationRoutes.Store) :
  In x (DonationRoutes.persist new donations) -> x = new \/ In x donations.
Proof.
  unfold DonationRoutes.persist. rewrite in_map_iff.
  intros (y & E & Hy).
  destruct (String.eqb (Donation._id y) (Donation._id new));
    [left; now symmetry | right; now subst x].
Qed.

Lemma sum_amounts_nonneg (l : list Donation.t) :
  (forall d, In d l -> whole_amount d) -> (0 <= sum_amounts l)%Q.
Proof.
  intros H. destruct (sum_whole_amounts l H) as (Hpos & _ & ->).
  rewrite <- (Zle_Qle 0).
  induction (map (fun d => Qnum (Donation.amount d)) l) as [|z zs IH];
    simpl; [lia|].
  assert (0 <= z) by (apply Hpos; now left).
  assert (0 <= fold_right Z.add 0 zs); [|lia].
  apply IH. intros w Hw. apply Hpos. now right.
Qed.

(** X22. Completing a donation adds it to the amount raised: in a
    collection with distinct identifiers, when an admin sets a stored,
    valid donation that is not completed to 'completed', the request is
    answered 200 and the initiative of the donation has one more
    completed donation. When the stored amounts are whole numbers and the
    amount raised after the request is below 2^53, the total goes up by
    the amount of the donation. *)
Theorem completing_donation_adds_amount
        (castObjectId : string -> option ObjectId) (id : string)
        (admin : User.t) (transactionId : option string)
        (donations : DonationRoutes.Store) (d : Donation.t)
        (initiativeId : string) :
  NoDup (map Donation._id donations) ->
  DonationRoutes.findById castObjectId id donations = Ret (Some d) ->
  User.role admin = "admin" ->
  Donation.valid d = true ->
  Donation.status d <> "completed" ->
  castObjectId initiativeId = Some (Donation.initiative d) ->
  let result :=
    DonationRoutes.update_status castObjectId id admin "completed"
                                 transactionId donations in
  status (fst result) = 200
  /\ exists before after : DonationRoutes.Raised,
      DonationRoutes.for_initiative castObjectId initiativeId donations
      = Json before
      /\ DonationRoutes.for_initiative castObjectId initiativeId (snd result)
         = Json after
      /\ DonationRoutes.totalDonations after
         = DonationRoutes.totalDonations before + 1
      /\ ((forall x, In x donations -> whole_amount x) ->
          (sum_amounts (DonationRoutes.donations_of before)
           + Donation.amount d < inject_Z (2 ^ 53))%Q ->
          exists b a : Q,
            DonationRoutes.totalAmount before = Finite b
            /\ DonationRoutes.totalAmount after = Finite a
            /\ (a == b + Donation.amount d)%Q).
Proof.
  intros Hnd Hfound Hrole Hvalid Hstatus Hcast.
  pose proof (Donation_found_in _ _ _ _ Hfound) as Hin.
  unfold DonationRoutes.update_status. simpl.
  rewrite Hrole, Hfound. simpl.
  set (d' := match transactionId with
             | Some tx =>
                 if String.eqb tx "" then Donation.set_status "completed" d
                 else Donation.set_transactionId tx
                        (Donation.set_status "completed" d)
             | None => Donation.set_status "completed" d
             end).
  assert (Hd' : Donation._id d' = Donation._id d
                /\ Donation.amount d' = Donation.amount d
                /\ Donation.initiative d' = Donation.initiative d
                /\ Donation.status d' = "completed"
                /\ Donation.valid d' = true).
  { unfold Donation.valid in *. subst d'.
    destruct transactionId as [tx|]; [destruct (String.eqb tx "")|];
      simpl; repeat split;
      repeat (apply andb_prop in Hvalid as [Hvalid ?]);
      repeat (apply andb_true_intro; split); auto. }
  destruct Hd' as (Hid & Hamount & Hinit & Hcompleted & Hvalid').
  unfold Donation.save. rewrite Hvalid'. simpl. split; [reflexivity|].
  unfold DonationRoutes.for_initiative. rewrite Hcast.
  do 2 eexists. split; [reflexivity|]. split; [reflexivity|].
  destruct (raised_after_persist
              (fun x => String.eqb (Donation.initiative x)
                                   (Donation.initiative d)
                        && String.eqb (Donation.status x) "completed")
              d' d donations Hnd Hin Hid) as [Hlen Hsum].
  { apply andb_false_iff. right. now apply String.eqb_neq. }
  { rewrite Hinit, Hcompleted, !String.eqb_refl. reflexivity. }
  cbn [DonationRoutes.donations_of DonationRoutes.totalDonations
       DonationRoutes.totalAmount].
  split.
  - rewrite !length_sort_desc, Hlen. lia.
  - intros Hw Hs.
    set (p := fun x => String.eqb (Donation.initiative x)
                                  (Donation.initiative d)
                       && String.eqb (Donation.status x) "completed") in *.
    assert (Hwb : forall x,
               In x (sort_desc Donation.createdAt (filter p donations)) ->
               whole_amount x).
    { intros x Hx. apply in_sort_desc, filter_In in Hx. now apply Hw. }
    assert (Hwa : forall x,
               In x (sort_desc Donation.createdAt
                       (filter p (DonationRoutes.persist d' donations))) ->
               whole_amount x).
    { intros x Hx. apply in_sort_desc, filter_In in Hx as [Hx _].
      apply Donation_in_persist in Hx as [-> | Hx]; [|now apply Hw].
      destruct (Hw d Hin) as (z & Hz & E). exists z.
      split; [exact Hz | now rewrite Hamount]. }
    assert (Hd0 : (0 <= Donation.amount d)%Q).
    { destruct (Hw d Hin) as (z & Hz & ->). now rewrite <- (Zle_Qle 0). }
    assert (Hsa : (sum_amounts
                     (sort_desc Donation.createdAt
                        (filter p (DonationRoutes.persist d' donations)))
                   == sum_amounts
                        (sort_desc Donation.createdAt (filter p donations))
                      + Donation.amount d)%Q).
    { rewrite !sum_sort_desc, Hsum, Hamount. ring. }
    destruct (reduce_sum_whole_amounts _ Hwb) as (b & Hb & Eb).
    { eapply Qle_lt_trans; [|exact Hs].
      rewrite <- (Qplus_0_r (sum_amounts _)) at 1.
      apply Qplus_le_r. exact Hd0. }
    destruct (reduce_sum_whole_amounts _ Hwa) as (a & Ha & Ea).
    { now rewrite Hsa. }
    exists b, a. split; [exact Hb|]. split; [exact Ha|].
    now rewrite Ea, Eb.
Qed.

Lemma completing_donation_adds_amount_witness :
  NoDup (map Donation._id [gift; grant])
  /\ DonationRoutes.findById castHex grant_id [gift; grant]
     = Ret (Some grant)
  /\ User.role dave = "admin"
  /\ Donation.valid grant = true
  /\ Donation.status grant <> "completed"
  /\ castHex garden_id = Some (Donation.initiative grant)
  /\ (forall x, In x [gift; grant] -> whole_amount x)
  /\ status (fst (DonationRoutes.update_status castHex grant_id dave
                    "completed" (Some "tx-2") [gift; grant])) = 200
  /\ exists r : DonationRoutes.Raised,
      DonationRoutes.for_initiative castHex garden_id
        (snd (DonationRoutes.update_status castHex grant_id dave
                "completed" (Some "tx-2") [gift; grant])) = Json r
      /\ DonationRoutes.totalDonations r = 2
      /\ exists a : Q,
          DonationRoutes.totalAmount r = Finite a /\ (a == 65)%Q.
Proof.
  assert (Hnd : NoDup (map Donation._id [gift; grant])).
  { simpl. constructor; [|constructor; [intros []|constructor]].
    intros [E|[]]. discriminate. }
  assert (Hs : Donation.status grant <> "completed") by discriminate.
  assert (Hw : forall x, In x [gift; grant] -> whole_amount x).
  { intros x [<-|[<-|[]]]; [exists 25 | exists 40];
      (split; [lia | reflexivity]). }
  split; [exact Hnd|]. split; [reflexivity|]. split; [reflexivity|].
  split; [reflexivity|]. split; [exact Hs|]. split; [reflexivity|].
  split; [exact Hw|].
  destruct (completing_donation_adds_amount castHex grant_id dave
              (Some "tx-2") [gift; grant] grant garden_id
              Hnd eq_refl eq_refl eq_refl Hs eq_refl)
    as (H200 & before & after & Hb & Ha & Hn & Hsum).
  split; [exact H200|]. exists after. split; [exact Ha|].
  assert (Eb : before = DonationRoutes.mkRaised [gift] (Finite 25) 1).
  { vm_compute in Hb. inversion Hb. reflexivity. }
  subst before. split; [rewrite Hn; reflexivity|].
  destruct (Hsum Hw eq_refl) as (b & a & Hb' & Ha' & E).
  exists a. split; [exact Ha'|]. rewrite E.
  inversion Hb'. reflexivity.
Defined.

(** After Dave completes the pledge the garden has raised 25 + 7.5, a sum
    that binary64 holds exactly. *)
Example garden_raised_after_pledge :
  DonationRoutes.for_initiative castHex garden_id
    (snd (DonationRoutes.update_status castHex pledge_id dave
            "completed" (Some "tx-2") [gift; pledge]))
  = Json (DonationRoutes.mkRaised
            [Donation.set_transactionId "tx-2"
               (Donation.set_status "completed" pledge); gift]
            (Finite (65 # 2)) 2).
Proof. vm_compute. reflexivity. Qed.

(** Amounts that are no whole numbers need not add up: with 0.3 and 0.2
    raised the total is 0.5; once the newer donation of 0.1 is completed
    the total is 0.1 + 0.3 + 0.2 = 0.6000000000000001, where 0.5 + 0.1
    is 0.6. *)
Example completed_tenths_round :
  DonationRoutes.for_initiative castHex garden_id
    [three_tenths; two_tenths; one_tenth]
  = Json (DonationRoutes.mkRaised [three_tenths; two_tenths]
                                  (Finite (1 # 2)) 2)
  /\ match DonationRoutes.for_initiative castHex garden_id
            (snd (DonationRoutes.update_status castHex one_tenth_id dave
                    "completed" None
                    [three_tenths; two_tenths; one_tenth])) with
     | Json r =>
         DonationRoutes.totalDonations r = 3
         /\ DonationRoutes.totalAmount r
            = Finite (1351079888211149 # 2251799813685248)
         /\ Number_add (Finite (1 # 2)) (Finite (Donation.amount one_tenth))
            = binary64 (6 # 10)
         /\ binary64 (6 # 10) <> DonationRoutes.totalAmount r
     | _ => False
     end.
Proof. vm_compute. repeat split; discriminate. Qed.

(* ------------------------------------------------------------------ *)
(** ** The users router *)

(** X24. The user search route is unreachable: no GET path is dispatched
    to the search handler, because '/:id' is registered before '/search';
    a request for '/search', in any letter case, runs the lookup by id,
    which answers 404 'User not found' when the segment is no
    ObjectId. *)
Theorem search_route_is_shadowed
        (castObjectId : string -> option ObjectId) (users : list User.t)
        (path : list string) :
  UserRoutes.dispatch path <> Some UserRoutes.Search
  /\ forall segment : string,
      path = [segment] ->
      UserRoutes.lower_text segment = "search" ->
      UserRoutes.dispatch path = Some UserRoutes.GetById
      /\ (castObjectId segment = None ->
          UserRoutes.get_by_id castObjectId segment users
          = Failed 404 "User not found").
Proof.
  split.
  - unfold UserRoutes.dispatch, UserRoutes.routes.
    destruct path as [|x [|y [|z rest]]]; cbn -[UserRoutes.lower_text String.eqb].
    + discriminate.
    + destruct (String.eqb _ _); [discriminate|].
      destruct (String.eqb x "") eqn:Hx; cbn -[UserRoutes.lower_text String.eqb];
        [|discriminate].
      apply String.eqb_eq in Hx. subst x. cbn. discriminate.
    + repeat (match goal with
              | |- context [(?b && _)%bool] => destruct b
              | |- context [if ?b then _ else _] => destruct b
              end; cbn -[UserRoutes.lower_text String.eqb];
              try discriminate).
    + repeat (match goal with
              | |- context [(?b && _)%bool] => destruct b
              | |- context [if ?b then _ else _] => destruct b
              end; cbn -[UserRoutes.lower_text String.eqb];
              try discriminate).
  - intros segment -> Hlower. split.
    + unfold UserRoutes.dispatch, UserRoutes.routes.
      cbn -[UserRoutes.lower_text String.eqb]. rewrite Hlower.
      change (String.eqb (UserRoutes.lower_text "profile") "search")
        with false.
      cbn -[UserRoutes.lower_text String.eqb].
      destruct segment; [discriminate|]. reflexivity.
    + intros Hcast. unfold UserRoutes.get_by_id, User.findById.
      rewrite Hcast. reflexivity.
Qed.

Lemma search_route_is_shadowed_witness :
  UserRoutes.lower_text "Search" = "search"
  /\ castHex "Search" = None
  /\ UserRoutes.dispatch ["Search"] = Some UserRoutes.GetById
  /\ UserRoutes.get_by_id castHex "Search" some_users
     = Failed 404 "User not found".
Proof.
  split; [reflexivity|]. split; [reflexivity|].
  destruct (proj2 (search_route_is_shadowed castHex some_users ["Search"])
                  "Search" eq_refl eq_refl) as [Hd H404].
  split; [exact Hd | exact (H404 eq_refl)].
Defined.
